(** * DPOD geometry core: colour codec, painter's ordering, pose-recovery loop

    A shallow embedding of [DPOD/models_handler.py] (the Kaggle/ApolloScape
    handler) and [DPOD/datasets/linemod/models_handler.py] (the LineMOD
    handler), with the properties of the design document stated over it.

    Conventions of the embedding.
    - A NumPy [float64] is a rational number: every finite float is one, and
      arithmetic is taken exact (no rounding).  Where the source divides, the
      IEEE results of a zero divisor are kept ([npfloat]).
    - Python exceptions are values of [exn]; a function that may raise returns
      a [result].
    - Library routines whose code is not part of the repository (arctan2,
      griddata, softmax, the OpenCV solver) are fields of interface classes;
      every statement below holds for all their implementations unless it
      names a hypothesis on them.  What differs between the releases of a
      library (the truth value of an empty array) is such a field as well. *)

From Stdlib Require Import ZArith QArith Qabs Qround Qminmax List Lia Lqa Permutation Sorted.
From stdpp Require Import gmap strings.
Import ListNotations.
Open Scope Z_scope.

(** ** Exceptions and results *)

Inductive exn : Set :=
  | ValueError
  | IndexError
  | AttributeError
  | TypeError
  | KeyError
  | LibraryError.   (* raised inside scipy / OpenCV *)

Inductive result (A : Type) : Type :=
  | Ok (a : A)
  | Err (e : exn).
Arguments Ok {A} a.
Arguments Err {A} e.

#[global] Instance result_ret : MRet result := fun A a => Ok a.
#[global] Instance result_bind : MBind result := fun A B f m =>
  match m with
  | Ok a => f a
  | Err e => Err e
  end.

Definition raises {A} (r : result A) : Prop := exists e, r = Err e.

(** ** NumPy floating-point results of a division *)

Inductive npfloat : Type :=
  | Fin (q : Q)
  | PInf
  | NInf
  | NaN.

(** [a / b] on float64 operands: a zero divisor yields nan or a signed
    infinity (with a RuntimeWarning), never an exception. *)
Definition np_div (a b : Q) : npfloat :=
  if Qeq_bool b 0 then
    if Qeq_bool a 0 then NaN
    else if Qle_bool 0 a then PInf else NInf
  else Fin (a / b).

(** [x % m] on floats is the floored remainder; nan and the infinities give nan. *)
Definition Qmod (q m : Q) : Q := (q - inject_Z (Qfloor (q / m)) * m)%Q.

Definition np_mod (x : npfloat) (m : Q) : npfloat :=
  match x with
  | Fin q => if Qeq_bool m 0 then NaN else Fin (Qmod q m)
  | _ => NaN
  end.

(** [astype(int)] truncates towards zero.  The conversion of nan or an
    infinity is undefined in C; NumPy on x86-64 stores the least int64. *)
Definition int64_min : Z := - 2 ^ 63.

Definition Qtrunc (q : Q) : Z := Z.quot (Qnum q) (Zpos (Qden q)).

Definition astype_int (x : npfloat) : Z :=
  match x with
  | Fin q => Qtrunc q
  | _ => int64_min
  end.

(** [x.min()] and [x.max()]: a zero-size array raises ValueError. *)
Definition amin (x : list Q) : result Q :=
  match x with
  | [] => Err ValueError
  | a :: r => Ok (fold_left Qmin r a)
  end.

Definition amax (x : list Q) : result Q :=
  match x with
  | [] => Err ValueError
  | a :: r => Ok (fold_left Qmax r a)
  end.

(** ** Colour codec *)

Definition point3 : Type := Q * Q * Q.
Definition px (p : point3) : Q := fst (fst p).
Definition py (p : point3) : Q := snd (fst p).
Definition pz (p : point3) : Q := snd p.

(** Transcendental routines of NumPy, as functions on floats. *)
Class NumpyMath := {
  arctan2 : Q -> Q -> Q;
  np_pi : Q
}.

(** ** NumPy indexing of a sequence *)

(** [l[i]] with an integer [i]: negative indices count from the end, anything
    outside [-n, n) raises IndexError. *)
Definition np_index {A} (l : list A) (i : Z) : result A :=
  let n := Z.of_nat (length l) in
  let j := if i <? 0 then n + i else i in
  if (0 <=? j) && (j <? n) then
    match nth_error l (Z.to_nat j) with
    | Some a => Ok a
    | None => Err IndexError
    end
  else Err IndexError.

(** [l[idx]] with an index array. *)
Fixpoint np_take {A} (l : list A) (idx : list Z) : result (list A) :=
  match idx with
  | [] => Ok []
  | i :: rest =>
      a ← np_index l i;
      r ← np_take l rest;
      Ok (a :: r)
  end.

(** [np.argsort]: indices that sort the keys in ascending order.  The default
    kind (quicksort) gives no promise on the order of equal keys, so only the
    contract is fixed here. *)
Class NumpySort := {
  argsort : list Q -> list nat;
  argsort_perm : forall keys, Permutation (argsort keys) (seq 0 (length keys));
  argsort_sorted : forall keys,
    StronglySorted (fun i j => (nth i keys 0 <= nth j keys 0)%Q) (argsort keys)
}.

(** ** Geometry *)

Definition mat3 : Type := point3 * point3 * point3.   (* three rows *)

Definition padd (a b : point3) : point3 :=
  ((px a + px b)%Q, (py a + py b)%Q, (pz a + pz b)%Q).
Definition pscale (a : point3) (k : Q) : point3 :=
  ((px a * k)%Q, (py a * k)%Q, (pz a * k)%Q).
Definition pdiv3 (a : point3) : point3 :=
  ((px a / 3)%Q, (py a / 3)%Q, (pz a / 3)%Q).

Definition row0 (m : mat3) : point3 := fst (fst m).
Definition row1 (m : mat3) : point3 := snd (fst m).
Definition row2 (m : mat3) : point3 := snd m.

Definition mtranspose (m : mat3) : mat3 :=
  ((px (row0 m), px (row1 m), px (row2 m)),
   (py (row0 m), py (row1 m), py (row2 m)),
   (pz (row0 m), pz (row1 m), pz (row2 m))).

(** [p @ m] for a row vector [p]. *)
Definition vecmat (p : point3) (m : mat3) : point3 :=
  padd (padd (pscale (row0 m) (px p)) (pscale (row1 m) (py p)))
       (pscale (row2 m) (pz p)).

Definition triangle : Type := Z * Z * Z.
Definition tri0 (t : triangle) : Z := fst (fst t).
Definition tri1 (t : triangle) : Z := snd (fst t).
Definition tri2 (t : triangle) : Z := snd t.

(** [(P[t[:, 0]] + P[t[:, 1]] + P[t[:, 2]]) / 3] for one face. *)
Definition face_mid_point (P : list point3) (t : triangle) : result point3 :=
  a ← np_index P (tri0 t);
  b ← np_index P (tri1 t);
  c ← np_index P (tri2 t);
  Ok (pdiv3 (padd (padd a b) c)).

Fixpoint mid_point_rows (P : list point3) (ts : list triangle)
  : result (list point3) :=
  match ts with
  | [] => Ok []
  | t :: rest =>
      m ← face_mid_point P t;
      r ← mid_point_rows P rest;
      Ok (m :: r)
  end.

(** The mid points of all faces.  A model without faces has [np.array([])]
    for its faces, an array of shape (0,), and [t[:, 0]] on it raises
    IndexError. *)
Definition faces_mid_points (P : list point3) (ts : list triangle)
  : result (list point3) :=
  match ts with
  | [] => Err IndexError
  | _ :: _ => mid_point_rows P ts
  end.

(** [np.argsort(-mid[:, 2])]: the order in which the faces are drawn. *)
Definition face_ordering `{NumpySort} (mid : list point3) : list Z :=
  map Z.of_nat (argsort (map (fun m => (- pz m)%Q) mid)).

(** OpenCV's part in drawing: the projection and the polygon fill.  The image
    is whatever OpenCV draws on; a fill returns the image after the fill. *)
Class Cv2Draw := {
  image : Type;
  projectPoints : list point3 -> mat3 -> list (Q * Q);
  fillConvexPoly : image -> list (Z * Z) -> list Z -> image
}.

(** [.astype(int)] / [dtype=np.int32] of a projected point. *)
Definition pixel_of (p : Q * Q) : Z * Z := (Qtrunc (fst p), Qtrunc (snd p)).

(** The three corners of a face on the image. *)
Definition face_coords (pts2d : list (Q * Q)) (t : triangle)
  : result (list (Z * Z)) :=
  a ← np_index pts2d (tri0 t);
  b ← np_index pts2d (tri1 t);
  c ← np_index pts2d (tri2 t);
  Ok [pixel_of a; pixel_of b; pixel_of c].

(** One fill per face, in list order: the loop of [draw_triangles] (with
    [colors] given) and of [draw_color_mask]. *)
Fixpoint fill_faces `{Cv2Draw} (img : image) (pts2d : list (Q * Q))
    (faces : list (triangle * list Z)) : result image :=
  match faces with
  | [] => Ok img
  | (t, c) :: rest =>
      coord ← face_coords pts2d t;
      fill_faces (fillConvexPoly img coord c) pts2d rest
  end.

(** ** N-dimensional arrays *)

(** A C-contiguous array: its shape and its elements in row-major order. *)
Record ndarray (A : Type) : Type := mk_nd { shape : list nat; data : list A }.
Arguments mk_nd {A} shape data.
Arguments shape {A} n.
Arguments data {A} n.

Definition nd_size (sh : list nat) : nat := fold_right Nat.mul 1%nat sh.
Definition ndim {A} (a : ndarray A) : nat := length (shape a).

(** [a.flatten()] *)
Definition flatten {A} (a : ndarray A) : ndarray A :=
  mk_nd [length (data a)] (data a).

Fixpoint select {A} (l : list A) (m : list bool) : list A :=
  match l, m with
  | a :: l', b :: m' => if b then a :: select l' m' else select l' m'
  | _, _ => []
  end.

(** [a[m]] for a boolean mask [m] with as many dimensions as [a]: the shapes
    must agree, else IndexError; the selected elements come as a 1-D array. *)
Definition np_mask_select {A} (a : ndarray A) (m : ndarray bool)
  : result (ndarray A) :=
  if decide (shape a = shape m) then
    let r := select (data a) (data m) in Ok (mk_nd [length r] r)
  else Err IndexError.

(** Multi-index of the flat position [i] in an array of shape [sh], and back. *)
Fixpoint unravel (sh : list nat) (i : nat) : list nat :=
  match sh with
  | [] => []
  | _ :: rest =>
      Nat.div i (nd_size rest) :: unravel rest (Nat.modulo i (nd_size rest))
  end.

Fixpoint ravel (sh idx : list nat) : nat :=
  match sh, idx with
  | _ :: rest, i :: idx' => (i * nd_size rest + ravel rest idx')%nat
  | _, _ => O
  end.

(** [a.T]: the axes reversed. *)
Definition nd_transpose {A} (d : A) (a : ndarray A) : ndarray A :=
  let sh := rev (shape a) in
  mk_nd sh (map (fun k => nth (ravel (shape a) (rev (unravel sh k))) (data a) d)
                (seq 0 (nd_size sh))).

Fixpoint true_positions (i : nat) (m : list bool) : list nat :=
  match m with
  | [] => []
  | b :: r => if b then i :: true_positions (S i) r else true_positions (S i) r
  end.

(** [np.argwhere(m)]: one row per true element, one column per dimension. *)
Definition np_argwhere (m : ndarray bool) : ndarray Z :=
  let pos := true_positions 0 (data m) in
  mk_nd [length pos; ndim m]
        (concat (map (fun i => map Z.of_nat (unravel (shape m) i)) pos)).

Definition atleast_1d {A} (a : ndarray A) : ndarray A :=
  match shape a with
  | [] => mk_nd [1%nat] (data a)
  | _ => a
  end.

(** [k] consecutive chunks of [n] elements. *)
Fixpoint chunks {A} (n k : nat) (l : list A) : list (list A) :=
  match k with
  | O => []
  | S k' => firstn n l :: chunks n k' (skipn n l)
  end.

(** [np.hstack([a, b])]: when the first array is 1-D the arrays are joined
    along axis 0, otherwise along axis 1; [np.concatenate] raises ValueError
    unless both have the same number of dimensions and agree on the others. *)
Definition np_hstack2 {A} (a b : ndarray A) : result (ndarray A) :=
  let a := atleast_1d a in
  let b := atleast_1d b in
  match shape a, shape b with
  | [n], [m] => Ok (mk_nd [(n + m)%nat] (data a ++ data b))
  | d0 :: p :: ra, e0 :: q :: rb =>
      if decide (d0 = e0 ∧ ra = rb) then
        Ok (mk_nd (d0 :: (p + q)%nat :: ra)
              (concat (zip_with app
                         (chunks (p * nd_size ra) d0 (data a))
                         (chunks (q * nd_size ra) d0 (data b)))))
      else Err ValueError
  | _, _ => Err ValueError
  end.

(** Position of the first greatest element. *)
Fixpoint argmax_from (best_i : nat) (best : Q) (i : nat) (l : list Q) : nat :=
  match l with
  | [] => best_i
  | x :: r =>
      if Qle_bool x best then argmax_from best_i best (S i) r
      else argmax_from i x (S i) r
  end.

Definition argmax_list (l : list Q) : result Z :=
  match l with
  | [] => Err ValueError
  | x :: r => Ok (Z.of_nat (argmax_from 0 x 1 r))
  end.

(** [np.argmax(a, axis=0)] *)
Definition np_argmax0 (a : ndarray Q) : result (ndarray Z) :=
  match shape a with
  | [] => Err ValueError
  | c :: rest =>
      let s := nd_size rest in
      cols ← mapM (fun j =>
                argmax_list (map (fun k => nth (k * s + j) (data a) 0%Q) (seq 0 c)))
              (seq 0 s);
      Ok (mk_nd rest cols)
  end.

(** [a == k] and [a != k] against a Python int. *)
Definition np_eq_scalar (a : ndarray Q) (k : Z) : ndarray bool :=
  mk_nd (shape a) (map (fun x => Qeq_bool x (inject_Z k)) (data a)).

Definition np_eq_scalar_int (a : ndarray Z) (k : Z) : ndarray bool :=
  mk_nd (shape a) (map (fun x => x =? k) (data a)).

Definition np_ne_scalar_int (a : ndarray Z) (k : Z) : ndarray bool :=
  mk_nd (shape a) (map (fun x => negb (x =? k)) (data a)).

Definition norm_index (n : nat) (i : Z) : result nat :=
  let j := if i <? 0 then Z.of_nat n + i else i in
  if (0 <=? j) && (j <? Z.of_nat n) then Ok (Z.to_nat j) else Err IndexError.

(** [p[ch, I, J] = v] on a three-dimensional array, [I] and [J] being index
    arrays of one length; [ch] is an integer, or [None] for the slice [:]. *)
Definition set_pixels (p : ndarray Q) (ch : option Z) (I J : list Z) (v : Q)
  : result (ndarray Q) :=
  match shape p with
  | [c; h; w] =>
      chans ← match ch with
              | None => Ok (seq 0 c)
              | Some k => k' ← norm_index c k; Ok [k']
              end;
      if (length I =? length J)%nat then
        pos ← mapM (fun ij => i ← norm_index h (fst ij);
                              j ← norm_index w (snd ij);
                              Ok (i, j)) (combine I J);
        Ok (mk_nd (shape p)
              (fold_left
                 (fun d (ij : nat * nat) =>
                    fold_left (fun d k => <[(k * h * w + fst ij * w + snd ij)%nat := v]> d)
                              chans d)
                 pos (data p)))
      else Err IndexError
  | _ => Err IndexError
  end.

(** ** scipy.stats.mode *)

Definition count_in (l : list Z) (x : Z) : nat := length (filter (Z.eqb x) l).

Fixpoint mode_from (l cands : list Z) (best : Z) : Z :=
  match cands with
  | [] => best
  | x :: r =>
      let cb := count_in l best in
      let cx := count_in l x in
      if (cb <? cx)%nat || ((cb =? cx)%nat && (x <? best))
      then mode_from l r x else mode_from l r best
  end.

(** [mode(l).mode.item()]: the most frequent value, the least one among
    equally frequent values.  On an empty sample the SciPy releases of the
    repository's time return an empty array, whose [.item()] raises
    ValueError. *)
Definition stats_mode (l : list Z) : result Z :=
  match l with
  | [] => Err ValueError
  | x :: r => Ok (mode_from l r x)
  end.

(** Rows of a two-dimensional array; [a[:, j]] and [a[:, :2]] need two
    dimensions (IndexError otherwise). *)
Definition nd_rows {A} (a : ndarray A) : result (list (list A)) :=
  match shape a with
  | [n; k] => Ok (chunks k n (data a))
  | _ => Err IndexError
  end.

Definition rows_column {A} (rows : list (list A)) (j : Z) : result (list A) :=
  mapM (fun r => np_index r j) rows.

Definition of_rows {A} (k : nat) (rows : list (list A)) : ndarray A :=
  mk_nd [length rows; k] (concat rows).

(** ** Python objects crossing the OpenCV boundary *)

#[warnings="-register-all"]
Inductive pyobj : Type :=
  | PyNone
  | PyBool (b : bool)
  | PyFloatArray (a : ndarray Q)
  | PyIntArray (a : ndarray Z)
  | PyTuple (items : list pyobj).

(** [o.T]: only arrays have the attribute. *)
Definition py_T (o : pyobj) : result pyobj :=
  match o with
  | PyFloatArray a => Ok (PyFloatArray (nd_transpose 0%Q a))
  | PyIntArray a => Ok (PyIntArray (nd_transpose 0 a))
  | _ => Err AttributeError
  end.

(** [o.flatten()] *)
Definition py_flatten (o : pyobj) : result pyobj :=
  match o with
  | PyFloatArray a => Ok (PyFloatArray (flatten a))
  | PyIntArray a => Ok (PyIntArray (flatten a))
  | _ => Err AttributeError
  end.

(** [rows[idx]] for an index object: an integer array selects rows, a float
    array is refused (IndexError), anything else is no index. *)
Definition py_take_rows {A} (rows : list A) (idx : pyobj) : result (list A) :=
  match idx with
  | PyIntArray i => np_take rows (data i)
  | _ => Err IndexError
  end.

(** The truth value of an array without elements depends on the NumPy
    release: [False] (with a DeprecationWarning) up to NumPy 2.1, ValueError
    from NumPy 2.2 on. *)
Class NumpyRelease := {
  empty_array_truth : result bool
}.

(** Truth value, as [if not o] takes it. *)
Definition truthy `{NumpyRelease} (o : pyobj) : result bool :=
  match o with
  | PyNone => Ok false
  | PyBool b => Ok b
  | PyTuple items => Ok (negb (Nat.eqb (length items) 0))
  | PyFloatArray a =>
      match data a with
      | [] => empty_array_truth
      | [x] => Ok (negb (Qeq_bool x 0))
      | _ => Err ValueError
      end
  | PyIntArray a =>
      match data a with
      | [] => empty_array_truth
      | [x] => Ok (negb (x =? 0))
      | _ => Err ValueError
      end
  end.

(** [o[:, j]] taken as an index into a torch tensor: an integer column as it
    is; the entries of a float column are converted to int64, which truncates
    them. *)
Definition py_index_column (o : pyobj) (j : Z) : result (list Z) :=
  match o with
  | PyIntArray a => rows ← nd_rows a; rows_column rows j
  | PyFloatArray a =>
      rows ← nd_rows a;
      col ← rows_column rows j;
      Ok (map Qtrunc col)
  | _ => Err TypeError
  end.

(** ** Library interfaces *)

Inductive interp_method : Set := Linear | Nearest.

(** [scipy.interpolate.griddata(points, values, xi=np.mgrid[0:R, 0:R], method)]:
    the value at every grid node, [None] standing for a nan row. *)
Class Scipy := {
  griddata : list (Z * Z) -> list point3 -> nat -> interp_method ->
             result (nat -> nat -> option point3)
}.

(** [torch.nn.functional.softmax(t, dim=0)] returns a new tensor of the same
    shape; it is monotone along the axis, so the position of the maximum is
    that of the scores. *)
Class Torch := {
  softmax : ndarray Q -> ndarray Q;
  softmax_shape : forall t, shape (softmax t) = shape t;
  softmax_argmax : forall t, np_argmax0 (softmax t) = np_argmax0 t
}.

(** [cv2.solvePnPRansac] (four returned values) and [cv2.Rodrigues]; what
    they return is left open. *)
Class Cv2Solve := {
  solvePnPRansac : list (option point3) -> list (list Z) -> mat3 ->
                   result (pyobj * pyobj * pyobj * pyobj);
  Rodrigues : pyobj -> result pyobj
}.

(** The dense table [color_to_3dpoints]: [resolution] rows and columns. *)
Record lookup_table : Type := {
  resolution : nat;
  cell : nat -> nat -> option point3
}.

(** [table[i, j]] *)
Definition table_get (t : lookup_table) (i j : Z) : result (option point3) :=
  ii ← norm_index (resolution t) i;
  jj ← norm_index (resolution t) j;
  Ok (cell t ii jj).

(** The two-pass interpolation shared by both handlers: linear first, the
    cells it leaves nan taken from the nearest sample. *)
Definition interpolate_table `{Scipy} (points : list (Z * Z))
    (values : list point3) (R : nat) : result lookup_table :=
  interpolated ← griddata points values R Linear;
  nearest ← griddata points values R Nearest;
  Ok {| resolution := R;
        cell := fun i j => match interpolated i j with
                           | Some p => Some p
                           | None => nearest i j
                           end |}.

(** ** The Kaggle / ApolloScape handler: [DPOD/models_handler.py] *)

Module Kaggle.

(** [transform_points]: [points @ rotation_matrix + translation_vector] *)
Definition transform_points (points : list point3) (rotation_matrix : mat3)
    (translation_vector : point3) : list point3 :=
  map (fun p => padd (vecmat p rotation_matrix) translation_vector) points.

(** One parsed [car_models_json/*.json] file. *)
Record RawModel : Type := {
  raw_vertices : list point3;
  raw_faces : list triangle
}.

(** The handler.  [car_id2name] is the table of [DPOD.apolloscape_specs], a
    module whose source is not among the files at hand: it is a field here.
    Models are addressed by their integer id throughout. *)
Record ModelsHandler : Type := {
  raw_models : gmap string RawModel;
  car_id2name : gmap Z string
}.

Definition camera_matrix : mat3 :=
  ((23045479 # 10000, 0, 16862379 # 10000),
   (0, 23058757 # 10000, 13549849 # 10000),
   (0, 0, 1))%Q.

(** An empty list of vertices or faces in the file becomes [np.array([])], an
    array of shape (0,): [vertices[:, 1]] raises IndexError on it. *)
Definition model_id_to_vertices_and_triangles (self : ModelsHandler) (model_id : Z)
  : result (list point3 * list triangle) :=
  match car_id2name self !! model_id with
  | Some name =>
      match raw_models self !! name with
      | Some data =>
          match raw_vertices data with
          | [] => Err IndexError
          | _ :: _ =>
              let vertices :=
                map (fun v => (px v, (- py v)%Q, pz v)) (raw_vertices data) in
              let triangles :=
                map (fun f => (tri0 f - 1, tri1 f - 1, tri2 f - 1)) (raw_faces data) in
              Ok (vertices, triangles)
          end
      | None => Err KeyError
      end
  | None => Err KeyError
  end.

(** [256 * (x - x.min()) / (x.max() - x.min()) % 256]; the operators [*], [/]
    and [%] associate to the left. *)
Definition normalize_to_256 (x : list Q) : result (list npfloat) :=
  lo ← amin x;
  hi ← amax x;
  Ok (map (fun xi => np_mod (np_div (256 * (xi - lo)) (hi - lo)) 256) x).

Section Methods.
Context `{NumpyMath} `{NumpySort} `{Scipy} `{Cv2Draw} `{Cv2Solve}.

Definition get_model_faces_midpoints (self : ModelsHandler) (model_id : Z)
  : result (list point3) :=
  vt ← model_id_to_vertices_and_triangles self model_id;
  faces_mid_points (fst vt) (snd vt).

(** [color_points]: rows [(model_id, height code, angle code)] cast to int.
    On the array of shape (0,) of an empty list [points[:, 1]] raises
    IndexError. *)
Definition color_points (points : list point3) (model_id : Z)
  : result (list (Z * Z * Z)) :=
  match points with
  | [] => Err IndexError
  | _ :: _ =>
      let h_colors := map py points in
      let r_colors := map (fun p => arctan2 (px p) (pz p)) points in
      h_colors ← normalize_to_256 h_colors;
      r_colors ← normalize_to_256 r_colors;
      Ok (map (fun hr => (model_id, astype_int (fst hr), astype_int (snd hr)))
              (combine h_colors r_colors))
  end.

Definition get_model_face_to_color_array (self : ModelsHandler) (model_id : Z)
  : result (list (Z * Z * Z)) :=
  faces_mid_points ← get_model_faces_midpoints self model_id;
  color_points faces_mid_points model_id.

(** [get_color_to_3dpoints_arrays]: the samples are the vertex codes
    [colors[:, 1:]], the values the vertices, the grid [np.mgrid[0:256, 0:256]]. *)
Definition get_color_to_3dpoints_arrays (self : ModelsHandler) (model_id : Z)
  : result lookup_table :=
  vt ← model_id_to_vertices_and_triangles self model_id;
  let vertices := fst vt in
  colors ← color_points vertices model_id;
  let points_for_griddata := map (fun c => (snd (fst c), snd c)) colors in
  interpolate_table points_for_griddata vertices 256.

(** What [draw_model] hands to [draw_triangles]: the projected vertices and
    the faces with their colours, in drawing order. *)
Definition draw_plan (self : ModelsHandler) (model_id : Z)
    (translation_vector : point3) (rotation_matrix : mat3)
  : result (list (Q * Q) * list (triangle * list Z)) :=
  vt ← model_id_to_vertices_and_triangles self model_id;
  let points3d_on_model := fst vt in
  let triangles := snd vt in
  let points3d_in_reality :=
    transform_points points3d_on_model rotation_matrix translation_vector in
  let points2d_on_image := projectPoints points3d_in_reality camera_matrix in
  faces_mid_points3d_in_reality ← faces_mid_points points3d_in_reality triangles;
  let ordering := face_ordering faces_mid_points3d_in_reality in
  triangles ← np_take triangles ordering;
  colors ← get_model_face_to_color_array self model_id;
  colors ← np_take colors ordering;
  Ok (points2d_on_image,
      combine triangles
        (map (fun c => [fst (fst c); snd (fst c); snd c]) colors)).

Definition draw_model (self : ModelsHandler) (img : image) (model_id : Z)
    (translation_vector : point3) (rotation_matrix : mat3) : result image :=
  plan ← draw_plan self model_id translation_vector rotation_matrix;
  fill_faces img (fst plan) (snd plan).

(** [pnp_ransac_single_instance]; the returned tuple is evaluated from left
    to right. *)
Definition pnp_ransac_single_instance (self : ModelsHandler) (data : ndarray Z)
    (model_id : Z) : result (pyobj * pyobj * pyobj * pyobj) :=
  color_to_3dpoints ← get_color_to_3dpoints_arrays self model_id;
  rows ← nd_rows data;
  hs ← rows_column rows 2;
  rs ← rows_column rows 3;
  object_points ← mapM (fun hr => table_get color_to_3dpoints (fst hr) (snd hr))
                       (combine hs rs);
  let image_points := map (firstn 2) rows in
  solved ← solvePnPRansac object_points image_points camera_matrix;
  let '(converged, rodrigues_rotation_vector, translation_vector, inliers) := solved in
  flat ← py_flatten inliers;
  positions ← py_take_rows image_points flat;
  translation ← py_T translation_vector;
  rvec ← py_T rodrigues_rotation_vector;
  rotation ← Rodrigues rvec;
  rotation ← py_T rotation;
  Ok (converged, PyIntArray (of_rows 2 positions), translation, rotation).

(** [pnp_ransac_single_instance2] *)
Definition pnp_ransac_single_instance2 (self : ModelsHandler)
    (color_u color_v : ndarray Z) (mask : ndarray bool) (model_id : Z)
  : result (pyobj * pyobj * pyobj * pyobj) :=
  let points2d := np_argwhere mask in
  cu ← np_mask_select (flatten color_u) (flatten mask);
  cv ← np_mask_select (flatten color_v) (flatten mask);
  colors ← np_hstack2 cu cv;
  data ← np_hstack2 points2d colors;
  pnp_ransac_single_instance self data model_id.

End Methods.

(** *** The store and the recovery loop *)

(** Arrays that are written to, or that the caller keeps, live in a store;
    a name holds the address of its array. *)
Inductive outcome (A : Type) : Type :=
  | Returned (a : A)
  | Raised (e : exn)
  | OutOfFuel.
Arguments Returned {A} a.
Arguments Raised {A} e.
Arguments OutOfFuel {A}.

Definition M (A : Type) : Type :=
  gmap nat (ndarray Q) -> outcome A * gmap nat (ndarray Q).

#[global] Instance M_ret : MRet M := fun A a h => (Returned a, h).
#[global] Instance M_bind : MBind M := fun A B f m h =>
  match m h with
  | (Returned a, h') => f a h'
  | (Raised e, h') => (Raised e, h')
  | (OutOfFuel, h') => (OutOfFuel, h')
  end.

Definition lift {A} (r : result A) : M A := fun h =>
  match r with
  | Ok a => (Returned a, h)
  | Err e => (Raised e, h)
  end.

(** Reading through a name; a name always holds an allocated address in
    Python, the error case only makes the function total. *)
Definition load (l : nat) : M (ndarray Q) := fun h =>
  match h !! l with
  | Some a => (Returned a, h)
  | None => (Raised KeyError, h)
  end.

Definition alloc (a : ndarray Q) : M nat := fun h =>
  let l := fresh (dom h) in (Returned l, <[l := a]> h).

Definition store (l : nat) (a : ndarray Q) : M unit := fun h =>
  (Returned tt, <[l := a]> h).

Definition out_of_fuel {A} : M A := fun h => (OutOfFuel, h).

(** The method the loop calls on [self]. *)
Definition solver2 : Type :=
  ndarray Z -> ndarray Z -> ndarray bool -> Z -> result (pyobj * pyobj * pyobj * pyobj).

(** One entry of [output]: [(model_id, translation_vector, rotation_matrix)]. *)
Definition instance : Type := Z * pyobj * pyobj.

(** [mode(mpc[mpc != background_id]).mode.item()] for
    [mpc = np.argmax(probabilities, axis=0)]. *)
Definition most_frequent_class (probabilities : ndarray Q) (background_id : Z)
  : result Z :=
  most_probable_class_pixelwise ← np_argmax0 probabilities;
  non_background ← np_mask_select most_probable_class_pixelwise
                      (np_ne_scalar_int most_probable_class_pixelwise background_id);
  stats_mode (data non_background).

(** The body of [while True], [fuel] bounding the number of iterations. *)
Fixpoint recovery_loop `{NumpyRelease} (solve : solver2) (fuel : nat)
    (clasification probabilities : nat) (color_u color_v : ndarray Z)
    (background_id : Z) (output : list instance) : M (list instance) :=
  match fuel with
  | O => out_of_fuel
  | S fuel =>
      p ← load probabilities;
      most_frequent_class ← lift (most_frequent_class p background_id);
      let model_id := most_frequent_class in
      cls ← load clasification;
      solved ← lift (solve color_u color_v
                       (np_eq_scalar cls most_frequent_class) model_id);
      let '(converged, inliers, translation_vector, rotation_matrix) := solved in
      c ← lift (truthy converged);
      if negb c then mret output
      else
        I ← lift (py_index_column inliers 0);
        J ← lift (py_index_column inliers 1);
        p ← load probabilities;
        p ← lift (set_pixels p None I J 0);
        _ ← store probabilities p;
        I ← lift (py_index_column inliers 0);
        J ← lift (py_index_column inliers 1);
        p ← load probabilities;
        p ← lift (set_pixels p (Some (-1)) I J 1);
        _ ← store probabilities p;
        recovery_loop solve fuel clasification probabilities color_u color_v
          background_id (output ++ [(model_id, translation_vector, rotation_matrix)])
  end.

(** [clasification.shape[0] - 1] *)
Definition background_of (cls : ndarray Q) : result Z :=
  match shape cls with
  | [] => Err IndexError
  | c :: _ => Ok (Z.of_nat c - 1)
  end.

Section Engine.
Context `{Torch} `{NumpyRelease}.

(** [pnp_ransac_multiple_instances], for any implementation of the method
    [pnp_ransac_single_instance2] it calls. *)
Definition pnp_ransac_multiple_instances_with (solve : solver2) (fuel : nat)
    (clasification correspondence_u correspondence_v : nat) : M (list instance) :=
  let output := [] in
  cls ← load clasification;
  probabilities ← alloc (softmax cls);
  u ← load correspondence_u;
  color_u ← lift (np_argmax0 u);
  v ← load correspondence_v;
  color_v ← lift (np_argmax0 v);
  cls ← load clasification;
  background_id ← lift (background_of cls);
  recovery_loop solve fuel clasification probabilities color_u color_v
    background_id output.

Context `{NumpyMath} `{Scipy} `{Cv2Solve}.

Definition pnp_ransac_multiple_instances (self : ModelsHandler) (fuel : nat)
    (clasification correspondence_u correspondence_v : nat) : M (list instance) :=
  pnp_ransac_multiple_instances_with (pnp_ransac_single_instance2 self) fuel
    clasification correspondence_u correspondence_v.

End Engine.
End Kaggle.

(** ** The LineMOD handler: [DPOD/datasets/linemod/models_handler.py] *)

(** [k * x] for a float [x] that may be nan or infinite. *)
Definition np_scale (k : Q) (x : npfloat) : npfloat :=
  match x with
  | Fin q => Fin (k * q)
  | NaN => NaN
  | PInf => if Qeq_bool k 0 then NaN else if Qle_bool 0 k then PInf else NInf
  | NInf => if Qeq_bool k 0 then NaN else if Qle_bool 0 k then NInf else PInf
  end.

Module Linemod.

(** [transform_points]: [(points @ R.T + t) @ diag(1, -1, -1)], for an array
    of points with its three columns. *)
Definition transform_points (points : list point3) (rotation_matrix : mat3)
    (translation_vector : point3) : list point3 :=
  map (fun p =>
         let q := padd (vecmat p (mtranspose rotation_matrix)) translation_vector in
         (px q, (- py q)%Q, (- pz q)%Q))
      points.

(** [transform_points] on the vertices of a model: a file without vertices
    gives [np.array([])], of shape (0,), and its product with the 3x3 matrix
    raises ValueError. *)
Definition transform_vertices (points : list point3) (rotation_matrix : mat3)
    (translation_vector : point3) : result (list point3) :=
  match points with
  | [] => Err ValueError
  | _ :: _ => Ok (transform_points points rotation_matrix translation_vector)
  end.

(** The handler: per model name the vertices and faces [read_obj_file]
    delivers (face indices already zero-based), and the colour resolution. *)
Record ModelsHandler : Type := {
  models : gmap string (list point3 * list triangle);
  color_resolution : nat
}.

Definition camera_matrix : mat3 :=
  ((5724114 # 10000, 0, 3252611 # 10000),
   (0, 57357043 # 100000, 24204899 # 100000),
   (0, 0, 1))%Q.

Definition get_vertices (self : ModelsHandler) (model_name : string)
  : result (list point3) :=
  match models self !! model_name with
  | Some m => Ok (fst m)
  | None => Err KeyError
  end.

Definition get_faces (self : ModelsHandler) (model_name : string)
  : result (list triangle) :=
  match models self !! model_name with
  | Some m => Ok (snd m)
  | None => Err KeyError
  end.

Definition get_faces_midpoints (self : ModelsHandler) (model_name : string)
  : result (list point3) :=
  vertices ← get_vertices self model_name;
  faces ← get_faces self model_name;
  faces_mid_points vertices faces.

Section Methods.
Context `{NumpyMath} `{NumpySort} `{Scipy} `{Cv2Draw}.

(** [color_uv]: height and angle scaled to [0, 1].  On the array of shape
    (0,) of an empty list [points[:, 1]] raises IndexError. *)
Definition color_uv (points : list point3) : result (list (npfloat * npfloat)) :=
  match points with
  | [] => Err IndexError
  | _ :: _ =>
      max_height ← amax (map py points);
      min_height ← amin (map py points);
      Ok (map (fun p =>
                 (np_div (py p - min_height) (max_height - min_height),
                  np_div (arctan2 (px p) (pz p) + np_pi) (2 * np_pi)))
              points)
  end.

(** [get_faces_uv_colors]: the face mid-points, scaled by the height range of
    the vertices. *)
Definition get_faces_uv_colors (self : ModelsHandler) (model_name : string)
  : result (list (npfloat * npfloat)) :=
  vertices ← get_vertices self model_name;
  faces ← get_faces self model_name;
  faces_mid_points ← get_faces_midpoints self model_name;
  max_height ← amax (map py vertices);
  min_height ← amin (map py vertices);
  Ok (map (fun p =>
             (np_div (py p - min_height) (max_height - min_height),
              np_div (arctan2 (px p) (pz p) + np_pi) (2 * np_pi)))
          faces_mid_points).

(** [(uv * self.color_resolution).astype(int)] *)
Definition uv_code (self : ModelsHandler) (uv : npfloat * npfloat) : Z * Z :=
  let R := inject_Z (Z.of_nat (color_resolution self)) in
  (astype_int (np_scale R (fst uv)), astype_int (np_scale R (snd uv))).

Definition get_color_to_3dpoints_arrays (self : ModelsHandler) (model_name : string)
  : result lookup_table :=
  vertices ← get_vertices self model_name;
  uv ← color_uv vertices;
  let colors := map (uv_code self) uv in
  interpolate_table colors vertices (color_resolution self).

(** What the loop of [draw_color_mask] draws: the projected vertices and the
    faces with their colours, in drawing order. *)
Definition draw_plan (self : ModelsHandler) (model_name : string)
    (rotation_matrix : mat3) (center : point3)
  : result (list (Q * Q) * list (triangle * list Z)) :=
  let translation_vector := center in
  points3d_on_model ← get_vertices self model_name;
  points3d_in_reality ←
    transform_vertices points3d_on_model rotation_matrix translation_vector;
  let points2d_on_image := projectPoints points3d_in_reality camera_matrix in
  faces ← get_faces self model_name;
  faces_mid_points3d_in_reality ← faces_mid_points points3d_in_reality faces;
  let ordering := face_ordering faces_mid_points3d_in_reality in
  faces ← np_take faces ordering;
  colors ← get_faces_uv_colors self model_name;
  colors ← np_take colors ordering;
  Ok (points2d_on_image,
      combine faces
        (map (fun c => let code := uv_code self c in [fst code; snd code]) colors)).

Definition draw_color_mask (self : ModelsHandler) (img : image)
    (model_name : string) (rotation_matrix : mat3) (center : point3)
  : result image :=
  plan ← draw_plan self model_name rotation_matrix center;
  fill_faces img (fst plan) (snd plan).

End Methods.
End Linemod.

(** * Properties *)

(** ** Arithmetic of the normalisation *)

Lemma Qmod_256_range (q : Q) : (0 <= Qmod q 256 /\ Qmod q 256 < 256)%Q.
Proof.
  unfold Qmod.
  pose proof (Qfloor_le (q / 256)) as Hl.
  pose proof (Qlt_floor (q / 256)) as Hu.
  rewrite inject_Z_plus in Hu.
  assert (Hq : (q == (q / 256) * 256)%Q) by field.
  set (f := inject_Z (Qfloor (q / 256))) in *.
  set (t := (q / 256)%Q) in *.
  change (inject_Z 1) with 1%Q in Hu.
  split; lra.
Qed.

Lemma Qmod_comp (q q' m : Q) : (q == q')%Q -> (Qmod q m == Qmod q' m)%Q.
Proof.
  intros E. unfold Qmod.
  assert (Hf : Qfloor (q / m) = Qfloor (q' / m))
    by (apply Qfloor_comp; rewrite E; reflexivity).
  rewrite Hf, E. reflexivity.
Qed.

Lemma Qtrunc_range (q : Q) (n : Z) :
  0 < n -> (0 <= q)%Q -> (q < inject_Z n)%Q -> 0 <= Qtrunc q < n.
Proof.
  intros Hn H0 Hlt. unfold Qtrunc.
  destruct q as [a d]. unfold Qle, Qlt in *. simpl in *.
  rewrite Z.mul_1_r in H0.
  rewrite Z.mul_1_r in Hlt.
  split.
  - apply Z.quot_pos; lia.
  - apply Z.quot_lt_upper_bound; lia.
Qed.

Lemma Qtrunc_zero (q : Q) : (q == 0)%Q -> Qtrunc q = 0.
Proof.
  intros E. unfold Qtrunc. destruct q as [a d].
  unfold Qeq in E. simpl in E. rewrite Z.mul_1_r in E. subst a.
  reflexivity.
Qed.

(** The value [normalize_to_256] computes for one element. *)
Definition normalized (lo hi xi : Q) : npfloat :=
  np_mod (np_div (256 * (xi - lo)) (hi - lo)) 256.

Lemma normalized_finite (lo hi xi : Q) :
  (lo < hi)%Q ->
  exists q, normalized lo hi xi = Fin q /\ (0 <= q)%Q /\ (q < 256)%Q /\
            (q == Qmod (256 * (xi - lo) / (hi - lo)) 256)%Q.
Proof.
  intros Hlt. unfold normalized, np_div.
  destruct (Qeq_bool (hi - lo) 0) eqn:E.
  - apply Qeq_bool_eq in E. lra.
  - simpl. eexists. split; [reflexivity|].
    pose proof (Qmod_256_range (256 * (xi - lo) / (hi - lo))) as [? ?].
    split; [assumption|]. split; [assumption|]. reflexivity.
Qed.

Lemma normalized_extreme (lo hi xi : Q) :
  (lo < hi)%Q -> (xi == hi \/ xi == lo)%Q ->
  exists q, normalized lo hi xi = Fin q /\ (q == 0)%Q.
Proof.
  intros Hlt Hx.
  destruct (normalized_finite lo hi xi Hlt) as (q & Hq & _ & _ & Hm).
  exists q. split; [assumption|].
  rewrite Hm.
  destruct Hx as [Hx | Hx].
  - rewrite (Qmod_comp _ 256 256).
    + reflexivity.
    + rewrite Hx. field. lra.
  - rewrite (Qmod_comp _ 0 256).
    + reflexivity.
    + rewrite Hx. field. lra.
Qed.

Lemma normalized_degenerate (lo hi xi : Q) :
  (hi == lo)%Q -> (xi == lo)%Q -> normalized lo hi xi = NaN.
Proof.
  intros Hh Hx. unfold normalized, np_div.
  assert (E1 : Qeq_bool (hi - lo) 0 = true) by (apply Qeq_eq_bool; lra).
  assert (E2 : Qeq_bool (256 * (xi - lo)) 0 = true) by (apply Qeq_eq_bool; lra).
  rewrite E1, E2. reflexivity.
Qed.

Lemma normalize_to_256_unfold (x : list Q) (lo hi : Q) :
  amin x = Ok lo -> amax x = Ok hi ->
  Kaggle.normalize_to_256 x = Ok (map (normalized lo hi) x).
Proof.
  intros Hlo Hhi. unfold Kaggle.normalize_to_256.
  rewrite Hlo, Hhi. reflexivity.
Qed.

(** The extremes are elements of the array. *)
Lemma fold_Qmax_In (r : list Q) (a : Q) : In (fold_left Qmax r a) (a :: r).
Proof.
  revert a. induction r as [|b r IH]; intros a; simpl.
  - left; reflexivity.
  - specialize (IH (Qmax a b)). simpl in IH.
    destruct IH as [IH | IH].
    + rewrite <- IH. unfold Qmax, GenericMinMax.gmax.
      destruct (a ?= b)%Q; auto.
    + right; right; assumption.
Qed.

Lemma fold_Qmin_In (r : list Q) (a : Q) : In (fold_left Qmin r a) (a :: r).
Proof.
  revert a. induction r as [|b r IH]; intros a; simpl.
  - left; reflexivity.
  - specialize (IH (Qmin a b)). simpl in IH.
    destruct IH as [IH | IH].
    + rewrite <- IH. unfold Qmin, GenericMinMax.gmin.
      destruct (a ?= b)%Q; auto.
    + right; right; assumption.
Qed.

Lemma amax_In (x : list Q) (hi : Q) : amax x = Ok hi -> In hi x.
Proof.
  destruct x as [|a r]; simpl; intros E; [discriminate|].
  injection E as <-. apply fold_Qmax_In.
Qed.

Lemma amin_In (x : list Q) (lo : Q) : amin x = Ok lo -> In lo x.
Proof.
  destruct x as [|a r]; simpl; intros E; [discriminate|].
  injection E as <-. apply fold_Qmin_In.
Qed.

Lemma fold_Qmax_const (r : list Q) (a c : Q) :
  (a == c)%Q -> (forall xi, In xi r -> (xi == c)%Q) -> (fold_left Qmax r a == c)%Q.
Proof.
  revert a. induction r as [|b r IH]; intros a Ha Hr; simpl; [assumption|].
  apply IH.
  - rewrite Ha, (Hr b) by (left; reflexivity). apply Q.max_id.
  - intros xi Hi. apply Hr. right; assumption.
Qed.

Lemma fold_Qmin_const (r : list Q) (a c : Q) :
  (a == c)%Q -> (forall xi, In xi r -> (xi == c)%Q) -> (fold_left Qmin r a == c)%Q.
Proof.
  revert a. induction r as [|b r IH]; intros a Ha Hr; simpl; [assumption|].
  apply IH.
  - rewrite Ha, (Hr b) by (left; reflexivity). apply Q.min_id.
  - intros xi Hi. apply Hr. right; assumption.
Qed.

Lemma amin_ok (x : list Q) : x <> [] -> exists lo, amin x = Ok lo.
Proof. destruct x; [congruence | eexists; reflexivity]. Qed.

Lemma amax_ok (x : list Q) : x <> [] -> exists hi, amax x = Ok hi.
Proof. destruct x; [congruence | eexists; reflexivity]. Qed.

Lemma amin_const (x : list Q) (c lo : Q) :
  (forall xi, In xi x -> (xi == c)%Q) -> amin x = Ok lo -> (lo == c)%Q.
Proof. intros Hc E. apply Hc. eapply amin_In; eassumption. Qed.

Lemma amax_const (x : list Q) (c hi : Q) :
  (forall xi, In xi x -> (xi == c)%Q) -> amax x = Ok hi -> (hi == c)%Q.
Proof. intros Hc E. apply Hc. eapply amax_In; eassumption. Qed.

Lemma combine_map_same {A B C} (f : A -> B) (g : A -> C) (l : list A) :
  combine (map f l) (map g l) = map (fun a => (f a, g a)) l.
Proof. induction l as [|a l IH]; simpl; [reflexivity | now rewrite IH]. Qed.

(** The rows of [color_points], once the four extremes are known. *)
Lemma color_points_rows `{NumpyMath} (points : list point3) (model_id : Z)
    (hlo hhi rlo rhi : Q) :
  amin (map py points) = Ok hlo -> amax (map py points) = Ok hhi ->
  amin (map (fun p => arctan2 (px p) (pz p)) points) = Ok rlo ->
  amax (map (fun p => arctan2 (px p) (pz p)) points) = Ok rhi ->
  Kaggle.color_points points model_id =
    Ok (map (fun p => (model_id,
                       astype_int (normalized hlo hhi (py p)),
                       astype_int (normalized rlo rhi (arctan2 (px p) (pz p)))))
            points).
Proof.
  intros H1 H2 H3 H4. unfold Kaggle.color_points.
  rewrite (normalize_to_256_unfold _ _ _ H1 H2).
  rewrite (normalize_to_256_unfold _ _ _ H3 H4).
  destruct points as [|p0 points]; [discriminate H1|].
  simpl. rewrite !map_map, combine_map_same, map_map. reflexivity.
Qed.

(** The rows of [color_uv], once the two extremes are known. *)
Lemma color_uv_rows `{NumpyMath} (points : list point3) (lo hi : Q) :
  amin (map py points) = Ok lo -> amax (map py points) = Ok hi ->
  Linemod.color_uv points =
    Ok (map (fun p => (np_div (py p - lo) (hi - lo),
                       np_div (arctan2 (px p) (pz p) + np_pi) (2 * np_pi)))
            points).
Proof.
  intros Hlo Hhi. unfold Linemod.color_uv. rewrite Hhi, Hlo.
  destruct points; [discriminate Hlo | reflexivity].
Qed.

(** ** C10: range and wrap-around of [normalize_to_256] *)

Lemma normalize_to_256_extremes (x : list Q) (lo hi : Q) :
  amin x = Ok lo -> amax x = Ok hi -> (lo < hi)%Q ->
  exists ys,
    Kaggle.normalize_to_256 x = Ok ys /\
    length ys = length x /\
    (forall y, In y ys ->
       exists q, y = Fin q /\ (0 <= q)%Q /\ (q < 256)%Q /\ 0 <= astype_int y < 256) /\
    (forall i xi, nth_error x i = Some xi -> (xi == hi \/ xi == lo)%Q ->
       exists q, nth_error ys i = Some (Fin q) /\ (q == 0)%Q /\
                 astype_int (Fin q) = 0) /\
    (exists i j, i <> j /\ nth_error x i = Some hi /\ nth_error x j = Some lo).
Proof.
  intros Hlo Hhi Hlt.
  exists (map (normalized lo hi) x).
  split; [apply normalize_to_256_unfold; assumption|].
  split; [apply length_map|].
  split; [|split].
  - intros y Hy. apply in_map_iff in Hy as (xi & <- & _).
    destruct (normalized_finite lo hi xi Hlt) as (q & Hq & H0 & H256 & _).
    exists q. rewrite Hq. repeat split; try assumption.
    + apply (Qtrunc_range q 256); [lia | assumption | assumption].
    + apply (Qtrunc_range q 256); [lia | assumption | assumption].
  - intros i xi Hi Hx.
    destruct (normalized_extreme lo hi xi Hlt Hx) as (q & Hq & Hz).
    exists q. split; [|split].
    + rewrite nth_error_map, Hi. simpl. now rewrite Hq.
    + assumption.
    + simpl. now apply Qtrunc_zero.
  - apply amax_In in Hhi. apply amin_In in Hlo.
    apply In_nth_error in Hhi as [i Hi].
    apply In_nth_error in Hlo as [j Hj].
    exists i, j. split; [|split; assumption].
    intros ->. rewrite Hi in Hj. injection Hj as E. subst lo. lra.
Qed.

(** The same at the level of the colour rows: a vertex of greatest height and
    a vertex of least height both get height code 0, and likewise for the
    greatest and least angle. *)
Lemma color_points_extremes `{NumpyMath} (points : list point3) (model_id : Z)
    (hlo hhi rlo rhi : Q) :
  amin (map py points) = Ok hlo -> amax (map py points) = Ok hhi ->
  amin (map (fun p => arctan2 (px p) (pz p)) points) = Ok rlo ->
  amax (map (fun p => arctan2 (px p) (pz p)) points) = Ok rhi ->
  (hlo < hhi)%Q -> (rlo < rhi)%Q ->
  exists colors,
    Kaggle.color_points points model_id = Ok colors /\
    (forall c, In c colors ->
       0 <= snd (fst c) < 256 /\ 0 <= snd c < 256) /\
    (forall i p, nth_error points i = Some p ->
       exists c, nth_error colors i = Some c /\
         ((py p == hhi \/ py p == hlo)%Q -> snd (fst c) = 0) /\
         ((arctan2 (px p) (pz p) == rhi \/ arctan2 (px p) (pz p) == rlo)%Q ->
            snd c = 0)).
Proof.
  intros H1 H2 H3 H4 Hh Hr.
  eexists. split; [apply (color_points_rows _ _ _ _ _ _ H1 H2 H3 H4)|].
  split.
  - intros c Hc. apply in_map_iff in Hc as (p & <- & _). simpl.
    destruct (normalized_finite hlo hhi (py p) Hh) as (q & -> & ? & ? & _).
    destruct (normalized_finite rlo rhi (arctan2 (px p) (pz p)) Hr)
      as (q' & -> & ? & ? & _).
    simpl. split; apply Qtrunc_range; try lia; assumption.
  - intros i p Hi. eexists. split.
    + rewrite nth_error_map, Hi. reflexivity.
    + simpl. split; intros Hx.
      * destruct (normalized_extreme hlo hhi _ Hh Hx) as (q & -> & Hq).
        now apply Qtrunc_zero.
      * destruct (normalized_extreme rlo rhi _ Hr Hx) as (q & -> & Hq).
        now apply Qtrunc_zero.
Qed.

(** C10.  For an array whose maximum exceeds its minimum, [normalize_to_256]
    returns finite values in the half-open range [0, 256); every element equal
    to the maximum is mapped to 0, and so is every element equal to the
    minimum.  The maximum and the minimum are two different elements of the
    array with the same code 0: the encoding is not injective at the boundary.
    In the rows of [color_points] this makes the height code of a highest and
    of a lowest vertex 0, and the angle code of a vertex of greatest and of
    least angle 0, all codes lying in 0 .. 255. *)
Theorem normalize_to_256_wraps_maximum (x : list Q) (lo hi : Q) :
  amin x = Ok lo -> amax x = Ok hi -> (lo < hi)%Q ->
  (exists ys,
     Kaggle.normalize_to_256 x = Ok ys /\
     length ys = length x /\
     (forall y, In y ys ->
        exists q, y = Fin q /\ (0 <= q)%Q /\ (q < 256)%Q /\ 0 <= astype_int y < 256) /\
     (forall i xi, nth_error x i = Some xi -> (xi == hi \/ xi == lo)%Q ->
        exists q, nth_error ys i = Some (Fin q) /\ (q == 0)%Q /\
                  astype_int (Fin q) = 0) /\
     (exists i j, i <> j /\ nth_error x i = Some hi /\ nth_error x j = Some lo)) /\
  (forall (math : NumpyMath) (points : list point3) (model_id : Z) (rlo rhi : Q),
     map py points = x ->
     amin (map (fun p => arctan2 (px p) (pz p)) points) = Ok rlo ->
     amax (map (fun p => arctan2 (px p) (pz p)) points) = Ok rhi ->
     (rlo < rhi)%Q ->
     exists colors,
       Kaggle.color_points points model_id = Ok colors /\
       (forall c, In c colors -> 0 <= snd (fst c) < 256 /\ 0 <= snd c < 256) /\
       (forall i p, nth_error points i = Some p ->
          exists c, nth_error colors i = Some c /\
            ((py p == hi \/ py p == lo)%Q -> snd (fst c) = 0) /\
            ((arctan2 (px p) (pz p) == rhi \/ arctan2 (px p) (pz p) == rlo)%Q ->
               snd c = 0))).
Proof.
  intros Hlo Hhi Hlt. split.
  - apply normalize_to_256_extremes; assumption.
  - intros math points model_id rlo rhi <- Hrlo Hrhi Hr.
    apply color_points_extremes; assumption.
Qed.

Lemma normalize_to_256_wraps_maximum_witness :
  exists ys,
    Kaggle.normalize_to_256 [3; 7; 5]%Q = Ok ys /\
    length ys = 3%nat /\
    (forall y, In y ys ->
       exists q, y = Fin q /\ (0 <= q)%Q /\ (q < 256)%Q /\ 0 <= astype_int y < 256) /\
    (forall i xi, nth_error [3; 7; 5]%Q i = Some xi -> (xi == 7 \/ xi == 3)%Q ->
       exists q, nth_error ys i = Some (Fin q) /\ (q == 0)%Q /\
                 astype_int (Fin q) = 0) /\
    (exists i j, i <> j /\ nth_error [3; 7; 5]%Q i = Some 7%Q /\
                 nth_error [3; 7; 5]%Q j = Some 3%Q).
Proof.
  refine (proj1 (normalize_to_256_wraps_maximum [3; 7; 5]%Q 3 7 _ _ _));
    reflexivity.
Defined.

Example normalize_to_256_example :
  Kaggle.normalize_to_256 [3; 7; 5]%Q = Ok [Fin (0 # 4); Fin (0 # 4); Fin (512 # 4)].
Proof. reflexivity. Qed.

(** ** Concrete library instances, for running the handlers on examples *)

(** A rational pseudo-angle in the place of [np.arctan2]: it grows with the
    angle of [(z, x)] and ranges over [-2, 2]. *)
Definition pseudo_arctan2 (x z : Q) : Q :=
  if Qle_bool 0 z then x / (Qabs x + z)
  else if Qle_bool 0 x then 2 - x / (x - z)
  else - 2 - x / (- x - z).

Definition pseudo_math : NumpyMath :=
  {| arctan2 := pseudo_arctan2; np_pi := 355 # 113 |}.

(** An interpolator that accepts any samples: a grid node carrying a sample
    gets the first such sample's value; any other node is nan under [Linear]
    and gets the first value under [Nearest]. *)
Definition first_match (points : list (Z * Z)) (values : list point3) (i j : nat)
  : option point3 :=
  snd <$> List.find (fun pv => (fst (fst pv) =? Z.of_nat i) && (snd (fst pv) =? Z.of_nat j))
                    (combine points values).

Definition first_match_scipy : Scipy :=
  {| griddata := fun points values R method =>
       Ok (fun i j =>
             match first_match points values i j, method with
             | Some v, _ => Some v
             | None, Linear => None
             | None, Nearest => head values
             end) |}.

(** Two OpenCV stand-ins that answer differently: one reports a pose, with
    the first observation as its only inlier, and its [Rodrigues] returns the
    pair (matrix, jacobian); the other finds no pose. *)
Definition pose_opencv : Cv2Solve :=
  {| solvePnPRansac := fun _ _ _ =>
       Ok (PyBool true,
           PyFloatArray (mk_nd [3; 1]%nat [0; 0; 0]%Q),
           PyFloatArray (mk_nd [3; 1]%nat [0; 0; 1]%Q),
           PyIntArray (mk_nd [1; 1]%nat [0]));
     Rodrigues := fun _ =>
       Ok (PyTuple
             [PyFloatArray (mk_nd [3; 3]%nat [1; 0; 0; 0; 1; 0; 0; 0; 1]%Q);
              PyFloatArray (mk_nd [3; 9]%nat (repeat 0%Q 27))]) |}.

Definition no_pose_opencv : Cv2Solve :=
  {| solvePnPRansac := fun _ _ _ => Ok (PyBool false, PyNone, PyNone, PyNone);
     Rodrigues := fun _ => Err LibraryError |}.

(** A model whose three vertices lie in one horizontal plane. *)
Definition flat_vertices : list point3 := [(1, 1, 0); (0, 1, 1); (-1, 1, 0)]%Q.

Definition flat_kaggle : Kaggle.ModelsHandler :=
  {| Kaggle.raw_models :=
       {[ "flat"%string :=
            {| Kaggle.raw_vertices := [(1, -1, 0); (0, -1, 1); (-1, -1, 0)]%Q;
               Kaggle.raw_faces := [(1, 2, 3)] |} ]};
     Kaggle.car_id2name := {[ 7 := "flat"%string ]} |}.

Definition flat_linemod : Linemod.ModelsHandler :=
  {| Linemod.models := {[ "flat"%string := (flat_vertices, [(0, 1, 2)]) ]};
     Linemod.color_resolution := 255 |}.

(** ** C5: a model of zero height extent *)

Lemma normalize_to_256_degenerate (x : list Q) (c : Q) :
  x <> [] -> (forall xi, In xi x -> (xi == c)%Q) ->
  Kaggle.normalize_to_256 x = Ok (map (fun _ => NaN) x).
Proof.
  intros Hne Hc.
  destruct (amin_ok x Hne) as [lo Hlo].
  destruct (amax_ok x Hne) as [hi Hhi].
  rewrite (normalize_to_256_unfold x lo hi Hlo Hhi). f_equal.
  apply map_ext_in. intros xi Hi.
  pose proof (amin_const x c lo Hc Hlo) as El.
  pose proof (amax_const x c hi Hc Hhi) as Eh.
  apply normalized_degenerate.
  - rewrite El, Eh. reflexivity.
  - rewrite El. apply Hc, Hi.
Qed.

(** Samples that lie on one line of the code plane: they share their first
    coordinate. *)
Definition on_one_line (points : list (Z * Z)) : Prop :=
  forall p q, In p points -> In q points -> fst p = fst q.

Definition on_one_lineb (points : list (Z * Z)) : bool :=
  match points with
  | [] => true
  | p :: rest => forallb (fun q => fst q =? fst p) rest
  end.

(** What SciPy does with such samples.  The linear interpolation of
    [griddata] triangulates the samples with Qhull, and samples that span no
    triangle are refused with QhullError. *)
Definition refuses_samples_on_one_line `{Scipy} : Prop :=
  forall points values R,
    on_one_line points -> griddata points values R Linear = Err LibraryError.

(** An interpolator that refuses samples on one line, and is [first_match]
    on all others. *)
Definition qhull_scipy : Scipy :=
  {| griddata := fun points values R method =>
       match method with
       | Linear =>
           if on_one_lineb points then Err LibraryError
           else Ok (first_match points values)
       | Nearest =>
           Ok (fun i j => match first_match points values i j with
                          | Some v => Some v
                          | None => head values
                          end)
       end |}.

Lemma on_one_lineb_true (points : list (Z * Z)) :
  on_one_line points -> on_one_lineb points = true.
Proof.
  destruct points as [|p rest]; [reflexivity|].
  intros Hl. cbn [on_one_lineb]. apply forallb_forall. intros q Hq.
  apply Z.eqb_eq. apply Hl; [right; exact Hq | left; reflexivity].
Qed.

Lemma qhull_scipy_refuses : @refuses_samples_on_one_line qhull_scipy.
Proof.
  intros points values R Hl. cbn [griddata qhull_scipy].
  now rewrite (on_one_lineb_true points Hl).
Qed.

(** The codec on a model of zero height extent: nothing is raised; every
    height normalises to nan, and every height code is the integer an invalid
    cast yields. *)
Lemma kaggle_codes_of_flat_model `{NumpyMath}
    (vertices : list point3) (model_id : Z) (c : Q) :
  vertices <> [] ->
  (forall p, In p vertices -> (py p == c)%Q) ->
  exists colors,
    Kaggle.color_points vertices model_id = Ok colors /\
    length colors = length vertices /\
    (forall col, In col colors -> snd (fst col) = int64_min).
Proof.
  intros Hne Hc.
  assert (Hne' : map py vertices <> [])
    by (destruct vertices; [congruence | discriminate]).
  assert (Hc' : forall xi, In xi (map py vertices) -> (xi == c)%Q).
  { intros xi Hi. apply in_map_iff in Hi as (p & <- & Hp). now apply Hc. }
  set (angles := map (fun p => arctan2 (px p) (pz p)) vertices).
  assert (Ha : angles <> [])
    by (subst angles; destruct vertices; [congruence | discriminate]).
  destruct (amin_ok _ Hne') as [hlo Hhlo]. destruct (amax_ok _ Hne') as [hhi Hhhi].
  destruct (amin_ok angles Ha) as [rlo Hrlo]. destruct (amax_ok angles Ha) as [rhi Hrhi].
  pose proof (amin_const _ c hlo Hc' Hhlo) as El.
  pose proof (amax_const _ c hhi Hc' Hhhi) as Eh.
  eexists. split; [exact (color_points_rows vertices model_id _ _ _ _ Hhlo Hhhi Hrlo Hrhi)|].
  split; [apply length_map|].
  intros col Hi. apply in_map_iff in Hi as (p & <- & Hp). cbn [fst snd].
  rewrite (normalized_degenerate hlo hhi (py p)); [reflexivity | |].
  - rewrite El, Eh. reflexivity.
  - rewrite El. apply Hc, Hp.
Qed.

Lemma linemod_codes_of_flat_model `{NumpyMath}
    (self : Linemod.ModelsHandler) (vertices : list point3) (c : Q) :
  vertices <> [] ->
  (forall p, In p vertices -> (py p == c)%Q) ->
  exists uv,
    Linemod.color_uv vertices = Ok uv /\
    length uv = length vertices /\
    (forall col, In col uv -> fst col = NaN) /\
    (forall code, In code (map (Linemod.uv_code self) uv) -> fst code = int64_min).
Proof.
  intros Hne Hc.
  assert (Hne' : map py vertices <> [])
    by (destruct vertices; [congruence | discriminate]).
  assert (Hc' : forall xi, In xi (map py vertices) -> (xi == c)%Q).
  { intros xi Hi. apply in_map_iff in Hi as (p & <- & Hp). now apply Hc. }
  destruct (amin_ok _ Hne') as [lo Hlo]. destruct (amax_ok _ Hne') as [hi Hhi].
  pose proof (amin_const _ c lo Hc' Hlo) as El.
  pose proof (amax_const _ c hi Hc' Hhi) as Eh.
  assert (Hcu : Linemod.color_uv vertices =
                Ok (map (fun p => (np_div (py p - lo) (hi - lo),
                                   np_div (arctan2 (px p) (pz p) + np_pi) (2 * np_pi)))
                        vertices)).
  { unfold Linemod.color_uv. rewrite Hhi, Hlo.
    destruct vertices; [congruence | reflexivity]. }
  assert (Hnan : forall p, In p vertices -> np_div (py p - lo) (hi - lo) = NaN).
  { intros p Hp. unfold np_div.
    assert (E1 : Qeq_bool (hi - lo) 0 = true) by (apply Qeq_eq_bool; lra).
    assert (E2 : Qeq_bool (py p - lo) 0 = true).
    { apply Qeq_eq_bool. rewrite (Hc p Hp). lra. }
    now rewrite E1, E2. }
  eexists. split; [exact Hcu|]. split; [apply length_map|]. split.
  - intros col Hi. apply in_map_iff in Hi as (p & <- & Hp). cbn [fst]. now apply Hnan.
  - intros code Hi. rewrite map_map in Hi.
    apply in_map_iff in Hi as (p & <- & Hp).
    unfold Linemod.uv_code. cbn [fst snd]. rewrite (Hnan p Hp). reflexivity.
Qed.

(** C5.  For every model whose vertices all have the same vertical
    coordinate the build of the lookup table raises, in both handlers, and
    returns no table.  The codec itself raises nothing: the heights normalise
    to nan and every height code is the integer an invalid cast yields, so all
    samples lie on one line, and the linear interpolation, which is the first
    step of the build after the codec, refuses them.  The error is the one of
    the interpolator (SciPy's QhullError); the source defines no error of its
    own.  The Kaggle handler builds the table anew in every call of
    [pnp_ransac_single_instance], which therefore raises the same error before
    it looks up any code.  A LineMOD model without vertices raises IndexError
    in the codec. *)
Theorem flat_model_build_raises `{NumpyMath} `{Scipy} `{Cv2Solve}
    (kself : Kaggle.ModelsHandler) (model_id : Z)
    (lself : Linemod.ModelsHandler) (model_name : string)
    (kvertices lvertices : list point3) (triangles : list triangle) (c d : Q) :
  refuses_samples_on_one_line ->
  Kaggle.model_id_to_vertices_and_triangles kself model_id = Ok (kvertices, triangles) ->
  (forall p, In p kvertices -> (py p == c)%Q) ->
  Linemod.get_vertices lself model_name = Ok lvertices ->
  (forall p, In p lvertices -> (py p == d)%Q) ->
  Kaggle.get_color_to_3dpoints_arrays kself model_id = Err LibraryError /\
  (exists colors,
     Kaggle.color_points kvertices model_id = Ok colors /\
     forall col, In col colors -> snd (fst col) = int64_min) /\
  (forall data,
     Kaggle.pnp_ransac_single_instance kself data model_id = Err LibraryError) /\
  Linemod.get_color_to_3dpoints_arrays lself model_name
    = Err (match lvertices with [] => IndexError | _ :: _ => LibraryError end) /\
  (lvertices <> [] ->
   exists uv,
     Linemod.color_uv lvertices = Ok uv /\
     forall col, In col uv -> fst col = NaN).
Proof.
  intros Hq Hk Hc Hl Hd.
  assert (Hkne : kvertices <> []).
  { unfold Kaggle.model_id_to_vertices_and_triangles in Hk.
    destruct (Kaggle.car_id2name kself !! model_id) as [name|]; [|discriminate Hk].
    destruct (Kaggle.raw_models kself !! name) as [data|]; [|discriminate Hk].
    destruct (Kaggle.raw_vertices data); [discriminate Hk|].
    injection Hk as <- _. discriminate. }
  destruct (kaggle_codes_of_flat_model kvertices model_id c Hkne Hc)
    as (colors & Hcp & _ & Hcodes).
  assert (Hbuild : Kaggle.get_color_to_3dpoints_arrays kself model_id
                   = Err LibraryError).
  { unfold Kaggle.get_color_to_3dpoints_arrays. rewrite Hk.
    cbn [mbind result_bind fst snd]. rewrite Hcp. cbn [mbind result_bind].
    unfold interpolate_table. rewrite Hq; [reflexivity|].
    intros p q Hp Hp'.
    apply in_map_iff in Hp as (cp & <- & Hcp1).
    apply in_map_iff in Hp' as (cq & <- & Hcq1).
    cbn [fst]. now rewrite (Hcodes cp Hcp1), (Hcodes cq Hcq1). }
  split; [exact Hbuild|]. split; [|split; [|split]].
  - exists colors. split; assumption.
  - intros data. unfold Kaggle.pnp_ransac_single_instance. now rewrite Hbuild.
  - unfold Linemod.get_color_to_3dpoints_arrays. rewrite Hl.
    cbn [mbind result_bind].
    destruct lvertices as [|v0 vs] eqn:Ev; [reflexivity|]. rewrite <- Ev in *.
    assert (Hlne : lvertices <> []) by (rewrite Ev; discriminate).
    destruct (linemod_codes_of_flat_model lself lvertices d Hlne Hd)
      as (uv & Hcu & _ & _ & Hcodes').
    rewrite Hcu. cbn [mbind result_bind].
    unfold interpolate_table. rewrite Hq; [rewrite Ev; reflexivity|].
    intros p q Hp Hp'. now rewrite (Hcodes' p Hp), (Hcodes' q Hp').
  - intros Hlne.
    destruct (linemod_codes_of_flat_model lself lvertices d Hlne Hd)
      as (uv & Hcu & _ & Hnan & _).
    exists uv. split; assumption.
Qed.

Lemma flat_model_build_raises_witness :
  @Kaggle.get_color_to_3dpoints_arrays pseudo_math qhull_scipy flat_kaggle 7
    = Err LibraryError /\
  @Linemod.get_color_to_3dpoints_arrays pseudo_math qhull_scipy flat_linemod "flat"
    = Err LibraryError.
Proof.
  destruct (@flat_model_build_raises pseudo_math qhull_scipy no_pose_opencv
              flat_kaggle 7 flat_linemod "flat"%string flat_vertices flat_vertices
              [(0, 1, 2)] 1%Q 1%Q qhull_scipy_refuses)
    as (Hk & _ & _ & Hl & _).
  - reflexivity.
  - intros p [<- | [<- | [<- | []]]]; reflexivity.
  - reflexivity.
  - intros p [<- | [<- | [<- | []]]]; reflexivity.
  - split; [exact Hk | exact Hl].
Defined.

(** ** Index arrays *)

Definition valid_index (n : nat) (i : Z) : Prop := - Z.of_nat n <= i < Z.of_nat n.

Definition valid_face (n : nat) (t : triangle) : Prop :=
  valid_index n (tri0 t) /\ valid_index n (tri1 t) /\ valid_index n (tri2 t).

Lemma np_index_valid {A} (l : list A) (i : Z) :
  valid_index (length l) i -> exists a, np_index l i = Ok a.
Proof.
  unfold valid_index, np_index. intros Hi.
  set (j := if i <? 0 then Z.of_nat (length l) + i else i).
  assert (Hj : 0 <= j < Z.of_nat (length l)).
  { subst j. destruct (Z.ltb_spec i 0); lia. }
  destruct (Z.leb_spec 0 j); [|lia].
  destruct (Z.ltb_spec j (Z.of_nat (length l))); [|lia].
  simpl.
  destruct (nth_error l (Z.to_nat j)) eqn:E; [eauto|].
  apply nth_error_None in E. lia.
Qed.

Lemma np_index_nat {A} (d : A) (l : list A) (i : nat) :
  (i < length l)%nat -> np_index l (Z.of_nat i) = Ok (nth i l d).
Proof.
  intros Hi. unfold np_index.
  destruct (Z.ltb_spec (Z.of_nat i) 0); [lia|].
  destruct (Z.leb_spec 0 (Z.of_nat i)); [|lia].
  destruct (Z.ltb_spec (Z.of_nat i) (Z.of_nat (length l))); [|lia].
  simpl. rewrite Nat2Z.id.
  now rewrite (nth_error_nth' l d Hi).
Qed.

Lemma np_take_nat {A} (d : A) (l : list A) (idx : list nat) :
  Forall (fun i => (i < length l)%nat) idx ->
  np_take l (map Z.of_nat idx) = Ok (map (fun i => nth i l d) idx).
Proof.
  induction 1 as [|i idx Hi _ IH]; simpl; [reflexivity|].
  rewrite (np_index_nat d l i Hi). simpl. rewrite IH. reflexivity.
Qed.

Lemma nth_seq_all {A} (d : A) (l : list A) :
  map (fun i => nth i l d) (seq 0 (length l)) = l.
Proof.
  induction l as [|a l IH]; simpl; [reflexivity|].
  f_equal. rewrite <- seq_shift, map_map. exact IH.
Qed.

Lemma StronglySorted_map_in {A B} (R : A -> A -> Prop) (R' : B -> B -> Prop)
    (f : A -> B) (l : list A) :
  (forall a b, In a l -> In b l -> R a b -> R' (f a) (f b)) ->
  StronglySorted R l -> StronglySorted R' (map f l).
Proof.
  intros Hf Hs. induction Hs as [|a l Hs IH Ha]; simpl; constructor.
  - apply IH. intros x y Hx Hy. apply Hf; right; assumption.
  - apply List.Forall_map. rewrite List.Forall_forall in *. intros b Hb.
    apply Hf; [left; reflexivity | right; assumption | apply Ha, Hb].
Qed.

Lemma Forall2_nth_at {A B} (Q : A -> B -> Prop) (d1 : A) (d2 : B) l1 l2 :
  Forall2 Q l1 l2 -> forall i, (i < length l1)%nat -> Q (nth i l1 d1) (nth i l2 d2).
Proof.
  induction 1 as [|a b l1 l2 Hab _ IH]; intros i Hi; simpl in Hi; [lia|].
  destruct i; simpl; [assumption|]. apply IH. lia.
Qed.

Lemma perm_seq_bound (idx : list nat) (n : nat) :
  Permutation idx (seq 0 n) -> Forall (fun i => (i < n)%nat) idx.
Proof.
  intros Hp. apply List.Forall_forall. intros i Hi.
  apply (Permutation_in _ Hp) in Hi. apply in_seq in Hi. lia.
Qed.

(** ** C6: the order in which faces are drawn *)

Lemma mid_point_rows_valid (P : list point3) (ts : list triangle) :
  Forall (valid_face (length P)) ts ->
  exists mid, mid_point_rows P ts = Ok mid /\
              Forall2 (fun t m => face_mid_point P t = Ok m) ts mid.
Proof.
  induction 1 as [|t ts (H0 & H1 & H2) _ (mid & IH & IH2)]; simpl.
  - exists []. split; [reflexivity | constructor].
  - assert (Hm : exists m, face_mid_point P t = Ok m).
    { unfold face_mid_point.
      destruct (np_index_valid P _ H0) as [a ->].
      destruct (np_index_valid P _ H1) as [b ->].
      destruct (np_index_valid P _ H2) as [c ->].
      simpl. eauto. }
    destruct Hm as [m Hm]. rewrite Hm, IH. simpl.
    exists (m :: mid). split; [reflexivity | constructor; assumption].
Qed.

Lemma faces_mid_points_rows (P : list point3) (ts : list triangle) :
  ts <> [] -> faces_mid_points P ts = mid_point_rows P ts.
Proof. destruct ts; [congruence | reflexivity]. Qed.

Lemma faces_mid_points_ok (P : list point3) (ts : list triangle)
    (mid : list point3) :
  faces_mid_points P ts = Ok mid -> ts <> [] /\ mid_point_rows P ts = Ok mid.
Proof. destruct ts; [discriminate | intros Hm; split; [discriminate | exact Hm]]. Qed.

Lemma faces_mid_points_valid (P : list point3) (ts : list triangle) :
  ts <> [] ->
  Forall (valid_face (length P)) ts ->
  exists mid, faces_mid_points P ts = Ok mid /\
              Forall2 (fun t m => face_mid_point P t = Ok m) ts mid.
Proof.
  intros Hne Hv. rewrite (faces_mid_points_rows P ts Hne).
  now apply mid_point_rows_valid.
Qed.

(** Depths of the listed faces, farthest first. *)
Definition drawn_farthest_first (P : list point3) (faces : list triangle) : Prop :=
  exists mids,
    Forall2 (fun t m => face_mid_point P t = Ok m) faces mids /\
    StronglySorted (fun a b => (pz b <= pz a)%Q) mids.

Section Painter.
Context `{NumpySort}.

Lemma face_ordering_take {A} (P : list point3) (ts : list triangle)
    (mid : list point3) (d : A) (extra : list A) :
  Forall2 (fun t m => face_mid_point P t = Ok m) ts mid ->
  length extra = length ts ->
  exists ts' extra',
    np_take ts (face_ordering mid) = Ok ts' /\
    np_take extra (face_ordering mid) = Ok extra' /\
    length extra' = length ts' /\
    Permutation ts' ts /\
    drawn_farthest_first P ts'.
Proof.
  intros Hmid Hlen.
  pose proof (List.Forall2_length Hmid) as Hl.
  set (keys := map (fun m : point3 => (- pz m)%Q) mid).
  pose proof (argsort_perm keys) as Hperm.
  pose proof (argsort_sorted keys) as Hsort.
  assert (Hk : length keys = length ts) by (subst keys; rewrite length_map; lia).
  rewrite Hk in Hperm.
  pose proof (perm_seq_bound _ _ Hperm) as Hb.
  unfold face_ordering. fold keys.
  exists (map (fun i => nth i ts (0, 0, 0)) (argsort keys)),
         (map (fun i => nth i extra d) (argsort keys)).
  split; [apply np_take_nat; exact Hb|].
  split; [apply np_take_nat; rewrite Hlen; exact Hb|].
  split; [now rewrite !length_map|].
  split.
  - etransitivity; [apply Permutation_map; exact Hperm|].
    rewrite nth_seq_all. reflexivity.
  - exists (map (fun i => nth i mid (0, 0, 0)%Q) (argsort keys)). split.
    + clear Hsort Hperm. induction Hb as [|i idx Hi _ IH]; simpl; constructor.
      * apply (Forall2_nth_at _ _ _ _ _ Hmid i Hi).
      * exact IH.
    + eapply StronglySorted_map_in; [|exact Hsort].
      assert (Hnth : forall i, nth i keys 0%Q = (- pz (nth i mid (0, 0, 0)%Q))%Q).
      { intros i. subst keys.
        exact (map_nth (fun m : point3 => (- pz m)%Q) mid (0, 0, 0)%Q i). }
      intros a b _ _ Hab. simpl in Hab. rewrite !Hnth in Hab.
      apply Qopp_le_compat in Hab. rewrite !Qopp_involutive in Hab. exact Hab.
Qed.

Lemma face_ordering_nil : face_ordering [] = [].
Proof.
  unfold face_ordering. simpl.
  now rewrite (Permutation_nil (Permutation_sym (argsort_perm []))).
Qed.

End Painter.

Lemma color_points_ok `{NumpyMath} (points : list point3) (model_id : Z) :
  points <> [] ->
  exists colors, Kaggle.color_points points model_id = Ok colors /\
                 length colors = length points.
Proof.
  intros Hne.
  assert (H1 : map py points <> []) by (destruct points; [congruence | discriminate]).
  assert (H2 : map (fun p => arctan2 (px p) (pz p)) points <> [])
    by (destruct points; [congruence | discriminate]).
  destruct (amin_ok _ H1) as [hlo Hhlo]. destruct (amax_ok _ H1) as [hhi Hhhi].
  destruct (amin_ok _ H2) as [rlo Hrlo]. destruct (amax_ok _ H2) as [rhi Hrhi].
  eexists. split; [apply (color_points_rows _ _ _ _ _ _ Hhlo Hhhi Hrlo Hrhi)|].
  apply length_map.
Qed.

Lemma valid_face_nonempty (n : nat) (ts : list triangle) :
  ts <> [] -> Forall (valid_face n) ts -> n <> O.
Proof.
  intros Hne Hv. destruct Hv as [|t ts (H0 & _) _]; [congruence|].
  unfold valid_index in H0. lia.
Qed.

Lemma map_fst_combine {A B} (l : list A) (l' : list B) :
  length l' = length l -> map fst (combine l l') = l.
Proof.
  revert l'. induction l as [|a l IH]; intros [|b l'] Hl; simpl in *;
    try reflexivity; try discriminate.
  f_equal. apply IH. lia.
Qed.

Lemma np_index_ok_valid {A} (l : list A) (i : Z) (a : A) :
  np_index l i = Ok a -> valid_index (length l) i.
Proof.
  unfold np_index, valid_index.
  set (n := Z.of_nat (length l)).
  destruct (Z.ltb_spec i 0) as [Hi|Hi].
  - destruct (Z.leb_spec 0 (n + i)); destruct (Z.ltb_spec (n + i) n); simpl;
      try discriminate. intros _. lia.
  - destruct (Z.leb_spec 0 i); destruct (Z.ltb_spec i n); simpl;
      try discriminate. intros _. lia.
Qed.

Lemma face_mid_point_ok_valid (P : list point3) (t : triangle) (m : point3) :
  face_mid_point P t = Ok m -> valid_face (length P) t.
Proof.
  unfold face_mid_point. intros Et.
  destruct (np_index P (tri0 t)) eqn:E0; cbn [mbind result_bind] in Et; [|discriminate].
  destruct (np_index P (tri1 t)) eqn:E1; cbn [mbind result_bind] in Et; [|discriminate].
  destruct (np_index P (tri2 t)) eqn:E2; cbn [mbind result_bind] in Et; [|discriminate].
  repeat split; eapply np_index_ok_valid; eassumption.
Qed.

Lemma mid_point_rows_ok_valid (P : list point3) (ts : list triangle)
    (mid : list point3) :
  mid_point_rows P ts = Ok mid -> Forall (valid_face (length P)) ts.
Proof.
  revert mid. induction ts as [|t ts IH]; intros mid Hm; [constructor|].
  simpl in Hm.
  destruct (face_mid_point P t) as [m|] eqn:Et; cbn [mbind result_bind] in Hm;
    [|discriminate].
  destruct (mid_point_rows P ts) as [r|] eqn:Er; cbn [mbind result_bind] in Hm;
    [|discriminate].
  constructor; [|eapply IH; reflexivity].
  eapply face_mid_point_ok_valid; eassumption.
Qed.

Lemma faces_mid_points_ok_valid (P : list point3) (ts : list triangle)
    (mid : list point3) :
  faces_mid_points P ts = Ok mid -> Forall (valid_face (length P)) ts.
Proof.
  intros Hm. apply faces_mid_points_ok in Hm as [_ Hm].
  eapply mid_point_rows_ok_valid; eassumption.
Qed.

(** On a model with at least one face, all of whose face indices are valid,
    [draw_model] lays out the drawing on the projection of the posed
    vertices, farthest face first. *)
Lemma kaggle_draw_plan_on_valid_model `{NumpyMath} `{NumpySort} `{Cv2Draw}
    (self : Kaggle.ModelsHandler) (model_id : Z)
    (vertices : list point3) (triangles : list triangle)
    (translation_vector : point3) (rotation_matrix : mat3) :
  Kaggle.model_id_to_vertices_and_triangles self model_id = Ok (vertices, triangles) ->
  triangles <> [] ->
  Forall (valid_face (length vertices)) triangles ->
  exists faces,
    Kaggle.draw_plan self model_id translation_vector rotation_matrix
      = Ok (projectPoints
              (Kaggle.transform_points vertices rotation_matrix translation_vector)
              Kaggle.camera_matrix,
            faces) /\
    Permutation (map fst faces) triangles /\
    drawn_farthest_first
      (Kaggle.transform_points vertices rotation_matrix translation_vector)
      (map fst faces).
Proof.
  intros Hk Hne Hvalid.
  destruct (faces_mid_points_valid vertices triangles Hne Hvalid) as (mid0 & Hmid0 & Hf0).
  pose proof (List.Forall2_length Hf0) as Hlen0.
  assert (Hmid0ne : mid0 <> []).
  { destruct mid0; [|discriminate]. destruct triangles; [congruence | discriminate]. }
  set (P := Kaggle.transform_points vertices rotation_matrix translation_vector).
  assert (HvP : Forall (valid_face (length P)) triangles)
    by (subst P; unfold Kaggle.transform_points; now rewrite length_map).
  destruct (faces_mid_points_valid P triangles Hne HvP) as (mid & Hmid & Hf).
  destruct (color_points_ok mid0 model_id Hmid0ne) as (colors & Hcol & Hcl).
  destruct (face_ordering_take P triangles mid (0, 0, 0) colors Hf)
    as (ts' & cs' & Ht & Hc & Hlen & Hperm & Hsorted); [lia|].
  exists (combine ts' (map (fun c => [fst (fst c); snd (fst c); snd c]) cs')).
  split.
  - unfold Kaggle.draw_plan. rewrite Hk. cbn [mbind result_bind fst snd].
    fold P. rewrite Hmid. cbn [mbind result_bind].
    rewrite Ht. cbn [mbind result_bind].
    unfold Kaggle.get_model_face_to_color_array, Kaggle.get_model_faces_midpoints.
    rewrite Hk. cbn [mbind result_bind fst snd].
    rewrite Hmid0. cbn [mbind result_bind]. rewrite Hcol. cbn [mbind result_bind].
    rewrite Hc. reflexivity.
  - rewrite map_fst_combine by (now rewrite length_map).
    split; assumption.
Qed.

(** The same for [draw_color_mask]. *)
Lemma linemod_draw_plan_on_valid_model `{NumpyMath} `{NumpySort} `{Cv2Draw}
    (self : Linemod.ModelsHandler) (model_name : string)
    (vertices : list point3) (triangles : list triangle)
    (translation_vector : point3) (rotation_matrix : mat3) :
  Linemod.models self !! model_name = Some (vertices, triangles) ->
  triangles <> [] ->
  Forall (valid_face (length vertices)) triangles ->
  exists faces,
    Linemod.draw_plan self model_name rotation_matrix translation_vector
      = Ok (projectPoints
              (Linemod.transform_points vertices rotation_matrix translation_vector)
              Linemod.camera_matrix,
            faces) /\
    Permutation (map fst faces) triangles /\
    drawn_farthest_first
      (Linemod.transform_points vertices rotation_matrix translation_vector)
      (map fst faces).
Proof.
  intros Hl Hne Hvalid.
  destruct (faces_mid_points_valid vertices triangles Hne Hvalid) as (mid0 & Hmid0 & Hf0).
  pose proof (List.Forall2_length Hf0) as Hlen0.
  set (P := Linemod.transform_points vertices rotation_matrix translation_vector).
  assert (HvP : Forall (valid_face (length P)) triangles)
    by (subst P; unfold Linemod.transform_points; now rewrite length_map).
  destruct (faces_mid_points_valid P triangles Hne HvP) as (mid & Hmid & Hf).
  assert (Hvne : vertices <> []).
  { pose proof (valid_face_nonempty _ _ Hne Hvalid).
    destruct vertices; [simpl in *; congruence | discriminate]. }
  assert (Hpne : map py vertices <> [])
    by (destruct vertices; [congruence | discriminate]).
  destruct (amax_ok _ Hpne) as [hi Hhi]. destruct (amin_ok _ Hpne) as [lo Hlo].
  set (uv := map (fun p => (np_div (py p - lo) (hi - lo),
                            np_div (arctan2 (px p) (pz p) + np_pi) (2 * np_pi)))
                 mid0).
  destruct (face_ordering_take P triangles mid (NaN, NaN) uv Hf)
    as (ts' & cs' & Ht & Hc & Hlen & Hperm & Hsorted);
    [subst uv; rewrite length_map; lia|].
  exists (combine ts'
            (map (fun c => let code := Linemod.uv_code self c in
                           [fst code; snd code]) cs')).
  split.
  - unfold Linemod.draw_plan, Linemod.get_vertices, Linemod.get_faces.
    rewrite Hl. cbn [mbind result_bind fst snd].
    assert (Etv : Linemod.transform_vertices vertices rotation_matrix translation_vector
                  = Ok P) by (destruct vertices; [congruence | reflexivity]).
    rewrite Etv. cbn [mbind result_bind].
    rewrite Hmid. cbn [mbind result_bind]. rewrite Ht. cbn [mbind result_bind].
    unfold Linemod.get_faces_uv_colors, Linemod.get_faces_midpoints,
      Linemod.get_vertices, Linemod.get_faces.
    rewrite Hl. cbn [mbind result_bind fst snd].
    rewrite Hmid0. cbn [mbind result_bind]. rewrite Hhi, Hlo. cbn [mbind result_bind].
    fold uv. rewrite Hc. reflexivity.
  - rewrite map_fst_combine by (now rewrite length_map).
    split; assumption.
Qed.

(** A drawing is laid out only for a model with a face and valid indices. *)
Lemma kaggle_draw_plan_ok_valid `{NumpyMath} `{NumpySort} `{Cv2Draw}
    (self : Kaggle.ModelsHandler) (model_id : Z)
    (vertices : list point3) (triangles : list triangle)
    (translation_vector : point3) (rotation_matrix : mat3)
    (plan : list (Q * Q) * list (triangle * list Z)) :
  Kaggle.model_id_to_vertices_and_triangles self model_id = Ok (vertices, triangles) ->
  Kaggle.draw_plan self model_id translation_vector rotation_matrix = Ok plan ->
  triangles <> [] /\ Forall (valid_face (length vertices)) triangles.
Proof.
  intros Hk Hplan.
  unfold Kaggle.draw_plan in Hplan. rewrite Hk in Hplan.
  cbn [mbind result_bind fst snd] in Hplan.
  destruct (faces_mid_points _ triangles) as [mid|] eqn:Em;
    cbn [mbind result_bind] in Hplan; [|discriminate].
  split; [exact (proj1 (faces_mid_points_ok _ _ _ Em))|].
  apply faces_mid_points_ok_valid in Em.
  unfold Kaggle.transform_points in Em. now rewrite length_map in Em.
Qed.

Lemma linemod_draw_plan_ok_valid `{NumpyMath} `{NumpySort} `{Cv2Draw}
    (self : Linemod.ModelsHandler) (model_name : string)
    (vertices : list point3) (triangles : list triangle)
    (translation_vector : point3) (rotation_matrix : mat3)
    (plan : list (Q * Q) * list (triangle * list Z)) :
  Linemod.models self !! model_name = Some (vertices, triangles) ->
  Linemod.draw_plan self model_name rotation_matrix translation_vector = Ok plan ->
  triangles <> [] /\ Forall (valid_face (length vertices)) triangles.
Proof.
  intros Hl Hplan.
  unfold Linemod.draw_plan, Linemod.get_vertices, Linemod.get_faces in Hplan.
  rewrite Hl in Hplan. cbn [mbind result_bind fst snd] in Hplan.
  destruct vertices as [|v0 vs] eqn:Ev; [discriminate Hplan|]. rewrite <- Ev in *.
  assert (Etv : Linemod.transform_vertices vertices rotation_matrix translation_vector
                = Ok (Linemod.transform_points vertices rotation_matrix
                        translation_vector)) by (rewrite Ev; reflexivity).
  rewrite Etv in Hplan. cbn [mbind result_bind] in Hplan.
  destruct (faces_mid_points _ triangles) as [mid|] eqn:Em;
    cbn [mbind result_bind] in Hplan; [|discriminate].
  split; [exact (proj1 (faces_mid_points_ok _ _ _ Em))|].
  apply faces_mid_points_ok_valid in Em.
  unfold Linemod.transform_points in Em. now rewrite length_map in Em.
Qed.

(** Both renderers at once, on one model. *)
Lemma draw_plans_on_valid_model `{NumpyMath} `{NumpySort} `{Cv2Draw}
    (kself : Kaggle.ModelsHandler) (model_id : Z)
    (lself : Linemod.ModelsHandler) (model_name : string)
    (vertices : list point3) (triangles : list triangle)
    (translation_vector : point3) (rotation_matrix : mat3) (img : image) :
  Kaggle.model_id_to_vertices_and_triangles kself model_id = Ok (vertices, triangles) ->
  Linemod.models lself !! model_name = Some (vertices, triangles) ->
  triangles <> [] ->
  Forall (valid_face (length vertices)) triangles ->
  (exists pts2d faces,
     Kaggle.draw_plan kself model_id translation_vector rotation_matrix
       = Ok (pts2d, faces) /\
     Kaggle.draw_model kself img model_id translation_vector rotation_matrix
       = fill_faces img pts2d faces /\
     Permutation (map fst faces) triangles /\
     drawn_farthest_first
       (Kaggle.transform_points vertices rotation_matrix translation_vector)
       (map fst faces)) /\
  (exists pts2d faces,
     Linemod.draw_plan lself model_name rotation_matrix translation_vector
       = Ok (pts2d, faces) /\
     Linemod.draw_color_mask lself img model_name rotation_matrix translation_vector
       = fill_faces img pts2d faces /\
     Permutation (map fst faces) triangles /\
     drawn_farthest_first
       (Linemod.transform_points vertices rotation_matrix translation_vector)
       (map fst faces)).
Proof.
  intros Hk Hl Hne Hvalid. split.
  - destruct (kaggle_draw_plan_on_valid_model kself model_id vertices triangles
                translation_vector rotation_matrix Hk Hne Hvalid)
      as (faces & Hplan & Hperm & Hsorted).
    eexists _, faces. split; [exact Hplan|].
    split; [unfold Kaggle.draw_model; rewrite Hplan; reflexivity|].
    split; assumption.
  - destruct (linemod_draw_plan_on_valid_model lself model_name vertices triangles
                translation_vector rotation_matrix Hl Hne Hvalid)
      as (faces & Hplan & Hperm & Hsorted).
    eexists _, faces. split; [exact Hplan|].
    split; [unfold Linemod.draw_color_mask; rewrite Hplan; reflexivity|].
    split; assumption.
Qed.

(** *** The drawing, in terms of the camera geometry and the fills alone *)

(** A model point in camera space.  Kaggle: [p @ R + t]. *)
Definition kaggle_camera_point (R : mat3) (t p : point3) : point3 :=
  ((px (row0 R) * px p + px (row1 R) * py p + px (row2 R) * pz p + px t)%Q,
   (py (row0 R) * px p + py (row1 R) * py p + py (row2 R) * pz p + py t)%Q,
   (pz (row0 R) * px p + pz (row1 R) * py p + pz (row2 R) * pz p + pz t)%Q).

(** LineMOD: [R p + t], with the second and third axis reversed. *)
Definition linemod_camera_point (R : mat3) (t p : point3) : point3 :=
  ((px (row0 R) * px p + py (row0 R) * py p + pz (row0 R) * pz p + px t)%Q,
   (- (px (row1 R) * px p + py (row1 R) * py p + pz (row1 R) * pz p + py t))%Q,
   (- (px (row2 R) * px p + py (row2 R) * py p + pz (row2 R) * pz p + pz t))%Q).

(** The element a vertex index of a face denotes: counted from the start of
    the array, or from its end when the index is negative. *)
Definition element_at {A} (l : list A) (i : Z) (a : A) : Prop :=
  (0 <= i /\ nth_error l (Z.to_nat i) = Some a) \/
  (i < 0 /\ 0 <= Z.of_nat (length l) + i /\
   nth_error l (Z.to_nat (Z.of_nat (length l) + i)) = Some a).

(** The camera-space depth of the mid-point of a face: the mean of the third
    coordinates of its three corners. *)
Definition depth_of_face (cam : list point3) (t : triangle) (d : Q) : Prop :=
  exists a b c,
    element_at cam (tri0 t) a /\ element_at cam (tri1 t) b /\
    element_at cam (tri2 t) c /\
    d = ((pz a + pz b + pz c) / 3)%Q.

(** The depths of the listed faces never increase. *)
Definition farthest_first (cam : list point3) (faces : list triangle) : Prop :=
  exists depths,
    Forall2 (depth_of_face cam) faces depths /\
    StronglySorted (fun d e => (e <= d)%Q) depths.

(** The polygon of a face on the raster: the integer parts of its three
    projected corners. *)
Definition corner_pixels (pts2d : list (Q * Q)) (t : triangle)
    (poly : list (Z * Z)) : Prop :=
  exists a b c,
    element_at pts2d (tri0 t) a /\ element_at pts2d (tri1 t) b /\
    element_at pts2d (tri2 t) c /\
    poly = [(Qtrunc (fst a), Qtrunc (snd a));
            (Qtrunc (fst b), Qtrunc (snd b));
            (Qtrunc (fst c), Qtrunc (snd c))].

(** [img'] is [img] after one [fillConvexPoly] per listed face, in the order
    of the list, each on the polygon of the face and with its colour. *)
Definition painted `{Cv2Draw} (pts2d : list (Q * Q)) (img : image)
    (drawn : list (triangle * list Z)) (img' : image) : Prop :=
  exists polys,
    Forall2 (fun f poly => corner_pixels pts2d (fst f) poly) drawn polys /\
    img' = fold_left (fun im pc => fillConvexPoly im (fst pc) (snd pc))
                     (combine polys (map snd drawn)) img.

Lemma kaggle_transform_points_camera (vertices : list point3) (R : mat3) (t : point3) :
  Kaggle.transform_points vertices R t = map (kaggle_camera_point R t) vertices.
Proof. reflexivity. Qed.

Lemma linemod_transform_points_camera (vertices : list point3) (R : mat3) (t : point3) :
  Linemod.transform_points vertices R t = map (linemod_camera_point R t) vertices.
Proof. reflexivity. Qed.

Lemma np_index_element_at {A} (l : list A) (i : Z) (a : A) :
  np_index l i = Ok a -> element_at l i a.
Proof.
  unfold np_index, element_at.
  destruct (Z.ltb_spec i 0) as [Hi|Hi].
  - destruct (Z.leb_spec 0 (Z.of_nat (length l) + i)) as [Hj|Hj]; [|discriminate].
    destruct (_ <? _); cbn [andb]; [|discriminate].
    destruct (nth_error l _) as [x|] eqn:E; [|discriminate].
    intros E'. injection E' as <-. right.
    split; [exact Hi|]. split; [exact Hj | first [exact E | reflexivity]].
  - destruct ((0 <=? i) && _); [|discriminate].
    destruct (nth_error l _) as [x|] eqn:E; [|discriminate].
    intros E'. injection E' as <-. left.
    split; [exact Hi | first [exact E | reflexivity]].
Qed.

Lemma face_mid_point_depth (cam : list point3) (t : triangle) (m : point3) :
  face_mid_point cam t = Ok m -> depth_of_face cam t (pz m).
Proof.
  unfold face_mid_point. intros Et.
  destruct (np_index cam (tri0 t)) as [a|] eqn:E0; cbn [mbind result_bind] in Et;
    [|discriminate].
  destruct (np_index cam (tri1 t)) as [b|] eqn:E1; cbn [mbind result_bind] in Et;
    [|discriminate].
  destruct (np_index cam (tri2 t)) as [c|] eqn:E2; cbn [mbind result_bind] in Et;
    [|discriminate].
  injection Et as <-. exists a, b, c.
  repeat split; first [now apply np_index_element_at | reflexivity].
Qed.

Lemma drawn_farthest_first_depths (cam : list point3) (faces : list triangle) :
  drawn_farthest_first cam faces -> farthest_first cam faces.
Proof.
  intros (mids & Hm & Hs). exists (map pz mids). split.
  - clear Hs. induction Hm as [|t m ts ms Htm _ IH]; simpl; constructor.
    + now apply face_mid_point_depth.
    + exact IH.
  - eapply StronglySorted_map_in; [|exact Hs]. intros a b _ _ Hab. exact Hab.
Qed.

Lemma fill_faces_painted `{Cv2Draw} (pts2d : list (Q * Q))
    (faces : list (triangle * list Z)) (img img' : image) :
  fill_faces img pts2d faces = Ok img' -> painted pts2d img faces img'.
Proof.
  revert img. induction faces as [|[t c] rest IH]; intros img Hf.
  - injection Hf as <-. exists []. split; [constructor | reflexivity].
  - cbn [fill_faces] in Hf. unfold face_coords in Hf.
    destruct (np_index pts2d (tri0 t)) as [a|] eqn:E0; cbn [mbind result_bind] in Hf;
      [|discriminate].
    destruct (np_index pts2d (tri1 t)) as [b|] eqn:E1; cbn [mbind result_bind] in Hf;
      [|discriminate].
    destruct (np_index pts2d (tri2 t)) as [c'|] eqn:E2; cbn [mbind result_bind] in Hf;
      [|discriminate].
    destruct (IH _ Hf) as (polys & Hp & ->).
    exists ([pixel_of a; pixel_of b; pixel_of c'] :: polys). split.
    + constructor; [|exact Hp]. exists a, b, c'.
      repeat split; first [now apply np_index_element_at | reflexivity].
    + reflexivity.
Qed.

Lemma fill_faces_returns `{Cv2Draw} (pts2d : list (Q * Q))
    (faces : list (triangle * list Z)) (img : image) :
  Forall (valid_face (length pts2d)) (map fst faces) ->
  exists img', fill_faces img pts2d faces = Ok img'.
Proof.
  revert img. induction faces as [|[t c] rest IH]; intros img Hv.
  - eexists. reflexivity.
  - inversion Hv as [|t' ts' (H0 & H1 & H2) Hv']; subst.
    cbn [fill_faces]. unfold face_coords.
    destruct (np_index_valid pts2d _ H0) as [a ->].
    destruct (np_index_valid pts2d _ H1) as [b ->].
    destruct (np_index_valid pts2d _ H2) as [c' ->].
    cbn [mbind result_bind]. apply IH. exact Hv'.
Qed.

(** C6.  For every model, pose and raster on which a renderer returns, the
    raster it returns is the given raster after one polygon fill per face of
    the model, each on the integer pixel positions of the three projected
    corners of the face, the faces taken in an order in which the camera-space
    depth of their mid-points never increases: the farthest face is painted
    first and the nearest last.  The camera-space position of a vertex is
    [p @ R + t] in [draw_model]; in [draw_color_mask] it is [R p + t] with the
    second and third coordinate negated.  Both renderers return on every
    model that has a face and only valid vertex indices in its faces, when
    the projection returns one image point per vertex. *)
Theorem faces_drawn_farthest_first `{NumpyMath} `{NumpySort} `{Cv2Draw}
    (kself : Kaggle.ModelsHandler) (model_id : Z)
    (lself : Linemod.ModelsHandler) (model_name : string)
    (kvertices lvertices : list point3) (ktriangles ltriangles : list triangle)
    (translation_vector : point3) (rotation_matrix : mat3) (img : image) :
  Kaggle.model_id_to_vertices_and_triangles kself model_id
    = Ok (kvertices, ktriangles) ->
  Linemod.models lself !! model_name = Some (lvertices, ltriangles) ->
  (forall img',
     Kaggle.draw_model kself img model_id translation_vector rotation_matrix = Ok img' ->
     exists drawn,
       Permutation (map fst drawn) ktriangles /\
       farthest_first
         (map (kaggle_camera_point rotation_matrix translation_vector) kvertices)
         (map fst drawn) /\
       painted
         (projectPoints
            (map (kaggle_camera_point rotation_matrix translation_vector) kvertices)
            Kaggle.camera_matrix)
         img drawn img') /\
  (forall img',
     Linemod.draw_color_mask lself img model_name rotation_matrix translation_vector
       = Ok img' ->
     exists drawn,
       Permutation (map fst drawn) ltriangles /\
       farthest_first
         (map (linemod_camera_point rotation_matrix translation_vector) lvertices)
         (map fst drawn) /\
       painted
         (projectPoints
            (map (linemod_camera_point rotation_matrix translation_vector) lvertices)
            Linemod.camera_matrix)
         img drawn img') /\
  ((forall pts K, length (projectPoints pts K) = length pts) ->
   (ktriangles <> [] -> Forall (valid_face (length kvertices)) ktriangles ->
    exists img',
      Kaggle.draw_model kself img model_id translation_vector rotation_matrix
        = Ok img') /\
   (ltriangles <> [] -> Forall (valid_face (length lvertices)) ltriangles ->
    exists img',
      Linemod.draw_color_mask lself img model_name rotation_matrix translation_vector
        = Ok img')).
Proof.
  intros Hk Hl. split; [|split].
  - intros img' Hd. unfold Kaggle.draw_model in Hd.
    destruct (Kaggle.draw_plan kself model_id translation_vector rotation_matrix)
      as [plan|] eqn:Hplan; cbn [mbind result_bind] in Hd; [|discriminate].
    destruct (kaggle_draw_plan_ok_valid _ _ _ _ _ _ _ Hk Hplan) as [Hne Hvalid].
    destruct (kaggle_draw_plan_on_valid_model kself model_id kvertices ktriangles
                translation_vector rotation_matrix Hk Hne Hvalid)
      as (faces & E & Hperm & Hsorted).
    rewrite Hplan in E. injection E as ->. cbn [fst snd] in Hd.
    exists faces. split; [exact Hperm|].
    rewrite <- kaggle_transform_points_camera.
    split; [now apply drawn_farthest_first_depths|].
    now apply fill_faces_painted.
  - intros img' Hd. unfold Linemod.draw_color_mask in Hd.
    destruct (Linemod.draw_plan lself model_name rotation_matrix translation_vector)
      as [plan|] eqn:Hplan; cbn [mbind result_bind] in Hd; [|discriminate].
    destruct (linemod_draw_plan_ok_valid _ _ _ _ _ _ _ Hl Hplan) as [Hne Hvalid].
    destruct (linemod_draw_plan_on_valid_model lself model_name lvertices ltriangles
                translation_vector rotation_matrix Hl Hne Hvalid)
      as (faces & E & Hperm & Hsorted).
    rewrite Hplan in E. injection E as ->. cbn [fst snd] in Hd.
    exists faces. split; [exact Hperm|].
    rewrite <- linemod_transform_points_camera.
    split; [now apply drawn_farthest_first_depths|].
    now apply fill_faces_painted.
  - intros Hproj. split.
    + intros Hne Hvalid.
      destruct (kaggle_draw_plan_on_valid_model kself model_id kvertices ktriangles
                  translation_vector rotation_matrix Hk Hne Hvalid)
        as (faces & E & Hperm & _).
      unfold Kaggle.draw_model. rewrite E. cbn [mbind result_bind fst snd].
      apply fill_faces_returns.
      rewrite Hproj. unfold Kaggle.transform_points. rewrite length_map.
      eapply Permutation_Forall; [symmetry; exact Hperm | exact Hvalid].
    + intros Hne Hvalid.
      destruct (linemod_draw_plan_on_valid_model lself model_name lvertices ltriangles
                  translation_vector rotation_matrix Hl Hne Hvalid)
        as (faces & E & Hperm & _).
      unfold Linemod.draw_color_mask. rewrite E. cbn [mbind result_bind fst snd].
      apply fill_faces_returns.
      rewrite Hproj. unfold Linemod.transform_points. rewrite length_map.
      eapply Permutation_Forall; [symmetry; exact Hperm | exact Hvalid].
Qed.

(** *** An [argsort] that meets the contract: stable insertion sort *)

Fixpoint insert_by (key : nat -> Q) (i : nat) (l : list nat) : list nat :=
  match l with
  | [] => [i]
  | j :: r => if Qle_bool (key i) (key j) then i :: j :: r
              else j :: insert_by key i r
  end.

Definition insertion_argsort (keys : list Q) : list nat :=
  fold_right (insert_by (fun i => nth i keys 0%Q)) [] (seq 0 (length keys)).

Lemma insert_by_perm (key : nat -> Q) (i : nat) (l : list nat) :
  Permutation (insert_by key i l) (i :: l).
Proof.
  induction l as [|j r IH]; simpl; [reflexivity|].
  destruct (Qle_bool (key i) (key j)); [reflexivity|].
  rewrite IH. apply perm_swap.
Qed.

Lemma insert_by_sorted (key : nat -> Q) (i : nat) (l : list nat) :
  StronglySorted (fun a b => (key a <= key b)%Q) l ->
  StronglySorted (fun a b => (key a <= key b)%Q) (insert_by key i l).
Proof.
  induction 1 as [|j r Hs IH Hj]; simpl.
  - constructor; constructor.
  - destruct (Qle_bool (key i) (key j)) eqn:E.
    + apply Qle_bool_iff in E.
      constructor; [constructor; assumption|].
      constructor; [assumption|].
      eapply List.Forall_impl; [|exact Hj].
      intros b Hb. simpl in Hb. eapply Qle_trans; eassumption.
    + assert (Hji : (key j <= key i)%Q).
      { apply Qlt_le_weak, Qnot_le_lt. intros Hle.
        apply Qle_bool_iff in Hle. congruence. }
      constructor; [exact IH|].
      eapply Permutation_Forall; [symmetry; apply insert_by_perm|].
      constructor; assumption.
Qed.

Lemma insertion_argsort_perm (keys : list Q) :
  Permutation (insertion_argsort keys) (seq 0 (length keys)).
Proof.
  unfold insertion_argsort. induction (seq 0 (length keys)) as [|i l IH]; simpl.
  - reflexivity.
  - rewrite insert_by_perm. now apply perm_skip.
Qed.

Lemma insertion_argsort_sorted (keys : list Q) :
  StronglySorted (fun i j => (nth i keys 0 <= nth j keys 0)%Q) (insertion_argsort keys).
Proof.
  unfold insertion_argsort. induction (seq 0 (length keys)) as [|i l IH]; simpl.
  - constructor.
  - apply (insert_by_sorted (fun i => nth i keys 0%Q)). exact IH.
Qed.

Definition insertion_sort : NumpySort :=
  {| argsort := insertion_argsort;
     argsort_perm := insertion_argsort_perm;
     argsort_sorted := insertion_argsort_sorted |}.

(** *** A drawing back end that records the fills *)

Definition pinhole (K : mat3) (p : point3) : Q * Q :=
  ((px (row0 K) * px p / pz p + pz (row0 K))%Q,
   (py (row1 K) * py p / pz p + pz (row1 K))%Q).

Definition recording_draw : Cv2Draw :=
  {| image := list (list (Z * Z) * list Z);
     projectPoints := fun pts K => map (pinhole K) pts;
     fillConvexPoly := fun img coord c => img ++ [(coord, c)] |}.

(** A wedge: two faces sharing an edge, one nearer to the camera. *)
Definition wedge_vertices : list point3 :=
  [(0, 0, 5); (1, 0, 5); (0, 1, 5); (1, 1, 9)]%Q.

Definition wedge_triangles : list triangle := [(0, 1, 2); (1, 2, 3)].

Definition wedge_kaggle : Kaggle.ModelsHandler :=
  {| Kaggle.raw_models :=
       {[ "wedge"%string :=
            {| Kaggle.raw_vertices := [(0, 0, 5); (1, 0, 5); (0, -1, 5); (1, -1, 9)]%Q;
               Kaggle.raw_faces := [(1, 2, 3); (2, 3, 4)] |} ]};
     Kaggle.car_id2name := {[ 3 := "wedge"%string ]} |}.

Definition wedge_linemod : Linemod.ModelsHandler :=
  {| Linemod.models := {[ "wedge"%string := (wedge_vertices, wedge_triangles) ]};
     Linemod.color_resolution := 255 |}.

Definition identity_rotation : mat3 := ((1, 0, 0), (0, 1, 0), (0, 0, 1))%Q.

Lemma faces_drawn_farthest_first_witness :
  (exists img',
     @Kaggle.draw_model pseudo_math insertion_sort recording_draw
        wedge_kaggle [] 3 (0, 0, 0)%Q identity_rotation = Ok img') /\
  (exists img',
     @Linemod.draw_color_mask pseudo_math insertion_sort recording_draw
        wedge_linemod [] "wedge"%string identity_rotation (0, 0, 0)%Q = Ok img').
Proof.
  destruct (@faces_drawn_farthest_first pseudo_math insertion_sort recording_draw
              wedge_kaggle 3 wedge_linemod "wedge"%string
              wedge_vertices wedge_vertices wedge_triangles wedge_triangles
              (0, 0, 0)%Q identity_rotation [])
    as (_ & _ & Hret).
  - reflexivity.
  - reflexivity.
  - assert (Hv : Forall (valid_face (length wedge_vertices)) wedge_triangles).
    { repeat first [apply List.Forall_nil | apply List.Forall_cons];
        vm_compute; repeat split; first [reflexivity | discriminate]. }
    destruct Hret as [Hkr Hlr].
    + intros pts K. apply length_map.
    + split; [apply Hkr | apply Hlr]; first [discriminate | exact Hv].
Defined.

(** The wedge under the identity pose, on a raster that records the fills:
    [draw_model] fills the far face [(1, 2, 3)] first, then the near one. *)
Example wedge_draw_order :
  @Kaggle.draw_model pseudo_math insertion_sort recording_draw
     wedge_kaggle [] 3 (0, 0, 0)%Q identity_rotation
  = Ok [([(2147, 1354); (1686, 1816); (1942, 1611)], [3; 0; 0]);
        ([(1686, 1354); (2147, 1354); (1686, 1816)], [3; 0; 0])].
Proof. vm_compute. reflexivity. Qed.

(** ** C4: a vertex, its code, and the table entry at that code *)

Definition close_to (eps : Q) (p v : point3) : Prop :=
  (Qabs (px p - px v) <= eps)%Q /\
  (Qabs (py p - py v) <= eps)%Q /\
  (Qabs (pz p - pz v) <= eps)%Q.

(** Every vertex is found again, within [eps], at its own colour row. *)
Definition round_trip_within (eps : Q) (tbl : lookup_table)
    (vertices : list point3) (colors : list (Z * Z * Z)) : Prop :=
  Forall2 (fun v c => exists p,
             table_get tbl (snd (fst c)) (snd c) = Ok (Some p) /\ close_to eps p v)
          vertices colors.

(** A pillar: its top and its bottom vertex lie at the same azimuth. *)
Definition pillar_vertices : list point3 :=
  [(0, 1, 1); (0, -1, 1); (1, 0, 0); (-1, 0, 0)]%Q.

Definition pillar_kaggle : Kaggle.ModelsHandler :=
  {| Kaggle.raw_models :=
       {[ "pillar"%string :=
            {| Kaggle.raw_vertices := [(0, -1, 1); (0, 1, 1); (1, 0, 0); (-1, 0, 0)]%Q;
               Kaggle.raw_faces := [(1, 3, 2); (1, 2, 4)] |} ]};
     Kaggle.car_id2name := {[ 9 := "pillar"%string ]} |}.

Lemma pillar_lookup :
  Kaggle.model_id_to_vertices_and_triangles pillar_kaggle 9
  = Ok (pillar_vertices, [(0, 2, 1); (0, 1, 3)]).
Proof. reflexivity. Qed.

(** The top and the bottom of the pillar get one and the same colour row,
    whatever [arctan2] is. *)
Lemma pillar_codes_collide `{NumpyMath} (colors : list (Z * Z * Z)) :
  Kaggle.color_points pillar_vertices 9 = Ok colors ->
  exists c rest, colors = c :: c :: rest.
Proof.
  intros Hc.
  set (angles := map (fun p => arctan2 (px p) (pz p)) pillar_vertices).
  assert (Ha : angles <> []) by discriminate.
  destruct (amin_ok angles Ha) as [rlo Hrlo].
  destruct (amax_ok angles Ha) as [rhi Hrhi].
  rewrite (color_points_rows pillar_vertices 9 (-1) 1 rlo rhi) in Hc;
    [| reflexivity | reflexivity | exact Hrlo | exact Hrhi].
  injection Hc as <-. simpl. eexists _, _. reflexivity.
Qed.

(** No table serves both: the round trip fails on the pillar for every
    tolerance below half its height, for every [arctan2] and every
    interpolator. *)
Lemma pillar_round_trip_fails :
  ~ exists (math : NumpyMath) (scipy : Scipy) (eps : Q)
           (tbl : lookup_table) (colors : list (Z * Z * Z)),
      (eps < 1)%Q /\
      Kaggle.get_color_to_3dpoints_arrays pillar_kaggle 9 = Ok tbl /\
      Kaggle.color_points pillar_vertices 9 = Ok colors /\
      round_trip_within eps tbl pillar_vertices colors.
Proof.
  intros (math & scipy & eps & tbl & colors & Heps & _ & Hc & Hrt).
  destruct (pillar_codes_collide colors Hc) as (c & rest & ->).
  unfold round_trip_within, pillar_vertices in Hrt.
  inversion Hrt as [|v0 c0 vs cs (p0 & Hp0 & _ & Hy0 & _) Hrt']; subst.
  inversion Hrt' as [|v1 c1 vs' cs' (p1 & Hp1 & _ & Hy1 & _) _]; subst.
  rewrite Hp0 in Hp1. injection Hp1 as <-.
  cbn [py fst snd] in Hy0, Hy1.
  apply Qabs_Qle_condition in Hy0. apply Qabs_Qle_condition in Hy1.
  lra.
Qed.

(** An interpolation result returns, at a grid node that carries samples of
    one single value, that value. *)
Definition reproduces_samples (g : nat -> nat -> option point3)
    (points : list (Z * Z)) (values : list point3) (R : nat) : Prop :=
  forall k c v,
    nth_error points k = Some c -> nth_error values k = Some v ->
    (forall k' v', nth_error points k' = Some c -> nth_error values k' = Some v' -> v' = v) ->
    0 <= fst c < Z.of_nat R -> 0 <= snd c < Z.of_nat R ->
    g (Z.to_nat (fst c)) (Z.to_nat (snd c)) = Some v.

Lemma norm_index_in_range (n : nat) (i : Z) :
  0 <= i < Z.of_nat n -> norm_index n i = Ok (Z.to_nat i).
Proof.
  intros Hi. unfold norm_index.
  destruct (Z.ltb_spec i 0); [lia|].
  destruct (Z.leb_spec 0 i); [|lia].
  destruct (Z.ltb_spec i (Z.of_nat n)); [|lia].
  reflexivity.
Qed.

Lemma interpolate_table_at_sample `{Scipy} (points : list (Z * Z))
    (values : list point3) (R : nat) (tbl : lookup_table)
    (linear : nat -> nat -> option point3) (k : nat) (c : Z * Z) (v : point3) :
  interpolate_table points values R = Ok tbl ->
  griddata points values R Linear = Ok linear ->
  reproduces_samples linear points values R ->
  nth_error points k = Some c -> nth_error values k = Some v ->
  (forall k' v', nth_error points k' = Some c -> nth_error values k' = Some v' -> v' = v) ->
  0 <= fst c < Z.of_nat R -> 0 <= snd c < Z.of_nat R ->
  table_get tbl (fst c) (snd c) = Ok (Some v).
Proof.
  intros Hb Hlin Hrep Hc Hv Hu H1 H2.
  unfold interpolate_table in Hb. rewrite Hlin in Hb. simpl in Hb.
  destruct (griddata points values R Nearest) as [nearest|e] eqn:En;
    simpl in Hb; [|discriminate].
  injection Hb as <-. unfold table_get. simpl.
  rewrite (norm_index_in_range R _ H1). simpl.
  rewrite (norm_index_in_range R _ H2). simpl.
  now rewrite (Hrep k c v Hc Hv Hu H1 H2).
Qed.

(** C4, as the code has it.  For a model of positive height and angle extent,
    the Kaggle table, built with an interpolator that returns a sample's value
    at a node carrying samples of that one value, gives back exactly the
    vertex [v] at the colour row of [v], for every vertex whose code is shared
    by no vertex at another position. *)
Theorem round_trip_at_unshared_codes `{NumpyMath} `{Scipy}
    (self : Kaggle.ModelsHandler) (model_id : Z)
    (vertices : list point3) (triangles : list triangle)
    (colors : list (Z * Z * Z)) (tbl : lookup_table)
    (linear : nat -> nat -> option point3)
    (hlo hhi rlo rhi : Q) (k : nat) (v : point3) (c : Z * Z * Z) :
  Kaggle.model_id_to_vertices_and_triangles self model_id = Ok (vertices, triangles) ->
  amin (map py vertices) = Ok hlo -> amax (map py vertices) = Ok hhi ->
  (hlo < hhi)%Q ->
  amin (map (fun p => arctan2 (px p) (pz p)) vertices) = Ok rlo ->
  amax (map (fun p => arctan2 (px p) (pz p)) vertices) = Ok rhi ->
  (rlo < rhi)%Q ->
  Kaggle.color_points vertices model_id = Ok colors ->
  Kaggle.get_color_to_3dpoints_arrays self model_id = Ok tbl ->
  griddata (map (fun c => (snd (fst c), snd c)) colors) vertices 256 Linear = Ok linear ->
  reproduces_samples linear (map (fun c => (snd (fst c), snd c)) colors) vertices 256 ->
  nth_error vertices k = Some v ->
  nth_error colors k = Some c ->
  (forall k' v' c',
     nth_error vertices k' = Some v' -> nth_error colors k' = Some c' ->
     snd (fst c') = snd (fst c) -> snd c' = snd c -> v' = v) ->
  table_get tbl (snd (fst c)) (snd c) = Ok (Some v).
Proof.
  intros Hk Hhlo Hhhi Hh Hrlo Hrhi Hr Hcol Hb Hlin Hrep Hv Hc Hu.
  unfold Kaggle.get_color_to_3dpoints_arrays in Hb.
  rewrite Hk in Hb. simpl in Hb. rewrite Hcol in Hb. simpl in Hb.
  destruct (color_points_extremes vertices model_id hlo hhi rlo rhi
              Hhlo Hhhi Hrlo Hrhi Hh Hr) as (colors' & Hcol' & Hrange & _).
  rewrite Hcol in Hcol'. injection Hcol' as <-.
  assert (Hin : In c colors) by (eapply nth_error_In; exact Hc).
  destruct (Hrange c Hin) as [Rh Rr].
  apply (interpolate_table_at_sample _ _ _ _ _ k (snd (fst c), snd c) v Hb Hlin Hrep).
  - rewrite nth_error_map, Hc. reflexivity.
  - exact Hv.
  - intros k' v' Hc' Hv'. rewrite nth_error_map in Hc'.
    destruct (nth_error colors k') as [c'|] eqn:E; [|discriminate].
    simpl in Hc'. injection Hc' as E1 E2.
    apply (Hu k' v' c' Hv' E E1 E2).
  - simpl. lia.
  - simpl. lia.
Qed.

Lemma In_combine_nth {A B} (l : list A) (l' : list B) (a : A) (b : B) :
  In (a, b) (combine l l') ->
  exists k, nth_error l k = Some a /\ nth_error l' k = Some b.
Proof.
  revert l'. induction l as [|x l IH]; intros [|y l'] Hi; simpl in Hi; try contradiction.
  destruct Hi as [E | Hi].
  - injection E as <- <-. exists O. split; reflexivity.
  - destruct (IH l' Hi) as (k & ? & ?). exists (S k). split; assumption.
Qed.

Lemma nth_combine_In {A B} (l : list A) (l' : list B) (k : nat) (a : A) (b : B) :
  nth_error l k = Some a -> nth_error l' k = Some b -> In (a, b) (combine l l').
Proof.
  revert l l'. induction k as [|k IH]; intros [|x l] [|y l'] Ha Hb;
    simpl in *; try discriminate.
  - injection Ha as <-. injection Hb as <-. left; reflexivity.
  - right. apply IH; assumption.
Qed.

Lemma first_match_reproduces (points : list (Z * Z)) (values : list point3)
    (R : nat) (method : interp_method) (g : nat -> nat -> option point3) :
  @griddata first_match_scipy points values R method = Ok g ->
  reproduces_samples g points values R.
Proof.
  intros Hg. simpl in Hg. injection Hg as <-.
  intros k c v Hc Hv Hu H1 H2. unfold first_match.
  destruct (List.find _ (combine points values)) as [[c' v']|] eqn:Ef; simpl.
  - apply find_some in Ef as [Hi Hm]. simpl in Hm.
    apply andb_true_iff in Hm as [M1 M2].
    apply Z.eqb_eq in M1. apply Z.eqb_eq in M2.
    assert (c' = c) by (destruct c, c'; simpl in *; f_equal; lia). subst c'.
    apply In_combine_nth in Hi as (k' & Hk1 & Hk2).
    now rewrite (Hu k' v' Hk1 Hk2).
  - exfalso.
    pose proof (find_none _ _ Ef (c, v) (nth_combine_In _ _ _ _ _ Hc Hv)) as Hn.
    simpl in Hn. apply andb_false_iff in Hn.
    destruct Hn as [Hn | Hn]; apply Z.eqb_neq in Hn; lia.
Qed.

Lemma round_trip_at_unshared_codes_witness :
  exists tbl,
    @Kaggle.get_color_to_3dpoints_arrays pseudo_math first_match_scipy wedge_kaggle 3
      = Ok tbl /\
    table_get tbl 0 153 = Ok (Some (1, 1, 9)%Q).
Proof.
  assert (Hb : exists tbl,
             @Kaggle.get_color_to_3dpoints_arrays pseudo_math first_match_scipy
               wedge_kaggle 3 = Ok tbl)
    by (vm_compute; eexists; reflexivity).
  destruct Hb as [tbl Hb]. exists tbl. split; [exact Hb|].
  refine (@round_trip_at_unshared_codes pseudo_math first_match_scipy wedge_kaggle 3
            wedge_vertices wedge_triangles
            [(3, 0, 0); (3, 0, 0); (3, 0, 0); (3, 0, 153)] tbl _ _ _ _ _
            3%nat (1, 1, 9)%Q (3, 0, 153) _ _ _ _ _ _ _ _ Hb _ _ _ _ _).
  - reflexivity.
  - reflexivity.
  - reflexivity.
  - reflexivity.
  - reflexivity.
  - reflexivity.
  - reflexivity.
  - reflexivity.
  - reflexivity.
  - apply (first_match_reproduces _ _ 256%nat Linear). reflexivity.
  - reflexivity.
  - reflexivity.
  - intros k' v' c' Hv Hc _ Hr.
    destruct k' as [|[|[|[|k']]]]; simpl in Hv, Hc;
      try (injection Hc as <-; simpl in Hr; discriminate Hr).
    + injection Hv as <-. reflexivity.
    + destruct k'; discriminate Hv.
Defined.

(** In the LineMOD handler the table has [color_resolution] rows while the
    height code of a highest vertex is [color_resolution] itself: the lookup
    at that vertex's code falls outside the table. *)
Example linemod_top_code_outside_table :
  exists tbl,
    @Linemod.get_color_to_3dpoints_arrays pseudo_math first_match_scipy
       wedge_linemod "wedge"%string = Ok tbl /\
    fmap (map (Linemod.uv_code wedge_linemod))
         (match @Linemod.color_uv pseudo_math wedge_vertices with
          | Ok uv => Some uv | Err _ => None end)
      = Some [(0, 127); (0, 134); (255, 127); (255, 131)] /\
    table_get tbl 255 131 = Err IndexError.
Proof.
  assert (Hb : exists tbl,
             @Linemod.get_color_to_3dpoints_arrays pseudo_math first_match_scipy
               wedge_linemod "wedge"%string = Ok tbl /\ resolution tbl = 255%nat)
    by (vm_compute; eexists; split; reflexivity).
  destruct Hb as (tbl & Hb & Hr). exists tbl. split; [exact Hb|].
  split; [vm_compute; reflexivity|].
  unfold table_get. rewrite Hr. reflexivity.
Qed.

(** ** The recovery loop, for any implementation of the method it calls *)

(** *** Steps of the store monad *)

Lemma bind_load {A} (l : nat) (a : ndarray Q) (f : ndarray Q -> Kaggle.M A)
    (h : gmap nat (ndarray Q)) :
  h !! l = Some a -> (Kaggle.load l ≫= f) h = f a h.
Proof. intros E. unfold mbind, Kaggle.M_bind, Kaggle.load. now rewrite E. Qed.

Lemma bind_load_none {A} (l : nat) (f : ndarray Q -> Kaggle.M A)
    (h : gmap nat (ndarray Q)) :
  h !! l = None -> (Kaggle.load l ≫= f) h = (Kaggle.Raised KeyError, h).
Proof. intros E. unfold mbind, Kaggle.M_bind, Kaggle.load. now rewrite E. Qed.

Lemma bind_lift_ok {A B} (a : A) (f : A -> Kaggle.M B) (h : gmap nat (ndarray Q)) :
  (Kaggle.lift (Ok a) ≫= f) h = f a h.
Proof. reflexivity. Qed.

Lemma bind_lift_err {A B} (e : exn) (f : A -> Kaggle.M B) (h : gmap nat (ndarray Q)) :
  (Kaggle.lift (Err e) ≫= f) h = (Kaggle.Raised e, h).
Proof. reflexivity. Qed.

Lemma bind_store {A} (l : nat) (a : ndarray Q) (f : unit -> Kaggle.M A)
    (h : gmap nat (ndarray Q)) :
  (Kaggle.store l a ≫= f) h = f tt (<[l := a]> h).
Proof. reflexivity. Qed.

Lemma bind_alloc {A} (a : ndarray Q) (f : nat -> Kaggle.M A)
    (h : gmap nat (ndarray Q)) :
  (Kaggle.alloc a ≫= f) h = f (fresh (dom h)) (<[fresh (dom h) := a]> h).
Proof. reflexivity. Qed.

(** *** The loop on the values the names hold *)

Definition of_result {A} (r : result A) : Kaggle.outcome A :=
  match r with
  | Ok a => Kaggle.Returned a
  | Err e => Kaggle.Raised e
  end.

Definition outcome_bind {A B} (m : Kaggle.outcome A) (f : A -> Kaggle.outcome B)
  : Kaggle.outcome B :=
  match m with
  | Kaggle.Returned a => f a
  | Kaggle.Raised e => Kaggle.Raised e
  | Kaggle.OutOfFuel => Kaggle.OutOfFuel
  end.

(** The same iterations with the arrays passed as values: what the loop
    computes from the contents of [clasification] and [probabilities]. *)
Fixpoint loop_on_values `{NumpyRelease} (solve : Kaggle.solver2) (fuel : nat)
    (cls p : ndarray Q) (color_u color_v : ndarray Z) (background_id : Z)
    (output : list Kaggle.instance) : Kaggle.outcome (list Kaggle.instance) :=
  match fuel with
  | O => Kaggle.OutOfFuel
  | S fuel =>
      outcome_bind (of_result (Kaggle.most_frequent_class p background_id)) (fun k =>
      outcome_bind (of_result (solve color_u color_v (np_eq_scalar cls k) k)) (fun solved =>
      let '(converged, inliers, translation_vector, rotation_matrix) := solved in
      outcome_bind (of_result (truthy converged)) (fun c =>
      if negb c then Kaggle.Returned output
      else
        outcome_bind (of_result (py_index_column inliers 0)) (fun I =>
        outcome_bind (of_result (py_index_column inliers 1)) (fun J =>
        outcome_bind (of_result (set_pixels p None I J 0)) (fun p1 =>
        outcome_bind (of_result (set_pixels p1 (Some (-1)) I J 1)) (fun p2 =>
        loop_on_values solve fuel cls p2 color_u color_v background_id
          (output ++ [(k, translation_vector, rotation_matrix)]))))))))
  end.

(** The store after a step that wrote nothing new to [l_p]. *)
Ltac stays p :=
  exists p; rewrite insert_id by assumption; reflexivity.

Lemma recovery_loop_on_values `{NumpyRelease} (solve : Kaggle.solver2) (fuel : nat) :
  forall (l_cls l_p : nat) (cls p : ndarray Q) (color_u color_v : ndarray Z)
         (bg : Z) (output : list Kaggle.instance) (h : gmap nat (ndarray Q)),
    h !! l_cls = Some cls -> h !! l_p = Some p -> l_cls <> l_p ->
    exists p',
      Kaggle.recovery_loop solve fuel l_cls l_p color_u color_v bg output h
      = (loop_on_values solve fuel cls p color_u color_v bg output, <[l_p := p']> h).
Proof.
  induction fuel as [|fuel IH]; intros l_cls l_p cls p cu cv bg output h Hc Hp Hne.
  - simpl. unfold Kaggle.out_of_fuel. stays p.
  - cbn [Kaggle.recovery_loop loop_on_values].
    rewrite (bind_load _ _ _ _ Hp).
    destruct (Kaggle.most_frequent_class p bg) as [k|e];
      [rewrite bind_lift_ok; cbn [of_result outcome_bind] | rewrite bind_lift_err; stays p].
    rewrite (bind_load _ _ _ _ Hc).
    destruct (solve cu cv (np_eq_scalar cls k) k) as [[[[conv inl] tv] rm]|e];
      [rewrite bind_lift_ok; cbn [of_result outcome_bind] | rewrite bind_lift_err; stays p].
    destruct (truthy conv) as [c|e];
      [rewrite bind_lift_ok; cbn [of_result outcome_bind] | rewrite bind_lift_err; stays p].
    destruct c; cbn [negb];
      [| unfold mret, Kaggle.M_ret; stays p].
    destruct (py_index_column inl 0) as [I|e];
      [rewrite bind_lift_ok; cbn [of_result outcome_bind] | rewrite bind_lift_err; stays p].
    destruct (py_index_column inl 1) as [J|e];
      [rewrite bind_lift_ok; cbn [of_result outcome_bind] | rewrite bind_lift_err; stays p].
    rewrite (bind_load _ _ _ _ Hp).
    destruct (set_pixels p None I J 0) as [p1|e];
      [rewrite bind_lift_ok; cbn [of_result outcome_bind] | rewrite bind_lift_err; stays p].
    rewrite bind_store, !bind_lift_ok.
    rewrite (bind_load _ p1) by apply lookup_insert_eq.
    cbn [of_result outcome_bind].
    destruct (set_pixels p1 (Some (-1)) I J 1) as [p2|e];
      [rewrite bind_lift_ok; cbn [of_result outcome_bind] | rewrite bind_lift_err; exists p1; reflexivity].
    rewrite bind_store. rewrite insert_insert_eq.
    destruct (IH l_cls l_p cls p2 cu cv bg
                (output ++ [(k, tv, rm)]) (<[l_p := p2]> h)) as [p' Hrun].
    + rewrite lookup_insert_ne by congruence. exact Hc.
    + apply lookup_insert_eq.
    + exact Hne.
    + exists p'. rewrite Hrun. now rewrite insert_insert_eq.
Qed.

(** *** What a run leaves in the store *)

Section Frame.
Context `{NumpyRelease}.
Variable h0 : gmap nat (ndarray Q).
Variable l_p : nat.
Hypothesis fresh_l_p : h0 !! l_p = None.

(** A computation that keeps every array of [h0] as it is. *)
Definition keeps {A} (m : Kaggle.M A) : Prop :=
  forall h, h0 ⊆ h -> h0 ⊆ snd (m h).

Lemma keeps_bind {A B} (m : Kaggle.M A) (f : A -> Kaggle.M B) :
  keeps m -> (forall a, keeps (f a)) -> keeps (m ≫= f).
Proof.
  intros Hm Hf h Hh. unfold mbind, Kaggle.M_bind.
  specialize (Hm h Hh). destruct (m h) as [[a|e|] h']; simpl in *.
  - apply Hf, Hm.
  - exact Hm.
  - exact Hm.
Qed.

Lemma keeps_ret {A} (a : A) : keeps (mret a).
Proof. intros h Hh. exact Hh. Qed.

Lemma keeps_lift {A} (r : result A) : keeps (Kaggle.lift r).
Proof. intros h Hh. unfold Kaggle.lift. destruct r; exact Hh. Qed.

Lemma keeps_load (l : nat) : keeps (Kaggle.load l).
Proof. intros h Hh. unfold Kaggle.load. destruct (h !! l); exact Hh. Qed.

Lemma keeps_out_of_fuel {A} : keeps (@Kaggle.out_of_fuel A).
Proof. intros h Hh. exact Hh. Qed.

Lemma keeps_store (a : ndarray Q) : keeps (Kaggle.store l_p a).
Proof.
  intros h Hh. unfold Kaggle.store. simpl.
  apply insert_subseteq_r; [exact fresh_l_p | exact Hh].
Qed.

Lemma keeps_recovery_loop (solve : Kaggle.solver2) (fuel : nat) :
  forall (l_cls : nat) (color_u color_v : ndarray Z) (bg : Z)
         (output : list Kaggle.instance),
    keeps (Kaggle.recovery_loop solve fuel l_cls l_p color_u color_v bg output).
Proof.
  induction fuel as [|fuel IH]; intros l_cls cu cv bg output.
  - apply keeps_out_of_fuel.
  - cbn [Kaggle.recovery_loop].
    apply keeps_bind; [apply keeps_load | intros p].
    apply keeps_bind; [apply keeps_lift | intros k].
    apply keeps_bind; [apply keeps_load | intros cls].
    apply keeps_bind; [apply keeps_lift | intros [[[conv inl] tv] rm]].
    apply keeps_bind; [apply keeps_lift | intros c].
    destruct (negb c); [apply keeps_ret|].
    apply keeps_bind; [apply keeps_lift | intros I].
    apply keeps_bind; [apply keeps_lift | intros J].
    apply keeps_bind; [apply keeps_load | intros p1].
    apply keeps_bind; [apply keeps_lift | intros p2].
    apply keeps_bind; [apply keeps_store | intros _].
    apply keeps_bind; [apply keeps_lift | intros I'].
    apply keeps_bind; [apply keeps_lift | intros J'].
    apply keeps_bind; [apply keeps_load | intros p3].
    apply keeps_bind; [apply keeps_lift | intros p4].
    apply keeps_bind; [apply keeps_store | intros _].
    apply IH.
Qed.

End Frame.

(** ** C9: the input tensors are left as they are *)

(** C9.  Whatever the method called by the loop computes, however long the
    loop runs and however it ends (a returned list, an exception, or more
    iterations than the fuel allows), every array that is in the store when
    [pnp_ransac_multiple_instances] is entered, the classification tensor and
    the two correspondence tensors among them, is still there with the same
    contents afterwards: the only array written to is [probabilities], which
    [softmax] has newly created. *)
Theorem inputs_never_mutated `{Torch} `{NumpyRelease} (solve : Kaggle.solver2) (fuel : nat)
    (clasification correspondence_u correspondence_v : nat)
    (h : gmap nat (ndarray Q)) :
  h ⊆ snd (Kaggle.pnp_ransac_multiple_instances_with solve fuel
             clasification correspondence_u correspondence_v h).
Proof.
  unfold Kaggle.pnp_ransac_multiple_instances_with.
  destruct (h !! clasification) as [cls|] eqn:Ec;
    [rewrite (bind_load _ _ _ _ Ec) | rewrite (bind_load_none _ _ _ Ec); reflexivity].
  rewrite bind_alloc.
  set (l_p := fresh (dom h)).
  assert (Hfresh : h !! l_p = None).
  { apply not_elem_of_dom. subst l_p. apply is_fresh. }
  assert (Hsub : h ⊆ <[l_p := softmax cls]> h).
  { apply insert_subseteq_r; [exact Hfresh | reflexivity]. }
  revert Hsub. generalize (<[l_p := softmax cls]> h) as h1. intros h1 Hsub.
  revert h1 Hsub. change (keeps h
    (u ← Kaggle.load correspondence_u;
     color_u ← Kaggle.lift (np_argmax0 u);
     v ← Kaggle.load correspondence_v;
     color_v ← Kaggle.lift (np_argmax0 v);
     cls ← Kaggle.load clasification;
     background_id ← Kaggle.lift (Kaggle.background_of cls);
     Kaggle.recovery_loop solve fuel clasification l_p color_u color_v
       background_id [])).
  apply keeps_bind; [apply keeps_load | intros u].
  apply keeps_bind; [apply keeps_lift | intros cu].
  apply keeps_bind; [apply keeps_load | intros v].
  apply keeps_bind; [apply keeps_lift | intros cv].
  apply keeps_bind; [apply keeps_load | intros cls'].
  apply keeps_bind; [apply keeps_lift | intros bg].
  apply keeps_recovery_loop. exact Hfresh.
Qed.

(** ** C8: the output is a function of the contents of the inputs *)

(** The whole engine on the values of its three arguments. *)
Definition engine_on_values `{Torch} `{NumpyRelease} (solve : Kaggle.solver2) (fuel : nat)
    (cls u v : ndarray Q) : Kaggle.outcome (list Kaggle.instance) :=
  outcome_bind (of_result (np_argmax0 u)) (fun color_u =>
  outcome_bind (of_result (np_argmax0 v)) (fun color_v =>
  outcome_bind (of_result (Kaggle.background_of cls)) (fun background_id =>
  loop_on_values solve fuel cls (softmax cls) color_u color_v background_id []))).

Lemma engine_run `{Torch} `{NumpyRelease} (solve : Kaggle.solver2) (fuel : nat)
    (l_cls l_u l_v : nat) (cls u v : ndarray Q) (h : gmap nat (ndarray Q)) :
  h !! l_cls = Some cls -> h !! l_u = Some u -> h !! l_v = Some v ->
  exists p',
    Kaggle.pnp_ransac_multiple_instances_with solve fuel l_cls l_u l_v h
    = (engine_on_values solve fuel cls u v, <[fresh (dom h) := p']> h).
Proof.
  intros Hc Hu Hv.
  unfold Kaggle.pnp_ransac_multiple_instances_with, engine_on_values.
  rewrite (bind_load _ _ _ _ Hc), bind_alloc.
  set (l_p := fresh (dom h)).
  assert (Hfresh : h !! l_p = None).
  { apply not_elem_of_dom. subst l_p. apply is_fresh. }
  assert (Nc : l_p <> l_cls) by congruence.
  assert (Nu : l_p <> l_u) by congruence.
  assert (Nv : l_p <> l_v) by congruence.
  rewrite (bind_load _ u) by (now rewrite lookup_insert_ne).
  destruct (np_argmax0 u) as [cu|e];
    [rewrite bind_lift_ok | rewrite bind_lift_err; eexists; reflexivity].
  rewrite (bind_load _ v) by (now rewrite lookup_insert_ne).
  destruct (np_argmax0 v) as [cv|e];
    [rewrite bind_lift_ok | rewrite bind_lift_err; eexists; reflexivity].
  rewrite (bind_load _ cls) by (now rewrite lookup_insert_ne).
  destruct (Kaggle.background_of cls) as [bg|e];
    [rewrite bind_lift_ok | rewrite bind_lift_err; eexists; reflexivity].
  cbn [of_result outcome_bind].
  destruct (recovery_loop_on_values solve fuel l_cls l_p cls (softmax cls)
              cu cv bg [] (<[l_p := softmax cls]> h)) as [p' Hrun].
  - now rewrite lookup_insert_ne.
  - apply lookup_insert_eq.
  - congruence.
  - exists p'. rewrite Hrun. now rewrite insert_insert_eq.
Qed.




(** *** A run of the loop with stand-ins for the libraries *)

(** Scores in the place of probabilities: the position of the maximum is the
    only thing the loop reads from [softmax]. *)
Definition identity_scores : Torch :=
  {| softmax := fun t => t;
     softmax_shape := fun _ => eq_refl;
     softmax_argmax := fun _ => eq_refl |}.

(** NumPy up to release 2.1, and from release 2.2 on. *)
Definition numpy_1 : NumpyRelease := {| empty_array_truth := Ok false |}.
Definition numpy_2_2 : NumpyRelease := {| empty_array_truth := Err ValueError |}.

(** A method that finds class 0 once, with the single inlier (0, 0), and
    nothing for any other class. *)
Definition class_zero_solver : Kaggle.solver2 := fun _ _ _ model_id =>
  if model_id =? 0
  then Ok (PyBool true, PyIntArray (mk_nd [1; 2]%nat [0; 0]), PyNone, PyNone)
  else Ok (PyBool false, PyNone, PyNone, PyNone).

(** A 1 x 2 image: the left pixel scores highest for class 0, the right one
    for class 1; class 2 is the background. *)
Definition two_pixel_scores : ndarray Q :=
  mk_nd [3; 1; 2]%nat [5; 1; 1; 5; 0; 0]%Q.

Definition two_pixel_codes : ndarray Q :=
  mk_nd [2; 1; 2]%nat [1; 0; 0; 1]%Q.

Definition store_a : gmap nat (ndarray Q) :=
  {[ 0%nat := two_pixel_scores; 1%nat := two_pixel_codes; 2%nat := two_pixel_codes ]}.


(** The loop around a method that returns: one instance is recorded. *)
Example two_pixel_run :
  fst (@Kaggle.pnp_ransac_multiple_instances_with identity_scores numpy_1
         class_zero_solver 5 0 1 2 store_a)
  = Kaggle.Returned [(0, PyNone, PyNone)].
Proof. vm_compute. reflexivity. Qed.

(** ** The method the loop calls in the source *)

Lemma np_mask_select_1d {A} (a : ndarray A) (m : ndarray bool) (r : ndarray A) :
  np_mask_select a m = Ok r -> exists l, r = mk_nd [length l] l.
Proof.
  unfold np_mask_select. destruct (decide (shape a = shape m)); [|discriminate].
  intros E. injection E as <-. eexists. reflexivity.
Qed.

(** [np.hstack] of the rows of [np.argwhere] with a 1-D array is refused. *)
Lemma hstack_argwhere_1d (mask : ndarray bool) (l : list Z) :
  np_hstack2 (np_argwhere mask) (mk_nd [length l] l) = Err ValueError.
Proof. reflexivity. Qed.

(** [pnp_ransac_single_instance2] raises on every input: either the boolean
    mask does not fit the flattened codes (IndexError), or the second
    [np.hstack] is given the two-dimensional [points2d] and the
    one-dimensional [colors] (ValueError). *)
Lemma pnp_ransac_single_instance2_raises `{NumpyMath} `{Scipy} `{Cv2Solve}
    (self : Kaggle.ModelsHandler) (color_u color_v : ndarray Z)
    (mask : ndarray bool) (model_id : Z) :
  Kaggle.pnp_ransac_single_instance2 self color_u color_v mask model_id = Err IndexError \/
  Kaggle.pnp_ransac_single_instance2 self color_u color_v mask model_id = Err ValueError.
Proof.
  unfold Kaggle.pnp_ransac_single_instance2.
  destruct (np_mask_select (flatten color_u) (flatten mask)) as [cu|e] eqn:Eu.
  2:{ left. unfold np_mask_select in Eu.
      destruct (decide _); [discriminate|]. injection Eu as <-. reflexivity. }
  destruct (np_mask_select (flatten color_v) (flatten mask)) as [cv|e] eqn:Ev.
  2:{ left. unfold np_mask_select in Ev.
      destruct (decide _); [discriminate|]. injection Ev as <-. reflexivity. }
  right.
  apply np_mask_select_1d in Eu as [lu ->].
  apply np_mask_select_1d in Ev as [lv ->].
  cbn [mbind result_bind].
  change (np_hstack2 (mk_nd [length lu] lu) (mk_nd [length lv] lv))
    with (Ok (mk_nd [(length lu + length lv)%nat] (lu ++ lv))).
  cbn [mbind result_bind].
  rewrite <- length_app.
  now rewrite hstack_argwhere_1d.
Qed.




(** *** Computations that raise *)

Definition never_returns {A} (m : Kaggle.M A) : Prop :=
  forall h, exists e, fst (m h) = Kaggle.Raised e.

Definition has_fuel {A} (m : Kaggle.M A) : Prop :=
  forall h, fst (m h) <> Kaggle.OutOfFuel.

Lemma never_returns_bind {A B} (m : Kaggle.M A) (f : A -> Kaggle.M B) :
  has_fuel m -> (forall a, never_returns (f a)) -> never_returns (m ≫= f).
Proof.
  intros Hm Hf h. unfold mbind, Kaggle.M_bind.
  specialize (Hm h). destruct (m h) as [[a|e|] h']; simpl in *.
  - apply Hf.
  - eauto.
  - congruence.
Qed.

Lemma never_returns_err {A} (e : exn) : never_returns (@Kaggle.lift A (Err e)).
Proof. intros h. exists e. reflexivity. Qed.

Lemma never_returns_first {A B} (m : Kaggle.M A) (f : A -> Kaggle.M B) :
  never_returns m -> never_returns (m ≫= f).
Proof.
  intros Hm h. unfold mbind, Kaggle.M_bind.
  destruct (Hm h) as [e He]. destruct (m h) as [[a|e'|] h']; simpl in *;
    try discriminate. eauto.
Qed.

Lemma has_fuel_load (l : nat) : has_fuel (Kaggle.load l).
Proof. intros h. unfold Kaggle.load. destruct (h !! l); discriminate. Qed.

Lemma has_fuel_lift {A} (r : result A) : has_fuel (Kaggle.lift r).
Proof. intros h. unfold Kaggle.lift. destruct r; discriminate. Qed.

Lemma has_fuel_alloc (a : ndarray Q) : has_fuel (Kaggle.alloc a).
Proof. intros h. discriminate. Qed.

Lemma recovery_loop_never_returns `{NumpyRelease} `{NumpyMath} `{Scipy} `{Cv2Solve}
    (self : Kaggle.ModelsHandler) (fuel l_cls l_p : nat)
    (color_u color_v : ndarray Z) (bg : Z) (output : list Kaggle.instance) :
  never_returns
    (Kaggle.recovery_loop (Kaggle.pnp_ransac_single_instance2 self) (S fuel)
       l_cls l_p color_u color_v bg output).
Proof.
  cbn [Kaggle.recovery_loop].
  apply never_returns_bind; [apply has_fuel_load | intros p].
  apply never_returns_bind; [apply has_fuel_lift | intros k].
  apply never_returns_bind; [apply has_fuel_load | intros cls].
  apply never_returns_first.
  destruct (pnp_ransac_single_instance2_raises self color_u color_v
              (np_eq_scalar cls k) k) as [-> | ->]; apply never_returns_err.
Qed.

Lemma most_frequent_class_softmax `{Torch} (t : ndarray Q) (bg : Z) :
  Kaggle.most_frequent_class (softmax t) bg = Kaggle.most_frequent_class t bg.
Proof. unfold Kaggle.most_frequent_class. now rewrite softmax_argmax. Qed.

(** ** C2: no pose found *)

(** The loop, for its part, ends on a method that reports no convergence and
    hands back the instances recorded so far. *)
Lemma loop_stops_on_non_convergence `{NumpyRelease} (solve : Kaggle.solver2) (fuel : nat)
    (cls p : ndarray Q) (color_u color_v : ndarray Z) (bg k : Z)
    (output : list Kaggle.instance) (inliers t r : pyobj) :
  Kaggle.most_frequent_class p bg = Ok k ->
  solve color_u color_v (np_eq_scalar cls k) k = Ok (PyBool false, inliers, t, r) ->
  loop_on_values solve (S fuel) cls p color_u color_v bg output
  = Kaggle.Returned output.
Proof. intros Hk Hs. cbn [loop_on_values]. rewrite Hk. simpl. rewrite Hs. reflexivity. Qed.

(** Case analysis along a chain of steps that may raise. *)
Ltac result_steps :=
  repeat lazymatch goal with
  | |- exists e, mbind _ ?m = Err e =>
      let E := fresh "E" in
      destruct m as [?|?] eqn:E; cbn [mbind result_bind]; [|eexists; reflexivity]
  end.

(** [pnp_ransac_single_instance] evaluates [inliers.flatten()] and
    [cv2.Rodrigues(...).T] in its [return] statement whether or not a pose was
    found.  When OpenCV hands back no inlier array the first raises; when
    [cv2.Rodrigues] hands back its pair (matrix, jacobian), as the script
    [sythetic_ransac.py] of the repository takes it to ([cv2.Rodrigues(...)[0]]),
    the second raises. *)
Lemma single_instance_raises_without_inliers `{NumpyMath} `{Scipy} `{Cv2Solve}
    (self : Kaggle.ModelsHandler) (data : ndarray Z) (model_id : Z) :
  (forall object_points image_points K converged rvec tvec inliers,
     solvePnPRansac object_points image_points K = Ok (converged, rvec, tvec, inliers) ->
     inliers = PyNone) ->
  raises (Kaggle.pnp_ransac_single_instance self data model_id).
Proof.
  intros Hnone. unfold Kaggle.pnp_ransac_single_instance, raises.
  result_steps.
  match goal with
  | E : solvePnPRansac _ _ _ = Ok ?s |- _ =>
      destruct s as [[[conv rv] tv] inl]; apply Hnone in E; subst inl
  end.
  eexists. reflexivity.
Qed.

Lemma single_instance_raises_on_rodrigues_pair `{NumpyMath} `{Scipy} `{Cv2Solve}
    (self : Kaggle.ModelsHandler) (data : ndarray Z) (model_id : Z) :
  (forall rvec r, Rodrigues rvec = Ok r ->
     exists matrix jacobian, r = PyTuple [matrix; jacobian]) ->
  raises (Kaggle.pnp_ransac_single_instance self data model_id).
Proof.
  intros Hpair. unfold Kaggle.pnp_ransac_single_instance, raises.
  result_steps.
  match goal with
  | E : solvePnPRansac _ _ _ = Ok ?s |- _ => destruct s as [[[conv rv] tv] inl]
  end.
  result_steps.
  match goal with
  | E : Rodrigues _ = Ok _ |- _ => apply Hpair in E as (? & ? & ->)
  end.
  match goal with
  | E : py_T (PyTuple _) = Ok _ |- _ => discriminate E
  end.
Qed.

(** C2, on the code.  Whatever the tensors and the store, and however many
    iterations are allowed, [pnp_ransac_multiple_instances] does not return a
    list: its first iteration ends in an exception, raised by
    [pnp_ransac_single_instance2] before the pose solver is reached (or by
    the steps before it). *)
Theorem engine_raises_instead_of_returning `{Torch} `{NumpyRelease} `{NumpyMath} `{Scipy} `{Cv2Solve}
    (self : Kaggle.ModelsHandler) (fuel : nat)
    (clasification correspondence_u correspondence_v : nat)
    (h : gmap nat (ndarray Q)) :
  exists e,
    fst (Kaggle.pnp_ransac_multiple_instances self (S fuel)
           clasification correspondence_u correspondence_v h)
    = Kaggle.Raised e.
Proof.
  revert h.
  change (never_returns
            (Kaggle.pnp_ransac_multiple_instances self (S fuel)
               clasification correspondence_u correspondence_v)).
  unfold Kaggle.pnp_ransac_multiple_instances, Kaggle.pnp_ransac_multiple_instances_with.
  apply never_returns_bind; [apply has_fuel_load | intros cls].
  apply never_returns_bind; [apply has_fuel_alloc | intros l_p].
  apply never_returns_bind; [apply has_fuel_load | intros u].
  apply never_returns_bind; [apply has_fuel_lift | intros cu].
  apply never_returns_bind; [apply has_fuel_load | intros v].
  apply never_returns_bind; [apply has_fuel_lift | intros cv].
  apply never_returns_bind; [apply has_fuel_load | intros cls'].
  apply never_returns_bind; [apply has_fuel_lift | intros bg].
  apply recovery_loop_never_returns.
Qed.

(** The two-pixel image of the run above, with the method of the source. *)
Lemma two_pixel_image_raises `{Torch} `{NumpyRelease} `{NumpyMath} `{Scipy} `{Cv2Solve}
    (self : Kaggle.ModelsHandler) (fuel : nat) :
  fst (Kaggle.pnp_ransac_multiple_instances self (S fuel) 0 1 2 store_a)
  = Kaggle.Raised IndexError.
Proof.
  unfold Kaggle.pnp_ransac_multiple_instances.
  destruct (engine_run (Kaggle.pnp_ransac_single_instance2 self) (S fuel) 0 1 2
              two_pixel_scores two_pixel_codes two_pixel_codes store_a)
    as [p' ->]; [reflexivity | reflexivity | reflexivity |].
  cbn [fst]. unfold engine_on_values.
  change (np_argmax0 two_pixel_codes) with (Ok (mk_nd [1; 2]%nat [0; 1])).
  change (Kaggle.background_of two_pixel_scores) with (Ok 2).
  cbn [of_result outcome_bind loop_on_values].
  rewrite most_frequent_class_softmax.
  change (Kaggle.most_frequent_class two_pixel_scores 2) with (Ok 0).
  cbn [of_result outcome_bind].
  reflexivity.
Qed.

(** ** C1: the pixels handed to the pose solver *)

(** The pixels the design document names: those whose most likely class is
    [k], read off the current probabilities. *)
Definition pixels_of_class (probabilities : ndarray Q) (k : Z) : result (ndarray Z) :=
  most_probable_class_pixelwise ← np_argmax0 probabilities;
  Ok (np_argwhere (np_eq_scalar_int most_probable_class_pixelwise k)).

(** A 1 x 1 image whose pixel scores 1/2 for class 0 and 1/3 for the
    background (class 1), with two correspondence channels. *)
Definition one_pixel_scores : ndarray Q := mk_nd [2; 1; 1]%nat [1 # 2; 1 # 3]%Q.
Definition one_pixel_codes : ndarray Q := mk_nd [2; 1; 1]%nat [1; 0]%Q.

Definition one_pixel_store : gmap nat (ndarray Q) :=
  {[ 0%nat := one_pixel_scores; 1%nat := one_pixel_codes; 2%nat := one_pixel_codes ]}.

(** C1, on the code.  On the one-pixel image the first iteration picks class
    0, and the pixel (0, 0) is the one pixel whose most likely class is 0.
    The mask the loop hands over is [clasification == 0], a comparison of the
    raw scores with the class number: it has the three dimensions of the
    score tensor and no true entry, so no position is handed over; and since
    its two entries do not fit the one decoded code, the run ends with
    IndexError inside [pnp_ransac_single_instance2]. *)
Theorem solver_mask_is_not_the_class_mask `{Torch} `{NumpyRelease} `{NumpyMath} `{Scipy} `{Cv2Solve}
    (self : Kaggle.ModelsHandler) (fuel : nat) :
  Kaggle.most_frequent_class (softmax one_pixel_scores) 1 = Ok 0 /\
  pixels_of_class (softmax one_pixel_scores) 0 = Ok (mk_nd [1; 2]%nat [0; 0]) /\
  np_eq_scalar one_pixel_scores 0 = mk_nd [2; 1; 1]%nat [false; false] /\
  np_argwhere (np_eq_scalar one_pixel_scores 0) = mk_nd [0; 3]%nat [] /\
  fst (Kaggle.pnp_ransac_multiple_instances self (S fuel) 0 1 2 one_pixel_store)
  = Kaggle.Raised IndexError.
Proof.
  split; [rewrite most_frequent_class_softmax; reflexivity|].
  split; [unfold pixels_of_class; rewrite softmax_argmax; reflexivity|].
  split; [reflexivity|]. split; [reflexivity|].
  unfold Kaggle.pnp_ransac_multiple_instances.
  destruct (engine_run (Kaggle.pnp_ransac_single_instance2 self) (S fuel) 0 1 2
              one_pixel_scores one_pixel_codes one_pixel_codes one_pixel_store)
    as [p' ->]; [reflexivity | reflexivity | reflexivity |].
  cbn [fst]. unfold engine_on_values.
  change (np_argmax0 one_pixel_codes) with (Ok (mk_nd [1; 1]%nat [0])).
  change (Kaggle.background_of one_pixel_scores) with (Ok 1).
  cbn [of_result outcome_bind loop_on_values].
  rewrite most_frequent_class_softmax.
  change (Kaggle.most_frequent_class one_pixel_scores 1) with (Ok 0).
  cbn [of_result outcome_bind].
  reflexivity.
Qed.

(** ** C3: how long the loop runs *)

(** The pool of the design document: the pixels whose most likely class is
    not the background. *)
Definition unassigned_pixels (probabilities : ndarray Q) (background_id : Z)
  : result nat :=
  most_probable_class_pixelwise ← np_argmax0 probabilities;
  Ok (length (filter (fun c => negb (c =? background_id))
                     (data most_probable_class_pixelwise))).

(** A 1 x 1 image whose pixel is background: no pixel is unassigned. *)
Definition background_scores : ndarray Q := mk_nd [2; 1; 1]%nat [0; 5]%Q.

Definition background_store : gmap nat (ndarray Q) :=
  {[ 0%nat := background_scores; 1%nat := one_pixel_codes; 2%nat := one_pixel_codes ]}.

(** C3, on the code.  On an image with no unassigned pixel the loop body is
    entered all the same: the most frequent class of an empty selection is
    asked for, and the run ends with ValueError instead of the empty list. *)
Theorem background_only_image_raises `{Torch} `{NumpyRelease} `{NumpyMath} `{Scipy} `{Cv2Solve}
    (self : Kaggle.ModelsHandler) (fuel : nat) :
  unassigned_pixels (softmax background_scores) 1 = Ok O /\
  fst (Kaggle.pnp_ransac_multiple_instances self (S fuel) 0 1 2 background_store)
  = Kaggle.Raised ValueError.
Proof.
  split; [unfold unassigned_pixels; rewrite softmax_argmax; reflexivity|].
  unfold Kaggle.pnp_ransac_multiple_instances.
  destruct (engine_run (Kaggle.pnp_ransac_single_instance2 self) (S fuel) 0 1 2
              background_scores one_pixel_codes one_pixel_codes background_store)
    as [p' ->]; [reflexivity | reflexivity | reflexivity |].
  cbn [fst]. unfold engine_on_values.
  change (np_argmax0 one_pixel_codes) with (Ok (mk_nd [1; 1]%nat [0])).
  change (Kaggle.background_of background_scores) with (Ok 1).
  cbn [of_result outcome_bind loop_on_values].
  rewrite most_frequent_class_softmax.
  reflexivity.
Qed.

(** The loop has no bound of its own.  The arguments of the method are the
    decoded codes, the class number and [clasification == class], none of which
    an iteration changes; a method that finds a pose for them finds it again
    in the next iteration as long as the class stays the most frequent one.
    Here two pixels are unassigned and the loop outlasts every number of
    iterations. *)
Definition steady_solver : Kaggle.solver2 := fun _ _ _ _ =>
  Ok (PyBool true, PyIntArray (mk_nd [1; 2]%nat [0; 0]), PyNone, PyNone).

Definition twin_scores : ndarray Q := mk_nd [2; 1; 2]%nat [5; 5; 0; 0]%Q.
Definition twin_codes : ndarray Q := mk_nd [2; 1; 2]%nat [1; 0; 0; 1]%Q.

Definition twin_store : gmap nat (ndarray Q) :=
  {[ 0%nat := twin_scores; 1%nat := twin_codes; 2%nat := twin_codes ]}.

(** [probabilities] once the inlier (0, 0) has been made background. *)
Definition twin_marked : ndarray Q := mk_nd [2; 1; 2]%nat [0; 5; 1; 0]%Q.

Lemma steady_loop_from_marked `{NumpyRelease} (fuel : nat) (cu cv : ndarray Z)
    (output : list Kaggle.instance) :
  loop_on_values steady_solver fuel twin_scores twin_marked cu cv 1 output
  = Kaggle.OutOfFuel.
Proof.
  revert output. induction fuel as [|fuel IH]; intros output; [reflexivity|].
  cbn [loop_on_values].
  change (Kaggle.most_frequent_class twin_marked 1) with (Ok 0).
  cbn [of_result outcome_bind steady_solver truthy negb].
  change (py_index_column (PyIntArray (mk_nd [1; 2]%nat [0; 0])) 0) with (Ok [0]).
  change (py_index_column (PyIntArray (mk_nd [1; 2]%nat [0; 0])) 1) with (Ok [0]).
  cbn [of_result outcome_bind].
  change (set_pixels twin_marked None [0] [0] 0)
    with (Ok (mk_nd [2; 1; 2]%nat [0; 5; 0; 0]%Q)).
  cbn [of_result outcome_bind].
  change (set_pixels (mk_nd [2; 1; 2]%nat [0; 5; 0; 0]%Q) (Some (-1)) [0] [0] 1)
    with (Ok twin_marked).
  cbn [of_result outcome_bind].
  apply IH.
Qed.

Lemma twin_pixels_unassigned :
  unassigned_pixels (@softmax identity_scores twin_scores) 1 = Ok 2%nat.
Proof. reflexivity. Qed.

Lemma converging_method_never_stops `{NumpyRelease} (fuel : nat) :
  fst (@Kaggle.pnp_ransac_multiple_instances_with identity_scores _ steady_solver
         fuel 0 1 2 twin_store)
  = Kaggle.OutOfFuel.
Proof.
  destruct (@engine_run identity_scores _ steady_solver fuel 0 1 2
              twin_scores twin_codes twin_codes twin_store)
    as [p' ->]; [reflexivity | reflexivity | reflexivity |].
  cbn [fst]. unfold engine_on_values.
  change (np_argmax0 twin_codes) with (Ok (mk_nd [1; 2]%nat [0; 1])).
  change (Kaggle.background_of twin_scores) with (Ok 1).
  cbn [of_result outcome_bind].
  destruct fuel as [|fuel]; [reflexivity|].
  cbn [loop_on_values].
  change (Kaggle.most_frequent_class (@softmax identity_scores twin_scores) 1)
    with (Ok 0).
  cbn [of_result outcome_bind steady_solver truthy negb].
  change (py_index_column (PyIntArray (mk_nd [1; 2]%nat [0; 0])) 0) with (Ok [0]).
  change (py_index_column (PyIntArray (mk_nd [1; 2]%nat [0; 0])) 1) with (Ok [0]).
  cbn [of_result outcome_bind].
  change (set_pixels (@softmax identity_scores twin_scores) None [0] [0] 0)
    with (Ok (mk_nd [2; 1; 2]%nat [0; 5; 0; 0]%Q)).
  cbn [of_result outcome_bind].
  change (set_pixels (mk_nd [2; 1; 2]%nat [0; 5; 0; 0]%Q) (Some (-1)) [0] [0] 1)
    with (Ok twin_marked).
  cbn [of_result outcome_bind].
  apply steady_loop_from_marked.
Qed.

(** ** The positions the pose solver returns *)

Lemma np_index_In {A} (l : list A) (i : Z) (a : A) : np_index l i = Ok a -> In a l.
Proof.
  unfold np_index.
  destruct ((0 <=? _) && _); [|discriminate].
  destruct (nth_error l _) eqn:E; [|discriminate].
  intros E'. injection E' as <-. eapply nth_error_In; eassumption.
Qed.

Lemma np_take_In {A} (l : list A) (idx : list Z) (r : list A) :
  np_take l idx = Ok r -> forall a, In a r -> In a l.
Proof.
  revert r. induction idx as [|i idx IH]; intros r; simpl.
  - intros E a Ha. injection E as <-. destruct Ha.
  - destruct (np_index l i) as [x|] eqn:Ex; cbn [mbind result_bind]; [|discriminate].
    destruct (np_take l idx) as [r'|] eqn:Er; cbn [mbind result_bind]; [|discriminate].
    intros E' a Ha. injection E' as <-. destruct Ha as [<- | Ha].
    + eapply np_index_In; eassumption.
    + eapply IH; [reflexivity | assumption].
Qed.

(** Whenever [pnp_ransac_single_instance] returns, the positions it returns
    are rows of [data[:, :2]], whatever OpenCV answered. *)
Lemma inliers_are_input_positions `{NumpyMath} `{Scipy} `{Cv2Solve}
    (self : Kaggle.ModelsHandler) (data : ndarray Z) (model_id : Z)
    (converged inliers translation rotation : pyobj) :
  Kaggle.pnp_ransac_single_instance self data model_id
    = Ok (converged, inliers, translation, rotation) ->
  exists rows positions,
    nd_rows data = Ok rows /\
    inliers = PyIntArray (of_rows 2 positions) /\
    forall p, In p positions -> In p (map (firstn 2) rows).
Proof.
  unfold Kaggle.pnp_ransac_single_instance. intros Hr.
  repeat lazymatch type of Hr with
  | mbind _ ?m = Ok _ =>
      let E := fresh "E" in
      destruct m as [?|?] eqn:E; cbn [mbind result_bind] in Hr; [|discriminate Hr]
  end.
  match goal with
  | E : solvePnPRansac _ _ _ = Ok ?s |- _ => destruct s as [[[conv rv] tv] inl]
  end.
  repeat lazymatch type of Hr with
  | mbind _ ?m = Ok _ =>
      let E := fresh "E" in
      destruct m as [?|?] eqn:E; cbn [mbind result_bind] in Hr; [|discriminate Hr]
  end.
  injection Hr as <- <- <- <-.
  eexists _, _. split; [reflexivity|]. split; [reflexivity|].
  match goal with
  | E : py_take_rows _ ?flat = Ok _ |- _ =>
      destruct flat; simpl in E; try discriminate E;
      intros q Hq; eapply np_take_In; eassumption
  end.
Qed.

(** ** C7: what is returned on convergence *)

(** [cv2.Rodrigues(src)] returns the pair [(dst, jacobian)]; the script
    [sythetic_ransac.py] of the repository takes the matrix out of it with
    [cv2.Rodrigues(...)[0]]. *)
Definition rodrigues_returns_pair `{Cv2Solve} : Prop :=
  forall rvec r, Rodrigues rvec = Ok r ->
    exists matrix jacobian, r = PyTuple [matrix; jacobian].

(** C7, on the code.  [pnp_ransac_single_instance] ends with
    [cv2.Rodrigues(rodrigues_rotation_vector.T).T]: the attribute [T] is taken
    of the pair that [cv2.Rodrigues] returns, not of its first component.  So
    the method returns on no input; and on an input on which the solver
    reports convergence, with its rotation vector, translation vector and
    inlier indices, and all steps before succeed, it raises AttributeError
    where the inlier positions and the rotation matrix were to be returned. *)
Theorem converged_pose_raises_AttributeError `{NumpyMath} `{Scipy} `{Cv2Solve}
    (self : Kaggle.ModelsHandler) (data : ndarray Z) (model_id : Z) :
  rodrigues_returns_pair ->
  (forall res, Kaggle.pnp_ransac_single_instance self data model_id <> Ok res) /\
  (forall tbl rows hs rs object_points rvec tvec inliers_shape inliers positions r,
     Kaggle.get_color_to_3dpoints_arrays self model_id = Ok tbl ->
     nd_rows data = Ok rows ->
     rows_column rows 2 = Ok hs ->
     rows_column rows 3 = Ok rs ->
     mapM (fun hr => table_get tbl (fst hr) (snd hr)) (combine hs rs)
       = Ok object_points ->
     solvePnPRansac object_points (map (firstn 2) rows) Kaggle.camera_matrix
       = Ok (PyBool true, PyFloatArray rvec, PyFloatArray tvec,
             PyIntArray (mk_nd inliers_shape inliers)) ->
     np_take (map (firstn 2) rows) inliers = Ok positions ->
     Rodrigues (PyFloatArray (nd_transpose 0%Q rvec)) = Ok r ->
     Kaggle.pnp_ransac_single_instance self data model_id = Err AttributeError).
Proof.
  intros Hpair. split.
  - intros res Hres.
    destruct (single_instance_raises_on_rodrigues_pair self data model_id Hpair)
      as [e He].
    rewrite He in Hres. discriminate Hres.
  - intros tbl rows hs rs object_points rvec tvec inliers_shape inliers positions r
      Htbl Hrows Hhs Hrs Hobj Hsolve Htake Hrod.
    unfold Kaggle.pnp_ransac_single_instance.
    rewrite Htbl. cbn [mbind result_bind]. rewrite Hrows. cbn [mbind result_bind].
    rewrite Hhs. cbn [mbind result_bind]. rewrite Hrs. cbn [mbind result_bind].
    rewrite Hobj. cbn [mbind result_bind]. rewrite Hsolve.
    cbn [mbind result_bind py_flatten py_take_rows flatten].
    change (np_take (map (firstn 2) rows) _) with (np_take (map (firstn 2) rows) inliers).
    rewrite Htake.
    cbn [mbind result_bind py_T]. rewrite Hrod. cbn [mbind result_bind].
    destruct (Hpair _ _ Hrod) as (matrix & jacobian & ->). reflexivity.
Qed.

Lemma converged_pose_raises_AttributeError_witness :
  @Kaggle.pnp_ransac_single_instance pseudo_math first_match_scipy pose_opencv
    pillar_kaggle (mk_nd [2; 4]%nat [10; 20; 0; 0; 11; 21; 5; -1]) 9
  = Err AttributeError.
Proof.
  assert (Hpair : @rodrigues_returns_pair pose_opencv).
  { intros rvec r Hr. injection Hr as <-. eexists _, _. reflexivity. }
  destruct (@Kaggle.get_color_to_3dpoints_arrays pseudo_math first_match_scipy
              pillar_kaggle 9) as [tbl|e] eqn:Etbl;
    [|vm_compute in Etbl; discriminate Etbl].
  destruct (mapM (fun hr : Z * Z => table_get tbl (fst hr) (snd hr))
                 (combine [0; 5] [0; -1])) as [object_points|e] eqn:Eobj.
  2:{ exfalso. revert Eobj.
      unfold Kaggle.get_color_to_3dpoints_arrays in Etbl.
      vm_compute in Etbl. injection Etbl as <-. vm_compute. discriminate. }
  apply (proj2 (@converged_pose_raises_AttributeError pseudo_math first_match_scipy
                  pose_opencv pillar_kaggle
                  (mk_nd [2; 4]%nat [10; 20; 0; 0; 11; 21; 5; -1]) 9 Hpair)
           tbl [[10; 20; 0; 0]; [11; 21; 5; -1]] [0; 5] [0; -1] object_points
           (mk_nd [3; 1]%nat [0; 0; 0]%Q) (mk_nd [3; 1]%nat [0; 0; 1]%Q)
           [1; 1]%nat [0] [[10; 20]]
           (PyTuple
              [PyFloatArray (mk_nd [3; 3]%nat [1; 0; 0; 0; 1; 0; 0; 0; 1]%Q);
               PyFloatArray (mk_nd [3; 9]%nat (repeat 0%Q 27))]));
    first [exact Etbl | exact Eobj | reflexivity].
Defined.

(** * Further parts of the handlers *)

From Stdlib Require Import Ascii.

(** ** Poses of the Kaggle annotation: [euler_to_Rot] *)

(** [math.sin] and [math.cos], as functions on floats. *)
Class PyMath := {
  sin : Q -> Q;
  cos : Q -> Q
}.

(** [np.dot(a, b)] of two 3x3 matrices: row [i] of the product is row [i] of
    [a] times [b]. *)
Definition np_dot (a b : mat3) : mat3 :=
  (vecmat (row0 a) b, vecmat (row1 a) b, vecmat (row2 a) b).

Definition euler_to_Rot `{PyMath} (yaw pitch roll : Q) : mat3 :=
  let Y := ((cos yaw, 0, sin yaw),
            (0, 1, 0),
            (- sin yaw, 0, cos yaw))%Q in
  let P := ((1, 0, 0),
            (0, cos pitch, - sin pitch),
            (0, sin pitch, cos pitch))%Q in
  let R := ((cos roll, - sin roll, 0),
            (sin roll, cos roll, 0),
            (0, 0, 1))%Q in
  np_dot Y (np_dot P R).

(** Equality of floats entry by entry. *)
Definition point_eq (a b : point3) : Prop :=
  (px a == px b /\ py a == py b /\ pz a == pz b)%Q.

Definition mat_eq (a b : mat3) : Prop :=
  point_eq (row0 a) (row0 b) /\ point_eq (row1 a) (row1 b) /\
  point_eq (row2 a) (row2 b).



(** Squared distance of two points. *)
Definition sqdist (a b : point3) : Q :=
  ((px a - px b) * (px a - px b) + (py a - py b) * (py a - py b)
   + (pz a - pz b) * (pz a - pz b))%Q.

(** A sine and cosine on the rationals that satisfy the Pythagorean identity
    exactly: the rational parametrisation of the circle. *)
Definition circle_math : PyMath :=
  {| sin := fun a => (2 * a / (1 + a * a))%Q;
     cos := fun a => ((1 - a * a) / (1 + a * a))%Q |}.




Definition sqnorm (v : point3) : Q := (px v * px v + py v * py v + pz v * pz v)%Q.




Lemma In_combine_map {A B} (f : A -> B) (l : list A) (a : A) (b : B) :
  In (a, b) (combine l (map f l)) -> b = f a.
Proof.
  induction l as [|x l IH]; simpl; [intros []|].
  intros [E | Hin]; [injection E as <- <-; reflexivity | exact (IH Hin)].
Qed.





(** ** Scenes of the Kaggle handler *)

(** A Python number used as a dictionary key: a float of integral value
    hashes and compares as that integer, any other float is no key of
    [car_id2name]. *)
Definition number_key (q : Q) : option Z :=
  let r := Qred q in
  if (Qden r =? 1)%positive then Some (Qnum r) else None.

(** One row of [zip(model_types, kaggle_yaws, kaggle_pitches, kaggle_rolls,
    xs, ys, zs)]. *)
Definition annotation : Type := Q * Q * Q * Q * Q * Q * Q.

(** [float(foo[-1])] *)
Definition depth_of (foo : annotation) : Q := snd foo.

(** [zip] of seven lists: as long as the shortest. *)
Fixpoint zip7 (a b c d e f g : list Q) : list annotation :=
  match a, b, c, d, e, f, g with
  | a0 :: a, b0 :: b, c0 :: c, d0 :: d, e0 :: e, f0 :: f, g0 :: g =>
      (a0, b0, c0, d0, e0, f0, g0) :: zip7 a b c d e f g
  | _, _, _, _, _, _, _ => []
  end.

(** [sorted(l, key=key, reverse=True)]: greatest key first; the sort is
    stable, rows of equal key stay in the order of [l]. *)
Fixpoint insert_descending {A} (key : A -> Q) (a : A) (l : list A) : list A :=
  match l with
  | [] => [a]
  | b :: r => if Qle_bool (key b) (key a) then a :: b :: r
              else b :: insert_descending key a r
  end.

Definition sorted_reverse {A} (key : A -> Q) (l : list A) : list A :=
  fold_right (insert_descending key) [] l.

(** [l[start::step]] for a positive [step]. *)
Fixpoint slice_step {A} (skip step : nat) (l : list A) : list A :=
  match l with
  | [] => []
  | a :: r =>
      match skip with
      | O => a :: slice_step (step - 1) step r
      | S k => slice_step k step r
      end
  end.

(** [s.split(sep)] for a separator of one character. *)
Fixpoint split_on (sep : Ascii.ascii) (s : string) : list string :=
  match s with
  | EmptyString => [EmptyString]
  | String c r =>
      if Ascii.eqb c sep then EmptyString :: split_on sep r
      else match split_on sep r with
           | h :: t => String c h :: t
           | [] => [String c EmptyString]
           end
  end.

(** [float(x)] on a string: the number read, or [None] for ValueError. *)
Class PyFloat := {
  py_float : string -> option Q
}.

Definition float_of `{PyFloat} (x : string) : result Q :=
  match py_float x with
  | Some q => Ok q
  | None => Err ValueError
  end.

Section Scene.
Context `{PyMath} `{NumpyMath} `{NumpySort} `{Cv2Draw} `{PyFloat}.

(** [draw_kaggle_model(img, *foo)]; the image is drawn on in place, the
    result here is the image after the drawing. *)
Definition draw_kaggle_model (self : Kaggle.ModelsHandler) (img : image)
    (foo : annotation) : result image :=
  let '(model_id, kaggle_yaw, kaggle_pitch, kaggle_roll, x, y, z) := foo in
  let yaw := (- kaggle_pitch)%Q in
  let pitch := (- kaggle_yaw)%Q in
  let roll := (- kaggle_roll)%Q in
  let rotation_matrix := euler_to_Rot yaw pitch roll in
  match number_key model_id with
  | Some k => Kaggle.draw_model self img k (x, y, z) rotation_matrix
  | None => Err KeyError
  end.

(** The [for] loop of [draw_kaggle_models] over rows already in order. *)
Fixpoint draw_each (self : Kaggle.ModelsHandler) (img : image)
    (foos : list annotation) : result image :=
  match foos with
  | [] => Ok img
  | foo :: rest =>
      img ← draw_kaggle_model self img foo;
      draw_each self img rest
  end.

Definition draw_kaggle_models (self : Kaggle.ModelsHandler) (img : image)
    (model_types kaggle_yaws kaggle_pitches kaggle_rolls xs ys zs : list Q)
  : result image :=
  draw_each self img
    (sorted_reverse depth_of
       (zip7 model_types kaggle_yaws kaggle_pitches kaggle_rolls xs ys zs)).

Definition draw_kaggle_models_from_kaggle_string (self : Kaggle.ModelsHandler)
    (img : image) (kaggle_string : string) : result image :=
  let items := split_on " "%char kaggle_string in
  items ← mapM float_of items;
  draw_kaggle_models self img
    (slice_step 0 7 items) (slice_step 1 7 items) (slice_step 2 7 items)
    (slice_step 3 7 items) (slice_step 4 7 items) (slice_step 5 7 items)
    (slice_step 6 7 items).

End Scene.

(** [np.zeros(sh, dtype=np.int16)] *)
Definition np_zeros (sh : list nat) : ndarray Z := mk_nd sh (repeat 0 (nd_size sh)).

(** [mask[:, :, 0] = v] on a three-dimensional array. *)
Definition set_channel0 (mask : ndarray Z) (v : Z) : result (ndarray Z) :=
  match shape mask with
  | [_; _; c] =>
      if (c =? 0)%nat then Err IndexError
      else Ok (mk_nd (shape mask)
                 (imap (fun i x => if (i mod c =? 0)%nat then v else x) (data mask)))
  | _ => Err IndexError
  end.

(** OpenCV drawing on a NumPy integer array. *)
Definition array_canvas (project : list point3 -> mat3 -> list (Q * Q))
    (fill : ndarray Z -> list (Z * Z) -> list Z -> ndarray Z) : Cv2Draw :=
  {| image := ndarray Z; projectPoints := project; fillConvexPoly := fill |}.

(** Python sequences of integers: a tuple, as [img.shape] is, or a list. *)
Inductive pyseq : Type :=
  | SeqTuple (items : list Z)
  | SeqList (items : list Z).

Definition seq_items (s : pyseq) : list Z :=
  match s with
  | SeqTuple items => items
  | SeqList items => items
  end.

(** [a + b]: a tuple is concatenated with a tuple and a list with a list; a
    tuple and a list cannot be added (TypeError). *)
Definition seq_add (a b : pyseq) : result pyseq :=
  match a, b with
  | SeqTuple x, SeqTuple y => Ok (SeqTuple (x ++ y))
  | SeqList x, SeqList y => Ok (SeqList (x ++ y))
  | _, _ => Err TypeError
  end.

(** [s[:n]]: a slice of a tuple is a tuple, a slice of a list a list. *)
Definition seq_prefix (n : nat) (s : pyseq) : pyseq :=
  match s with
  | SeqTuple items => SeqTuple (firstn n items)
  | SeqList items => SeqList (firstn n items)
  end.

(** [o.shape]: the tuple of the dimensions of an array; no other object here
    has the attribute. *)
Definition py_shape (o : pyobj) : result pyseq :=
  match o with
  | PyFloatArray a => Ok (SeqTuple (map Z.of_nat (shape a)))
  | PyIntArray a => Ok (SeqTuple (map Z.of_nat (shape a)))
  | _ => Err AttributeError
  end.

(** [np.zeros(s, dtype=np.int16)] for a sequence of dimensions; a negative
    dimension is a ValueError. *)
Definition np_zeros_of (s : pyseq) : result (ndarray Z) :=
  if forallb (fun d => 0 <=? d) (seq_items s)
  then Ok (np_zeros (map Z.to_nat (seq_items s)))
  else Err ValueError.

(** [make_mask_from_kaggle_string]: [if img] takes the truth value of [img];
    the shape of the mask is [img.shape[:2] + [3]] then, and
    [[2710, 3384, 3]] otherwise. *)
Definition make_mask_from_kaggle_string
    `{NumpyRelease} `{PyMath} `{NumpyMath} `{NumpySort} `{PyFloat}
    (project : list point3 -> mat3 -> list (Q * Q))
    (fill : ndarray Z -> list (Z * Z) -> list Z -> ndarray Z)
    (self : Kaggle.ModelsHandler) (kaggle_string : string) (img : pyobj)
  : result (ndarray Z) :=
  use_img ← truthy img;
  mask ← (if use_img : bool then
            sh ← py_shape img;
            dims ← seq_add (seq_prefix 2 sh) (SeqList [3]);
            np_zeros_of dims
          else np_zeros_of (SeqList [2710; 3384; 3]));
  mask ← set_channel0 mask (-1);
  @draw_kaggle_models_from_kaggle_string _ _ _ (array_canvas project fill) _
    self mask kaggle_string.

(** *** The order in which the cars of a scene are drawn *)

Lemma insert_descending_perm {A} (key : A -> Q) (a : A) (l : list A) :
  Permutation (insert_descending key a l) (a :: l).
Proof.
  induction l as [|b l IH]; simpl; [reflexivity|].
  destruct (Qle_bool (key b) (key a)); [reflexivity|].
  rewrite IH. apply perm_swap.
Qed.

Lemma sorted_reverse_perm {A} (key : A -> Q) (l : list A) :
  Permutation (sorted_reverse key l) l.
Proof.
  induction l as [|a l IH]; simpl; [reflexivity|].
  rewrite insert_descending_perm. now constructor.
Qed.

Lemma insert_descending_sorted {A} (key : A -> Q) (a : A) (l : list A) :
  StronglySorted (fun x y => (key y <= key x)%Q) l ->
  StronglySorted (fun x y => (key y <= key x)%Q) (insert_descending key a l).
Proof.
  induction 1 as [|b l Hs IH Hb]; simpl; [repeat constructor|].
  destruct (Qle_bool (key b) (key a)) eqn:E.
  - apply Qle_bool_iff in E. constructor; [constructor; assumption|].
    constructor; [exact E|].
    rewrite List.Forall_forall in *. intros x Hx.
    apply Qle_trans with (key b); [apply Hb, Hx | exact E].
  - assert (Hlt : (key a < key b)%Q).
    { apply Qnot_le_lt. intros Hle. apply Qle_bool_iff in Hle. congruence. }
    constructor; [exact IH|].
    rewrite List.Forall_forall in *. intros x Hx.
    apply (Permutation_in _ (insert_descending_perm key a l)) in Hx.
    destruct Hx as [<- | Hx]; [apply Qlt_le_weak, Hlt | apply Hb, Hx].
Qed.

Lemma sorted_reverse_sorted {A} (key : A -> Q) (l : list A) :
  StronglySorted (fun x y => (key y <= key x)%Q) (sorted_reverse key l).
Proof.
  induction l as [|a l IH]; simpl; [constructor|].
  now apply insert_descending_sorted.
Qed.

(** Stability: among the rows of one key nothing moves. *)
Lemma insert_descending_stable {A} (key : A -> Q) (q : Q) (a : A) (l : list A) :
  List.filter (fun x => Qeq_bool (key x) q) (insert_descending key a l)
  = List.filter (fun x => Qeq_bool (key x) q) (a :: l).
Proof.
  induction l as [|b l IH]; [reflexivity|].
  cbn [insert_descending].
  destruct (Qle_bool (key b) (key a)) eqn:E; [reflexivity|].
  cbn [List.filter] in *. rewrite IH.
  destruct (Qeq_bool (key a) q) eqn:Ea; [|reflexivity].
  destruct (Qeq_bool (key b) q) eqn:Eb; [|reflexivity].
  exfalso. apply Qeq_bool_iff in Ea, Eb.
  assert (Hle : (key b <= key a)%Q) by (rewrite Ea, Eb; apply Qle_refl).
  apply Qle_bool_iff in Hle. congruence.
Qed.

Lemma sorted_reverse_stable {A} (key : A -> Q) (q : Q) (l : list A) :
  List.filter (fun x => Qeq_bool (key x) q) (sorted_reverse key l)
  = List.filter (fun x => Qeq_bool (key x) q) l.
Proof.
  induction l as [|a l IH]; [reflexivity|].
  cbn [sorted_reverse fold_right]. rewrite insert_descending_stable.
  cbn [List.filter]. fold (sorted_reverse key l). now rewrite IH.
Qed.

(** X3.  [draw_kaggle_models] draws the cars of a scene one after the other,
    each zipped row once (the rows are as many as the shortest of the seven
    lists), in an order in which the depth [z] never increases: a car is at
    least as far from the camera as every car drawn after it.  Cars of equal
    depth are drawn in the order in which they are listed. *)
Theorem cars_drawn_farthest_first `{PyMath} `{NumpyMath} `{NumpySort} `{Cv2Draw}
    (self : Kaggle.ModelsHandler) (img : image)
    (model_types kaggle_yaws kaggle_pitches kaggle_rolls xs ys zs : list Q) :
  exists order,
    draw_kaggle_models self img model_types kaggle_yaws kaggle_pitches
      kaggle_rolls xs ys zs = draw_each self img order /\
    Permutation order
      (zip7 model_types kaggle_yaws kaggle_pitches kaggle_rolls xs ys zs) /\
    StronglySorted (fun a b => (depth_of b <= depth_of a)%Q) order /\
    forall q,
      List.filter (fun a => Qeq_bool (depth_of a) q) order
      = List.filter (fun a => Qeq_bool (depth_of a) q)
          (zip7 model_types kaggle_yaws kaggle_pitches kaggle_rolls xs ys zs).
Proof.
  eexists. split; [reflexivity|].
  split; [apply sorted_reverse_perm|].
  split; [apply sorted_reverse_sorted|].
  intros q. apply sorted_reverse_stable.
Qed.

(** *** The annotation string *)

(** The seven numbers of a row, in the order of the string. *)
Definition fields (foo : annotation) : list Q :=
  let '(model_type, yaw, pitch, roll, x, y, z) := foo in
  [model_type; yaw; pitch; roll; x; y; z].

Lemma slices_of_rows (rows : list annotation) (rest : list Q) :
  (length rest < 7)%nat ->
  let items := concat (map fields rows) ++ rest in
  zip7 (slice_step 0 7 items) (slice_step 1 7 items) (slice_step 2 7 items)
       (slice_step 3 7 items) (slice_step 4 7 items) (slice_step 5 7 items)
       (slice_step 6 7 items) = rows.
Proof.
  intros Hrest. induction rows as [|[[[[[[a b] c] d] e] f] g] rows IH].
  - simpl.
    do 7 (destruct rest as [|? rest]; [reflexivity|]).
    simpl in Hrest. lia.
  - cbn zeta in IH |- *.
    cbn [map fields concat app slice_step Nat.sub zip7].
    f_equal. exact IH.
Qed.

Lemma mapM_float_err `{PyFloat} (tok : string) (l : list string) :
  In tok l -> py_float tok = None -> mapM float_of l = Err ValueError.
Proof.
  intros Hin Hnone. induction l as [|x l IH]; [destruct Hin|].
  cbn [mapM].
  destruct (float_of x) as [q|e] eqn:Ex; cbn [mbind result_bind].
  - destruct Hin as [-> | Hin].
    + unfold float_of in Ex. rewrite Hnone in Ex. discriminate Ex.
    + rewrite (IH Hin). reflexivity.
  - unfold float_of in Ex. destruct (py_float x); [discriminate Ex|].
    injection Ex as <-. reflexivity.
Qed.

(** A [float] for the examples: unsigned decimal integers. *)
Fixpoint digits_value (acc : Z) (s : string) : option Z :=
  match s with
  | EmptyString => Some acc
  | String c r =>
      let n := Z.of_nat (nat_of_ascii c) in
      if (48 <=? n) && (n <=? 57) then digits_value (10 * acc + (n - 48)) r
      else None
  end.

Definition digits_float : PyFloat :=
  {| py_float := fun s =>
       match s with
       | EmptyString => None
       | _ => option_map inject_Z (digits_value 0 s)
       end |}.

(** X4.  [draw_kaggle_models_from_kaggle_string] reads the numbers of the
    string in groups of seven, [model_type yaw pitch roll x y z]: when every
    token is a number, the cars drawn are exactly the complete groups, each
    once and farthest first; up to six numbers left over at the end are
    ignored without an error. *)
Theorem annotation_string_is_read_in_sevens
    `{PyMath} `{NumpyMath} `{NumpySort} `{Cv2Draw} `{PyFloat}
    (self : Kaggle.ModelsHandler) (img : image) (kaggle_string : string)
    (rows : list annotation) (rest : list Q) :
  mapM float_of (split_on " " kaggle_string)
    = Ok (concat (map fields rows) ++ rest) ->
  (length rest < 7)%nat ->
  exists order,
    draw_kaggle_models_from_kaggle_string self img kaggle_string
      = draw_each self img order /\
    Permutation order rows /\
    StronglySorted (fun a b => (depth_of b <= depth_of a)%Q) order.
Proof.
  intros Hitems Hrest.
  exists (sorted_reverse depth_of rows).
  split; [|split; [apply sorted_reverse_perm | apply sorted_reverse_sorted]].
  unfold draw_kaggle_models_from_kaggle_string. rewrite Hitems.
  cbn [mbind result_bind]. unfold draw_kaggle_models.
  now rewrite (slices_of_rows rows rest Hrest).
Qed.

Lemma annotation_string_is_read_in_sevens_witness :
  exists order,
    @draw_kaggle_models_from_kaggle_string circle_math pseudo_math insertion_sort
      recording_draw digits_float wedge_kaggle []
      "3 0 0 0 1 2 9 3 0 0 0 4 5 16 8"
      = @draw_each circle_math pseudo_math insertion_sort recording_draw
          wedge_kaggle [] order /\
    Permutation order [(3, 0, 0, 0, 1, 2, 9); (3, 0, 0, 0, 4, 5, 16)]%Q /\
    StronglySorted (fun a b => (depth_of b <= depth_of a)%Q) order.
Proof.
  apply (@annotation_string_is_read_in_sevens circle_math pseudo_math
           insertion_sort recording_draw digits_float wedge_kaggle []
           "3 0 0 0 1 2 9 3 0 0 0 4 5 16 8"
           [(3, 0, 0, 0, 1, 2, 9); (3, 0, 0, 0, 4, 5, 16)]%Q [8%Q]).
  - reflexivity.
  - simpl. lia.
Defined.

(** X5.  A token of the annotation string that is no number makes
    [draw_kaggle_models_from_kaggle_string] raise ValueError before anything
    is drawn.  The tokens are the pieces between single spaces, so a doubled
    space, a trailing space or the empty string all give an empty token. *)
Theorem annotation_string_with_bad_token
    `{PyMath} `{NumpyMath} `{NumpySort} `{Cv2Draw} `{PyFloat}
    (self : Kaggle.ModelsHandler) (img : image) (kaggle_string tok : string) :
  In tok (split_on " " kaggle_string) ->
  py_float tok = None ->
  draw_kaggle_models_from_kaggle_string self img kaggle_string = Err ValueError.
Proof.
  intros Hin Hnone. unfold draw_kaggle_models_from_kaggle_string.
  now rewrite (mapM_float_err tok _ Hin Hnone).
Qed.

Lemma annotation_string_with_bad_token_witness :
  @draw_kaggle_models_from_kaggle_string circle_math pseudo_math insertion_sort
    recording_draw digits_float wedge_kaggle [] "3 0 0 0 1 2  9"
  = Err ValueError.
Proof.
  apply (@annotation_string_with_bad_token circle_math pseudo_math insertion_sort
           recording_draw digits_float wedge_kaggle [] "3 0 0 0 1 2  9" "").
  - simpl. tauto.
  - reflexivity.
Defined.

(** *** The blank mask *)

(** [img.shape[:2] + [3]] raises for every object: one without [shape]
    has no such attribute, and the shape of an array is a tuple, to which the
    list [[3]] cannot be added. *)
Lemma image_shape_expression_raises (img : pyobj) :
  raises (sh ← py_shape img;
          dims ← seq_add (seq_prefix 2 sh) (SeqList [3]);
          np_zeros_of dims).
Proof. destruct img; eexists; reflexivity. Qed.

(** X6.  [make_mask_from_kaggle_string] cannot copy the resolution of an
    image.  Whatever is passed for [img], a mask that is returned is the one
    returned when no image is passed, of 2710 x 3384 pixels: where [if img]
    holds, the shape expression raises.  Given an array of two or more
    elements the test [if img] itself raises ValueError; given a one-element
    array that is not zero the shape expression raises TypeError; given a
    one-element array that is zero the array is ignored. *)
Theorem mask_never_takes_the_image_resolution
    `{NumpyRelease} `{PyMath} `{NumpyMath} `{NumpySort} `{PyFloat}
    (project : list point3 -> mat3 -> list (Q * Q))
    (fill : ndarray Z -> list (Z * Z) -> list Z -> ndarray Z)
    (self : Kaggle.ModelsHandler) (kaggle_string : string)
    (img : pyobj) (a : ndarray Z) :
  (forall mask,
     make_mask_from_kaggle_string project fill self kaggle_string img = Ok mask ->
     make_mask_from_kaggle_string project fill self kaggle_string PyNone = Ok mask) /\
  ((2 <= length (data a))%nat ->
   make_mask_from_kaggle_string project fill self kaggle_string (PyIntArray a)
   = Err ValueError) /\
  (forall x, data a = [x] -> x <> 0 ->
   make_mask_from_kaggle_string project fill self kaggle_string (PyIntArray a)
   = Err TypeError) /\
  (data a = [0] ->
   make_mask_from_kaggle_string project fill self kaggle_string (PyIntArray a)
   = make_mask_from_kaggle_string project fill self kaggle_string PyNone).
Proof.
  split; [|split; [|split]].
  - intros mask. unfold make_mask_from_kaggle_string.
    destruct (truthy img) as [[|]|e] eqn:Et; cbn [mbind result_bind truthy].
    + destruct (image_shape_expression_raises img) as [e He].
      change (mbind (fun sh => mbind (fun dims => np_zeros_of dims)
                                 (seq_add (seq_prefix 2 sh) (SeqList [3])))
                (py_shape img)) with
        (sh ← py_shape img;
         dims ← seq_add (seq_prefix 2 sh) (SeqList [3]);
         np_zeros_of dims).
      rewrite He. discriminate.
    + intros Hm. exact Hm.
    + discriminate.
  - intros Hlen. unfold make_mask_from_kaggle_string. cbn [truthy].
    destruct (data a) as [|x [|y l]]; simpl in Hlen; try lia.
    reflexivity.
  - intros x Hx Hne. unfold make_mask_from_kaggle_string. cbn [truthy].
    rewrite Hx. destruct (Z.eqb_spec x 0); [contradiction|]. reflexivity.
  - intros Hx. unfold make_mask_from_kaggle_string. cbn [truthy].
    rewrite Hx. reflexivity.
Qed.

(** An image array without elements: NumPy up to 2.1 takes it for false and
    the mask is the default one; NumPy from 2.2 on raises ValueError. *)
Example mask_for_an_empty_image `{PyMath} `{NumpyMath} `{NumpySort} `{PyFloat}
    (project : list point3 -> mat3 -> list (Q * Q))
    (fill : ndarray Z -> list (Z * Z) -> list Z -> ndarray Z)
    (self : Kaggle.ModelsHandler) (kaggle_string : string) :
  @make_mask_from_kaggle_string numpy_1 _ _ _ _ project fill self kaggle_string
     (PyIntArray (mk_nd [0; 0; 3]%nat []))
  = @make_mask_from_kaggle_string numpy_1 _ _ _ _ project fill self kaggle_string PyNone /\
  @make_mask_from_kaggle_string numpy_2_2 _ _ _ _ project fill self kaggle_string
     (PyIntArray (mk_nd [0; 0; 3]%nat []))
  = Err ValueError.
Proof. split; reflexivity. Qed.

(** ** Colour codes and the size of the lookup table *)

Lemma interpolate_table_resolution `{Scipy} (points : list (Z * Z))
    (values : list point3) (R : nat) (tbl : lookup_table) :
  interpolate_table points values R = Ok tbl -> resolution tbl = R.
Proof.
  unfold interpolate_table.
  destruct (griddata points values R Linear); cbn [mbind result_bind]; [|discriminate].
  destruct (griddata points values R Nearest); cbn [mbind result_bind]; [|discriminate].
  intros E. injection E as <-. reflexivity.
Qed.

Lemma norm_index_outside (n : nat) (i : Z) :
  ~ (- Z.of_nat n <= i < Z.of_nat n) -> norm_index n i = Err IndexError.
Proof.
  intros Hi. unfold norm_index.
  destruct (Z.ltb_spec i 0).
  - destruct (Z.leb_spec 0 (Z.of_nat n + i)); [|reflexivity].
    destruct (Z.ltb_spec (Z.of_nat n + i) (Z.of_nat n)); [lia | reflexivity].
  - destruct (Z.leb_spec 0 i); [|reflexivity].
    destruct (Z.ltb_spec i (Z.of_nat n)); [lia | reflexivity].
Qed.

Lemma table_get_inside (tbl : lookup_table) (i j : Z) :
  0 <= i < Z.of_nat (resolution tbl) -> 0 <= j < Z.of_nat (resolution tbl) ->
  table_get tbl i j = Ok (cell tbl (Z.to_nat i) (Z.to_nat j)).
Proof.
  intros Hi Hj. unfold table_get.
  rewrite (norm_index_in_range _ _ Hi). cbn [mbind result_bind].
  rewrite (norm_index_in_range _ _ Hj). reflexivity.
Qed.

Lemma table_get_outside (tbl : lookup_table) (i j : Z) :
  ~ (- Z.of_nat (resolution tbl) <= i < Z.of_nat (resolution tbl)) ->
  table_get tbl i j = Err IndexError.
Proof.
  intros Hi. unfold table_get. now rewrite (norm_index_outside _ _ Hi).
Qed.

(** X7.  In the Kaggle handler the codes of the codec fit the table: for a
    model of positive height and angle extent, [color_points] gives one row
    per vertex, and the table [get_color_to_3dpoints_arrays] builds, which
    has 256 rows and columns, can be read at the code of every vertex
    without an IndexError. *)
Theorem kaggle_codes_index_the_table `{NumpyMath} `{Scipy}
    (self : Kaggle.ModelsHandler) (model_id : Z)
    (vertices : list point3) (triangles : list triangle)
    (hlo hhi rlo rhi : Q) (tbl : lookup_table) :
  Kaggle.model_id_to_vertices_and_triangles self model_id = Ok (vertices, triangles) ->
  amin (map py vertices) = Ok hlo -> amax (map py vertices) = Ok hhi ->
  amin (map (fun p => arctan2 (px p) (pz p)) vertices) = Ok rlo ->
  amax (map (fun p => arctan2 (px p) (pz p)) vertices) = Ok rhi ->
  (hlo < hhi)%Q -> (rlo < rhi)%Q ->
  Kaggle.get_color_to_3dpoints_arrays self model_id = Ok tbl ->
  resolution tbl = 256%nat /\
  exists colors,
    Kaggle.color_points vertices model_id = Ok colors /\
    length colors = length vertices /\
    forall c, In c colors ->
      table_get tbl (snd (fst c)) (snd c)
      = Ok (cell tbl (Z.to_nat (snd (fst c))) (Z.to_nat (snd c))).
Proof.
  intros Hm H1 H2 H3 H4 Hh Hr Ht.
  destruct (color_points_extremes vertices model_id hlo hhi rlo rhi H1 H2 H3 H4 Hh Hr)
    as (colors & Hc & Hrange & _).
  assert (Hres : resolution tbl = 256%nat).
  { unfold Kaggle.get_color_to_3dpoints_arrays in Ht. rewrite Hm in Ht.
    cbn [mbind result_bind fst] in Ht. rewrite Hc in Ht.
    cbn [mbind result_bind] in Ht.
    exact (interpolate_table_resolution _ _ _ _ Ht). }
  split; [exact Hres|].
  exists colors. split; [exact Hc|]. split.
  - rewrite (color_points_rows vertices model_id hlo hhi rlo rhi H1 H2 H3 H4) in Hc.
    injection Hc as <-. apply length_map.
  - intros c Hin. destruct (Hrange c Hin) as [Hu Hv].
    apply table_get_inside; rewrite Hres; lia.
Qed.

Lemma kaggle_codes_index_the_table_witness :
  exists tbl,
    @Kaggle.get_color_to_3dpoints_arrays pseudo_math first_match_scipy pillar_kaggle 9
      = Ok tbl /\
    resolution tbl = 256%nat /\
    exists colors,
      @Kaggle.color_points pseudo_math pillar_vertices 9 = Ok colors /\
      length colors = length pillar_vertices /\
      forall c, In c colors ->
        table_get tbl (snd (fst c)) (snd c)
        = Ok (cell tbl (Z.to_nat (snd (fst c))) (Z.to_nat (snd c))).
Proof.
  destruct (@Kaggle.get_color_to_3dpoints_arrays pseudo_math first_match_scipy
              pillar_kaggle 9) as [tbl|e] eqn:E; [|vm_compute in E; discriminate E].
  exists tbl. split; [reflexivity|].
  apply (@kaggle_codes_index_the_table pseudo_math first_match_scipy pillar_kaggle 9
           pillar_vertices [(0, 2, 1); (0, 1, 3)] (-1) 1 (-1) 1 tbl).
  - reflexivity.
  - reflexivity.
  - reflexivity.
  - reflexivity.
  - reflexivity.
  - reflexivity.
  - reflexivity.
  - exact E.
Defined.

Lemma Qtrunc_integer (q : Q) (n : Z) : (q == inject_Z n)%Q -> Qtrunc q = n.
Proof.
  intros E. unfold Qtrunc. destruct q as [a d].
  unfold Qeq in E. simpl in E. rewrite Z.mul_1_r in E. subst a.
  simpl. apply Z.quot_mul. discriminate.
Qed.

Lemma fold_Qmin_le (r : list Q) (a : Q) :
  (fold_left Qmin r a <= a)%Q /\ forall x, In x r -> (fold_left Qmin r a <= x)%Q.
Proof.
  revert a. induction r as [|b r IH]; intros a; simpl.
  - split; [apply Qle_refl | intros x []].
  - destruct (IH (Qmin a b)) as [H1 H2]. split.
    + eapply Qle_trans; [exact H1 | apply Q.le_min_l].
    + intros x [<- | Hx]; [|apply H2, Hx].
      eapply Qle_trans; [exact H1 | apply Q.le_min_r].
Qed.

Lemma fold_Qmax_ge (r : list Q) (a : Q) :
  (a <= fold_left Qmax r a)%Q /\ forall x, In x r -> (x <= fold_left Qmax r a)%Q.
Proof.
  revert a. induction r as [|b r IH]; intros a; simpl.
  - split; [apply Qle_refl | intros x []].
  - destruct (IH (Qmax a b)) as [H1 H2]. split.
    + eapply Qle_trans; [apply Q.le_max_l | exact H1].
    + intros x [<- | Hx]; [|apply H2, Hx].
      eapply Qle_trans; [apply Q.le_max_r | exact H1].
Qed.

Lemma amin_le (x : list Q) (lo : Q) :
  amin x = Ok lo -> forall xi, In xi x -> (lo <= xi)%Q.
Proof.
  destruct x as [|a r]; simpl; intros E; [discriminate|].
  injection E as <-. destruct (fold_Qmin_le r a) as [H1 H2].
  intros xi [<- | Hx]; [exact H1 | apply H2, Hx].
Qed.

Lemma amax_ge (x : list Q) (hi : Q) :
  amax x = Ok hi -> forall xi, In xi x -> (xi <= hi)%Q.
Proof.
  destruct x as [|a r]; simpl; intros E; [discriminate|].
  injection E as <-. destruct (fold_Qmax_ge r a) as [H1 H2].
  intros xi [<- | Hx]; [exact H1 | apply H2, Hx].
Qed.

Lemma np_div_positive (a b : Q) : (0 < b)%Q -> np_div a b = Fin (a / b).
Proof.
  intros Hb. unfold np_div.
  destruct (Qeq_bool b 0) eqn:E; [|reflexivity].
  apply Qeq_bool_eq in E. lra.
Qed.

(** X9.  In the LineMOD handler the table is one row short: it has
    [color_resolution] rows, numbered from 0, while the height code of a
    highest vertex of a model of positive height extent is [color_resolution]
    itself.  Such a vertex exists in every such model, and reading the table
    at its code raises IndexError. *)
Theorem linemod_top_vertex_code_misses_the_table `{NumpyMath} `{Scipy}
    (self : Linemod.ModelsHandler) (model_name : string)
    (vertices : list point3) (lo hi : Q) (tbl : lookup_table) :
  Linemod.get_vertices self model_name = Ok vertices ->
  amin (map py vertices) = Ok lo -> amax (map py vertices) = Ok hi ->
  (lo < hi)%Q ->
  Linemod.get_color_to_3dpoints_arrays self model_name = Ok tbl ->
  exists uv,
    Linemod.color_uv vertices = Ok uv /\
    resolution tbl = Linemod.color_resolution self /\
    (exists i p, nth_error vertices i = Some p /\ py p = hi) /\
    forall i p c, nth_error vertices i = Some p -> (py p == hi)%Q ->
      nth_error uv i = Some c ->
      fst (Linemod.uv_code self c) = Z.of_nat (Linemod.color_resolution self) /\
      forall j, table_get tbl (fst (Linemod.uv_code self c)) j = Err IndexError.
Proof.
  intros Hv Hlo Hhi Hlt Ht.
  assert (Hcu : Linemod.color_uv vertices =
                Ok (map (fun p => (np_div (py p - lo) (hi - lo),
                                   np_div (arctan2 (px p) (pz p) + np_pi) (2 * np_pi)))
                        vertices)).
  { exact (color_uv_rows _ _ _ Hlo Hhi). }
  assert (Hres : resolution tbl = Linemod.color_resolution self).
  { unfold Linemod.get_color_to_3dpoints_arrays in Ht. rewrite Hv in Ht.
    cbn [mbind result_bind] in Ht. rewrite Hcu in Ht. cbn [mbind result_bind] in Ht.
    exact (interpolate_table_resolution _ _ _ _ Ht). }
  eexists. split; [exact Hcu|]. split; [exact Hres|]. split.
  - apply amax_In in Hhi. apply in_map_iff in Hhi as (p & Hp & Hin).
    apply In_nth_error in Hin as [i Hi]. eauto.
  - intros i p c Hi Hp Hc.
    rewrite nth_error_map, Hi in Hc. injection Hc as <-.
    assert (Hcode : fst (Linemod.uv_code self
                (np_div (py p - lo) (hi - lo),
                 np_div (arctan2 (px p) (pz p) + np_pi) (2 * np_pi)))
              = Z.of_nat (Linemod.color_resolution self)).
    { unfold Linemod.uv_code. cbn [fst snd].
      rewrite np_div_positive by lra. cbn [np_scale astype_int].
      apply Qtrunc_integer. rewrite Hp. field. lra. }
    split; [exact Hcode|].
    intros j. rewrite Hcode. apply table_get_outside. rewrite Hres. lia.
Qed.

Lemma linemod_top_vertex_code_misses_the_table_witness :
  exists tbl uv,
    @Linemod.get_color_to_3dpoints_arrays pseudo_math first_match_scipy
      wedge_linemod "wedge" = Ok tbl /\
    @Linemod.color_uv pseudo_math wedge_vertices = Ok uv /\
    resolution tbl = Linemod.color_resolution wedge_linemod /\
    (exists i p, nth_error wedge_vertices i = Some p /\ py p = 1%Q) /\
    forall i p c, nth_error wedge_vertices i = Some p -> (py p == 1)%Q ->
      nth_error uv i = Some c ->
      fst (Linemod.uv_code wedge_linemod c)
        = Z.of_nat (Linemod.color_resolution wedge_linemod) /\
      forall j, table_get tbl (fst (Linemod.uv_code wedge_linemod c)) j
                = Err IndexError.
Proof.
  destruct (@Linemod.get_color_to_3dpoints_arrays pseudo_math first_match_scipy
              wedge_linemod "wedge") as [tbl|e] eqn:E;
    [|vm_compute in E; discriminate E].
  exists tbl.
  destruct (@linemod_top_vertex_code_misses_the_table pseudo_math first_match_scipy
              wedge_linemod "wedge" wedge_vertices 0 1 tbl)
    as (uv & H1 & H2 & H3 & H4);
    [reflexivity | reflexivity | reflexivity | reflexivity | exact E |].
  exists uv. repeat split; try assumption; apply (H4 i p c); assumption.
Defined.

Lemma Qtrunc_between (q : Q) (n : Z) :
  (0 <= q)%Q -> (q <= inject_Z n)%Q -> 0 <= Qtrunc q <= n.
Proof.
  intros H0 Hn. unfold Qtrunc. destruct q as [a d].
  unfold Qle in *. simpl in *. rewrite Z.mul_1_r in H0. rewrite Z.mul_1_r in Hn.
  split.
  - apply Z.quot_pos; lia.
  - apply Z.quot_le_upper_bound; lia.
Qed.

Lemma face_mid_point_corners (P : list point3) (t : triangle) (m : point3) :
  face_mid_point P t = Ok m ->
  exists a b c, In a P /\ In b P /\ In c P /\ m = pdiv3 (padd (padd a b) c).
Proof.
  unfold face_mid_point. intros Hm.
  destruct (np_index P (tri0 t)) as [a|] eqn:Ea; cbn [mbind result_bind] in Hm;
    [|discriminate].
  destruct (np_index P (tri1 t)) as [b|] eqn:Eb; cbn [mbind result_bind] in Hm;
    [|discriminate].
  destruct (np_index P (tri2 t)) as [c|] eqn:Ec; cbn [mbind result_bind] in Hm;
    [|discriminate].
  injection Hm as <-. exists a, b, c.
  repeat split; try (eapply np_index_In; eassumption).
Qed.

Lemma mid_point_rows_corners (P : list point3) (ts : list triangle)
    (mid : list point3) :
  mid_point_rows P ts = Ok mid ->
  forall m, In m mid ->
    exists a b c, In a P /\ In b P /\ In c P /\ m = pdiv3 (padd (padd a b) c).
Proof.
  revert mid. induction ts as [|t ts IH]; intros mid Hm; simpl in Hm.
  - injection Hm as <-. intros m [].
  - destruct (face_mid_point P t) as [m0|] eqn:Et; cbn [mbind result_bind] in Hm;
      [|discriminate].
    destruct (mid_point_rows P ts) as [r|] eqn:Er; cbn [mbind result_bind] in Hm;
      [|discriminate].
    injection Hm as <-. intros m [<- | Hin].
    + eapply face_mid_point_corners; eassumption.
    + eapply IH; [reflexivity | exact Hin].
Qed.

Lemma faces_mid_points_corners (P : list point3) (ts : list triangle)
    (mid : list point3) :
  faces_mid_points P ts = Ok mid ->
  forall m, In m mid ->
    exists a b c, In a P /\ In b P /\ In c P /\ m = pdiv3 (padd (padd a b) c).
Proof.
  intros Hm. apply faces_mid_points_ok in Hm as [_ Hm].
  eapply mid_point_rows_corners; eassumption.
Qed.

(** X10.  The height colour of a face is a fraction of the model's height: in
    the LineMOD handler, for a model of positive height extent, every row of
    [get_faces_uv_colors] has a finite first component between 0 and 1, and
    its height code lies between 0 and [color_resolution]. *)
Theorem linemod_face_heights_are_fractions `{NumpyMath}
    (self : Linemod.ModelsHandler) (model_name : string)
    (vertices : list point3) (lo hi : Q) (colors : list (npfloat * npfloat)) :
  Linemod.get_vertices self model_name = Ok vertices ->
  amin (map py vertices) = Ok lo -> amax (map py vertices) = Ok hi ->
  (lo < hi)%Q ->
  Linemod.get_faces_uv_colors self model_name = Ok colors ->
  forall c, In c colors ->
    exists q, fst c = Fin q /\ (0 <= q)%Q /\ (q <= 1)%Q /\
              0 <= fst (Linemod.uv_code self c)
                <= Z.of_nat (Linemod.color_resolution self).
Proof.
  intros Hv Hlo Hhi Hlt Hc c Hin.
  unfold Linemod.get_faces_uv_colors, Linemod.get_faces_midpoints in Hc.
  rewrite Hv in Hc. cbn [mbind result_bind] in Hc.
  destruct (Linemod.get_faces self model_name) as [faces|]; cbn [mbind result_bind] in Hc;
    [|discriminate].
  destruct (faces_mid_points vertices faces) as [mid|] eqn:Em;
    cbn [mbind result_bind] in Hc; [|discriminate].
  rewrite Hhi, Hlo in Hc. cbn [mbind result_bind] in Hc. injection Hc as <-.
  apply in_map_iff in Hin as (m & <- & Hm). cbn [fst].
  destruct (faces_mid_points_corners _ _ _ Em m Hm) as (a & b & d & Ha & Hb & Hd & ->).
  assert (Hb3 : forall p, In p vertices -> (lo <= py p <= hi)%Q).
  { intros p Hp. split.
    - apply (amin_le _ _ Hlo). apply in_map. exact Hp.
    - apply (amax_ge _ _ Hhi). apply in_map. exact Hp. }
  pose proof (Hb3 a Ha) as [? ?]. pose proof (Hb3 b Hb) as [? ?].
  pose proof (Hb3 d Hd) as [? ?].
  rewrite np_div_positive by lra.
  set (y := py (pdiv3 (padd (padd a b) d))).
  assert (Hy : (y == (py a + py b + py d) / 3)%Q) by reflexivity.
  assert (Hy0 : (lo <= y)%Q) by (rewrite Hy; apply Qle_shift_div_l; lra).
  assert (Hy1 : (y <= hi)%Q) by (rewrite Hy; apply Qle_shift_div_r; lra).
  assert (Hq0 : (0 <= (y - lo) / (hi - lo))%Q) by (apply Qle_shift_div_l; lra).
  assert (Hq1 : ((y - lo) / (hi - lo) <= 1)%Q) by (apply Qle_shift_div_r; lra).
  eexists. split; [reflexivity|]. split; [exact Hq0|]. split; [exact Hq1|].
  unfold Linemod.uv_code. cbn [fst np_scale astype_int].
  set (R := inject_Z (Z.of_nat (Linemod.color_resolution self))).
  assert (HR : (0 <= R)%Q).
  { subst R. change 0%Q with (inject_Z 0). rewrite <- Zle_Qle. lia. }
  apply Qtrunc_between; fold R; nra.
Qed.

Lemma linemod_face_heights_are_fractions_witness :
  exists colors,
    @Linemod.get_faces_uv_colors pseudo_math wedge_linemod "wedge" = Ok colors /\
    forall c, In c colors ->
      exists q, fst c = Fin q /\ (0 <= q)%Q /\ (q <= 1)%Q /\
                0 <= fst (Linemod.uv_code wedge_linemod c)
                  <= Z.of_nat (Linemod.color_resolution wedge_linemod).
Proof.
  destruct (@Linemod.get_faces_uv_colors pseudo_math wedge_linemod "wedge")
    as [colors|e] eqn:E; [|vm_compute in E; discriminate E].
  exists colors. split; [reflexivity|].
  apply (@linemod_face_heights_are_fractions pseudo_math wedge_linemod "wedge"
           wedge_vertices 0 1 colors); [reflexivity .. | exact E].
Defined.

(** ** Faces and their colours *)

Lemma mid_point_rows_length (P : list point3) (ts : list triangle)
    (mid : list point3) :
  mid_point_rows P ts = Ok mid -> length mid = length ts.
Proof.
  revert mid. induction ts as [|t ts IH]; intros mid Hm; simpl in Hm.
  - injection Hm as <-. reflexivity.
  - destruct (face_mid_point P t); cbn [mbind result_bind] in Hm; [|discriminate].
    destruct (mid_point_rows P ts) as [r|]; cbn [mbind result_bind] in Hm;
      [|discriminate].
    injection Hm as <-. simpl. f_equal. now apply IH.
Qed.

Lemma faces_mid_points_length (P : list point3) (ts : list triangle)
    (mid : list point3) :
  faces_mid_points P ts = Ok mid -> length mid = length ts.
Proof.
  intros Hm. apply faces_mid_points_ok in Hm as [_ Hm].
  eapply mid_point_rows_length; eassumption.
Qed.

Lemma color_points_length `{NumpyMath} (points : list point3) (model_id : Z)
    (colors : list (Z * Z * Z)) :
  Kaggle.color_points points model_id = Ok colors -> length colors = length points.
Proof.
  intros Hc. destruct points as [|p points]; [discriminate Hc|].
  destruct (color_points_ok (p :: points) model_id ltac:(discriminate))
    as (colors' & Hc' & Hl).
  rewrite Hc in Hc'. injection Hc' as <-. exact Hl.
Qed.

Lemma combine_by_index {A B} (d : A) (d' : B) (l : list A) (l' : list B) :
  length l' = length l ->
  map (fun i => (nth i l d, nth i l' d')) (seq 0 (length l)) = combine l l'.
Proof.
  intros Hl.
  transitivity (map (fun i => nth i (combine l l') (d, d')) (seq 0 (length l))).
  - apply map_ext. intros i. symmetry. apply combine_nth. now symmetry.
  - replace (length l) with (length (combine l l'))
      by (rewrite length_combine; lia).
    apply nth_seq_all.
Qed.

(** Two arrays indexed by one face ordering stay paired. *)
Lemma paired_take `{NumpySort} {A B} (d : A) (d' : B) (l : list A) (l' : list B)
    (mid : list point3) (r : list A) (r' : list B) :
  length l = length mid -> length l' = length mid ->
  np_take l (face_ordering mid) = Ok r ->
  np_take l' (face_ordering mid) = Ok r' ->
  length r' = length r /\ Permutation (combine r r') (combine l l').
Proof.
  intros Hl Hl' Hr Hr'.
  set (keys := map (fun m : point3 => (- pz m)%Q) mid).
  pose proof (argsort_perm keys) as Hperm.
  assert (Hk : length keys = length mid) by (subst keys; apply length_map).
  rewrite Hk in Hperm.
  pose proof (perm_seq_bound _ _ Hperm) as Hb.
  unfold face_ordering in Hr, Hr'. fold keys in Hr, Hr'.
  rewrite (np_take_nat d) in Hr by (rewrite Hl; exact Hb).
  rewrite (np_take_nat d') in Hr' by (rewrite Hl'; exact Hb).
  injection Hr as <-. injection Hr' as <-.
  split; [now rewrite !length_map|].
  rewrite combine_map_same.
  rewrite <- (combine_by_index d d' l l') by lia.
  rewrite Hl. apply Permutation_map. exact Hperm.
Qed.

Lemma combine_map_r {A B C} (f : B -> C) (l : list A) (l' : list B) :
  combine l (map f l') = map (fun p => (fst p, f (snd p))) (combine l l').
Proof.
  revert l'. induction l as [|a l IH]; intros [|b l']; simpl; try reflexivity.
  now rewrite IH.
Qed.

(** X11.  [draw_model] reorders the faces and their colours together: the
    faces it fills, with the colours it fills them with, are the model's
    faces paired index by index with the rows of
    [get_model_face_to_color_array], in some order.  That array does not
    depend on the pose, so a face has the same colour under every pose. *)
Theorem kaggle_faces_keep_their_colours `{NumpyMath} `{NumpySort} `{Cv2Draw}
    (self : Kaggle.ModelsHandler) (model_id : Z)
    (translation_vector : point3) (rotation_matrix : mat3)
    (pts2d : list (Q * Q)) (faces : list (triangle * list Z)) :
  Kaggle.draw_plan self model_id translation_vector rotation_matrix
    = Ok (pts2d, faces) ->
  exists vertices triangles colors,
    Kaggle.model_id_to_vertices_and_triangles self model_id
      = Ok (vertices, triangles) /\
    Kaggle.get_model_face_to_color_array self model_id = Ok colors /\
    length colors = length triangles /\
    Permutation faces
      (combine triangles
         (map (fun c => [fst (fst c); snd (fst c); snd c]) colors)).
Proof.
  intros Hplan. unfold Kaggle.draw_plan in Hplan.
  destruct (Kaggle.model_id_to_vertices_and_triangles self model_id)
    as [[vertices triangles]|] eqn:Hm; cbn [mbind result_bind fst snd] in Hplan;
    [|discriminate].
  destruct (faces_mid_points _ triangles) as [mid|] eqn:Emid;
    cbn [mbind result_bind] in Hplan; [|discriminate].
  destruct (np_take triangles _) as [ts'|] eqn:Et;
    cbn [mbind result_bind] in Hplan; [|discriminate].
  destruct (Kaggle.get_model_face_to_color_array self model_id) as [colors|] eqn:Ec;
    cbn [mbind result_bind] in Hplan; [|discriminate].
  destruct (np_take colors _) as [cs'|] eqn:Ecs;
    cbn [mbind result_bind] in Hplan; [|discriminate].
  injection Hplan as <- <-.
  apply faces_mid_points_length in Emid.
  assert (Hcl : length colors = length triangles).
  { unfold Kaggle.get_model_face_to_color_array, Kaggle.get_model_faces_midpoints in Ec.
    rewrite Hm in Ec. cbn [mbind result_bind fst snd] in Ec.
    destruct (faces_mid_points vertices triangles) as [mid0|] eqn:E0;
      cbn [mbind result_bind] in Ec; [|discriminate].
    apply color_points_length in Ec. apply faces_mid_points_length in E0. lia. }
  exists vertices, triangles, colors.
  split; [reflexivity|]. split; [reflexivity|]. split; [exact Hcl|].
  destruct (paired_take ((0, 0, 0) : triangle) (0, 0, 0) triangles colors mid ts' cs')
    as [_ Hperm]; [lia | lia | exact Et | exact Ecs |].
  rewrite !combine_map_r. apply Permutation_map. exact Hperm.
Qed.

Lemma kaggle_faces_keep_their_colours_witness :
  exists pts2d faces vertices triangles colors,
    @Kaggle.draw_plan pseudo_math insertion_sort recording_draw wedge_kaggle 3
      (0, 0, 0)%Q identity_rotation = Ok (pts2d, faces) /\
    Kaggle.model_id_to_vertices_and_triangles wedge_kaggle 3
      = Ok (vertices, triangles) /\
    @Kaggle.get_model_face_to_color_array pseudo_math wedge_kaggle 3 = Ok colors /\
    length colors = length triangles /\
    Permutation faces
      (combine triangles
         (map (fun c => [fst (fst c); snd (fst c); snd c]) colors)).
Proof.
  destruct (@Kaggle.draw_plan pseudo_math insertion_sort recording_draw wedge_kaggle 3
              (0, 0, 0)%Q identity_rotation) as [[pts2d faces]|e] eqn:E;
    [|vm_compute in E; discriminate E].
  exists pts2d, faces.
  destruct (@kaggle_faces_keep_their_colours pseudo_math insertion_sort recording_draw
              wedge_kaggle 3 (0, 0, 0)%Q identity_rotation pts2d faces E)
    as (vertices & triangles & colors & H).
  exists vertices, triangles, colors. split; [reflexivity | exact H].
Defined.

(** X12.  [draw_color_mask] reorders the faces and their colours together:
    the faces it fills, with the colour codes it fills them with, are the
    model's faces paired index by index with the codes of the rows of
    [get_faces_uv_colors], in some order, whatever the pose. *)
Theorem linemod_faces_keep_their_colours `{NumpyMath} `{NumpySort} `{Cv2Draw}
    (self : Linemod.ModelsHandler) (model_name : string)
    (rotation_matrix : mat3) (center : point3)
    (pts2d : list (Q * Q)) (faces : list (triangle * list Z)) :
  Linemod.draw_plan self model_name rotation_matrix center = Ok (pts2d, faces) ->
  exists triangles colors,
    Linemod.get_faces self model_name = Ok triangles /\
    Linemod.get_faces_uv_colors self model_name = Ok colors /\
    length colors = length triangles /\
    Permutation faces
      (combine triangles
         (map (fun c => [fst (Linemod.uv_code self c); snd (Linemod.uv_code self c)])
              colors)).
Proof.
  intros Hplan. unfold Linemod.draw_plan in Hplan.
  destruct (Linemod.get_vertices self model_name) as [vertices|] eqn:Hv;
    cbn [mbind result_bind] in Hplan; [|discriminate].
  destruct (Linemod.transform_vertices vertices rotation_matrix center)
    as [posed|] eqn:Hposed; cbn [mbind result_bind] in Hplan; [|discriminate].
  destruct (Linemod.get_faces self model_name) as [triangles|] eqn:Hf;
    cbn [mbind result_bind] in Hplan; [|discriminate].
  destruct (faces_mid_points _ triangles) as [mid|] eqn:Emid;
    cbn [mbind result_bind] in Hplan; [|discriminate].
  destruct (np_take triangles _) as [ts'|] eqn:Et;
    cbn [mbind result_bind] in Hplan; [|discriminate].
  destruct (Linemod.get_faces_uv_colors self model_name) as [colors|] eqn:Ec;
    cbn [mbind result_bind] in Hplan; [|discriminate].
  destruct (np_take colors _) as [cs'|] eqn:Ecs;
    cbn [mbind result_bind] in Hplan; [|discriminate].
  injection Hplan as <- <-.
  apply faces_mid_points_length in Emid.
  assert (Hcl : length colors = length triangles).
  { unfold Linemod.get_faces_uv_colors, Linemod.get_faces_midpoints in Ec.
    rewrite Hv, Hf in Ec. cbn [mbind result_bind] in Ec.
    destruct (faces_mid_points vertices triangles) as [mid0|] eqn:E0;
      cbn [mbind result_bind] in Ec; [|discriminate].
    destruct (amax (map py vertices)); cbn [mbind result_bind] in Ec; [|discriminate].
    destruct (amin (map py vertices)); cbn [mbind result_bind] in Ec; [|discriminate].
    injection Ec as <-. rewrite length_map.
    now apply faces_mid_points_length in E0. }
  exists triangles, colors.
  split; [reflexivity|]. split; [reflexivity|]. split; [exact Hcl|].
  destruct (paired_take ((0, 0, 0) : triangle) (NaN, NaN) triangles colors mid ts' cs')
    as [_ Hperm]; [lia | lia | exact Et | exact Ecs |].
  change (map (fun c => let code := Linemod.uv_code self c in [fst code; snd code]) cs')
    with (map (fun c => [fst (Linemod.uv_code self c); snd (Linemod.uv_code self c)]) cs').
  rewrite !combine_map_r. apply Permutation_map. exact Hperm.
Qed.

Lemma linemod_faces_keep_their_colours_witness :
  exists pts2d faces triangles colors,
    @Linemod.draw_plan pseudo_math insertion_sort recording_draw wedge_linemod
      "wedge" identity_rotation (0, 0, 0)%Q = Ok (pts2d, faces) /\
    Linemod.get_faces wedge_linemod "wedge" = Ok triangles /\
    @Linemod.get_faces_uv_colors pseudo_math wedge_linemod "wedge" = Ok colors /\
    length colors = length triangles /\
    Permutation faces
      (combine triangles
         (map (fun c => [fst (Linemod.uv_code wedge_linemod c);
                         snd (Linemod.uv_code wedge_linemod c)])
              colors)).
Proof.
  destruct (@Linemod.draw_plan pseudo_math insertion_sort recording_draw wedge_linemod
              "wedge" identity_rotation (0, 0, 0)%Q) as [[pts2d faces]|e] eqn:E;
    [|vm_compute in E; discriminate E].
  exists pts2d, faces.
  destruct (@linemod_faces_keep_their_colours pseudo_math insertion_sort
              recording_draw wedge_linemod "wedge" identity_rotation (0, 0, 0)%Q
              pts2d faces E)
    as (triangles & colors & H).
  exists triangles, colors. split; [reflexivity | exact H].
Defined.

(** ** The registry of the LineMOD handler: [ModelsHandler.__init__] *)

(** [needle in hay] on strings. *)
Definition contains (needle hay : string) : bool :=
  match String.index 0 needle hay with
  | Some _ => true
  | None => false
  end.

(** [os.path.split(path)[1]]: what follows the last slash. *)
Definition basename (path : string) : string :=
  List.last (split_on "/" path) EmptyString.

(** What [glob] shows of the models directory: the entries matching
    [models_dir_path/*], in the order [glob] lists them, each with the files
    matching [*.obj] inside it. *)
Definition listing : Type := list (string * list string).

(** The loop that fills [_model_name_to_model_file_path]. *)
Fixpoint scan_models (dirs : listing) (paths : gmap string string)
  : result (gmap string string) :=
  match dirs with
  | [] => Ok paths
  | (model_dir, objs) :: rest =>
      let model_name := basename model_dir in
      if contains "Holepuncher" model_dir then scan_models rest paths
      else match objs with
           | [] => Err IndexError
           | model_filepath :: _ =>
               scan_models rest (<[model_name := model_filepath]> paths)
           end
  end.

(** [sorted] on strings: ascending by code points. *)
Fixpoint insert_sorted (s : string) (l : list string) : list string :=
  match l with
  | [] => [s]
  | t :: r => if String.leb s t then s :: t :: r else t :: insert_sorted s r
  end.

Definition sorted_strings (l : list string) : list string :=
  fold_right insert_sorted [] l.

(** A dictionary built entry by entry: a later entry replaces an earlier one
    of the same key. *)
Definition dict_of `{Countable K} {V} (items : list (K * V)) : gmap K V :=
  fold_left (fun m kv => <[fst kv := snd kv]> m) items ∅.

(** [(name, n + 1) for n, name in enumerate(names)] *)
Definition enumerate_from_1 (names : list string) : list (string * Z) :=
  imap (fun n name => (name, Z.of_nat n + 1)) names.

Record Registry : Type := {
  model_name_to_model_file_path : gmap string string;
  model_name_to_model_id : gmap string Z;
  model_id_to_model_name : gmap Z string
}.

Definition registry_of (paths : gmap string string) : Registry :=
  let names := sorted_strings (map fst (map_to_list paths)) in
  let items := enumerate_from_1 names in
  {| model_name_to_model_file_path := paths;
     model_name_to_model_id := dict_of items;
     model_id_to_model_name := dict_of (map (fun kv => (snd kv, fst kv)) items) |}.

Definition init_registry (dirs : listing) : result Registry :=
  paths ← scan_models dirs ∅;
  Ok (registry_of paths).

Lemma dict_of_lookup `{Countable K} {V} (items : list (K * V)) (acc : gmap K V)
    (k : K) (v : V) :
  NoDup (map fst items) ->
  fold_left (fun m kv => <[fst kv := snd kv]> m) items acc !! k = Some v <->
  In (k, v) items \/ (~ In k (map fst items) /\ acc !! k = Some v).
Proof.
  revert acc. induction items as [|[k0 v0] items IH]; intros acc Hnd; simpl.
  - tauto.
  - apply NoDup_cons in Hnd as [Hk0 Hnd].
    rewrite (IH _ Hnd). split.
    + intros [Hin | [Hnot Hl]]; [tauto|].
      destruct (decide (k0 = k)) as [->|Hne].
      * rewrite lookup_insert_eq in Hl. injection Hl as ->. tauto.
      * rewrite lookup_insert_ne in Hl by exact Hne. right. split; [|exact Hl].
        intros [E | Hin]; [congruence | contradiction].
    + intros [[E | Hin] | [Hnot Hl]].
      * injection E as -> ->. right. split.
        -- intros Hin. apply Hk0. apply list_elem_of_In. exact Hin.
        -- apply lookup_insert_eq.
      * tauto.
      * right. split; [tauto|].
        rewrite lookup_insert_ne; [exact Hl|]. intros ->. tauto.
Qed.

Lemma dict_of_In `{Countable K} {V} (items : list (K * V)) (k : K) (v : V) :
  NoDup (map fst items) -> dict_of items !! k = Some v <-> In (k, v) items.
Proof.
  intros Hnd. unfold dict_of. rewrite (dict_of_lookup items ∅ k v Hnd).
  rewrite lookup_empty. split; [intros [? | [_ ?]]; [assumption | discriminate] | tauto].
Qed.

Lemma insert_sorted_perm (s : string) (l : list string) :
  Permutation (insert_sorted s l) (s :: l).
Proof.
  induction l as [|t l IH]; simpl; [reflexivity|].
  destruct (String.leb s t); [reflexivity|].
  rewrite IH. apply perm_swap.
Qed.

Lemma sorted_strings_perm (l : list string) : Permutation (sorted_strings l) l.
Proof.
  induction l as [|s l IH]; simpl; [reflexivity|].
  rewrite insert_sorted_perm. now constructor.
Qed.

Lemma lookup_nth_error {A} (l : list A) (n : nat) : l !! n = nth_error l n.
Proof. revert n. induction l as [|a l IH]; intros [|n]; simpl; auto. Qed.

Lemma enumerate_from_1_In (names : list string) (name : string) (id : Z) :
  In (name, id) (enumerate_from_1 names) <->
  exists n, nth_error names n = Some name /\ id = Z.of_nat n + 1.
Proof.
  unfold enumerate_from_1. rewrite <- list_elem_of_In, elem_of_lookup_imap.
  split.
  - intros (n & x & E & Hn). injection E as -> ->. exists n.
    rewrite <- lookup_nth_error. tauto.
  - intros (n & Hn & ->). exists n, name.
    rewrite lookup_nth_error. tauto.
Qed.

Lemma enumerate_from_1_names (names : list string) :
  map fst (enumerate_from_1 names) = names.
Proof.
  unfold enumerate_from_1.
  change (map fst (imap (fun n name => (name, Z.of_nat n + 1)) names))
    with (fst <$> imap (fun n name => (name, Z.of_nat n + 1)) names).
  rewrite fmap_imap.
  induction names as [|a l IH] using rev_ind; [reflexivity|].
  rewrite imap_app, IH. reflexivity.
Qed.

Lemma enumerate_from_1_ids (names : list string) :
  map snd (enumerate_from_1 names)
  = map (fun n => Z.of_nat n + 1) (seq 0 (length names)).
Proof.
  unfold enumerate_from_1.
  change (map snd (imap (fun n name => (name, Z.of_nat n + 1)) names))
    with (snd <$> imap (fun n name => (name, Z.of_nat n + 1)) names).
  rewrite fmap_imap.
  exact (imap_seq_0 names (fun n => Z.of_nat n + 1)).
Qed.

Lemma registry_names_NoDup (paths : gmap string string) :
  NoDup (sorted_strings (map fst (map_to_list paths))).
Proof.
  rewrite sorted_strings_perm. apply NoDup_fst_map_to_list.
Qed.

Lemma registry_names_In (paths : gmap string string) (name : string) :
  In name (sorted_strings (map fst (map_to_list paths))) <-> is_Some (paths !! name).
Proof.
  rewrite <- list_elem_of_In, sorted_strings_perm.
  change (map fst (map_to_list paths)) with (fst <$> map_to_list paths).
  rewrite list_elem_of_fmap. split.
  - intros ([k v] & -> & Hin). apply elem_of_map_to_list in Hin. eauto.
  - intros [v Hv]. exists (name, v). split; [reflexivity|].
    now apply elem_of_map_to_list.
Qed.

(** X13.  The two dictionaries [__init__] builds are inverse to each other:
    a name has id [id] exactly when [id] has that name.  The names that get
    an id are the names with a model file, and the ids are the numbers from 1
    to the number of models, none left out. *)
Theorem registry_ids_round_trip (dirs : listing) (self : Registry) :
  init_registry dirs = Ok self ->
  (forall name id,
     model_name_to_model_id self !! name = Some id <->
     model_id_to_model_name self !! id = Some name) /\
  (forall name,
     is_Some (model_name_to_model_id self !! name) <->
     is_Some (model_name_to_model_file_path self !! name)) /\
  (forall id,
     is_Some (model_id_to_model_name self !! id) <->
     1 <= id <= Z.of_nat (size (model_name_to_model_file_path self))).
Proof.
  unfold init_registry.
  destruct (scan_models dirs ∅) as [paths|]; cbn [mbind result_bind]; [|discriminate].
  intros E. injection E as <-. cbn [registry_of model_name_to_model_id
    model_id_to_model_name model_name_to_model_file_path].
  set (names := sorted_strings (map fst (map_to_list paths))).
  pose proof (registry_names_NoDup paths) as Hnd. fold names in Hnd.
  assert (Hlen : length names = size paths).
  { subst names. rewrite (Permutation_length (sorted_strings_perm _)).
    rewrite length_map. apply length_map_to_list. }
  assert (Hn1 : NoDup (map fst (enumerate_from_1 names)))
    by (rewrite enumerate_from_1_names; exact Hnd).
  assert (Hn2 : NoDup (map fst (map (fun kv : string * Z => (snd kv, fst kv))
                                    (enumerate_from_1 names)))).
  { rewrite map_map. cbn [fst]. rewrite enumerate_from_1_ids.
    apply NoDup_fmap_2; [intros a b; lia | apply NoDup_seq]. }
  assert (Hid : forall id name,
            dict_of (map (fun kv : string * Z => (snd kv, fst kv))
                         (enumerate_from_1 names)) !! id = Some name <->
            In (name, id) (enumerate_from_1 names)).
  { intros id name. rewrite (dict_of_In _ id name Hn2), in_map_iff. split.
    - intros ([k v] & E & Hin). injection E as -> ->. exact Hin.
    - intros Hin. exists (name, id). split; [reflexivity | exact Hin]. }
  split; [|split].
  - intros name id. rewrite (dict_of_In _ name id Hn1), Hid. reflexivity.
  - intros name. rewrite <- (registry_names_In paths name). fold names. split.
    + intros [id Hl]. apply (dict_of_In _ name id Hn1) in Hl.
      apply enumerate_from_1_In in Hl as (n & Hn & _).
      eapply nth_error_In; eassumption.
    + intros Hin. apply In_nth_error in Hin as [n Hn].
      exists (Z.of_nat n + 1). apply (dict_of_In _ _ _ Hn1).
      apply enumerate_from_1_In. eauto.
  - intros id. rewrite <- Hlen. split.
    + intros [name Hl]. apply Hid in Hl.
      apply enumerate_from_1_In in Hl as (n & Hn & ->).
      assert (n < length names)%nat by (apply nth_error_Some; congruence). lia.
    + intros Hrange.
      destruct (nth_error names (Z.to_nat (id - 1))) as [name|] eqn:En.
      * exists name. apply Hid. apply enumerate_from_1_In.
        exists (Z.to_nat (id - 1)). split; [exact En | lia].
      * apply nth_error_None in En. lia.
Qed.

(** A models directory with three entries. *)
Definition three_models : listing :=
  [("models/Duck", ["models/Duck/duck.obj"]);
   ("models/Holepuncher", []);
   ("models/Ape", ["models/Ape/ape.obj"; "models/Ape/b.obj"])].

Lemma registry_ids_round_trip_witness :
  exists self,
    init_registry three_models = Ok self /\
    forall name id,
      model_name_to_model_id self !! name = Some id <->
      model_id_to_model_name self !! id = Some name.
Proof.
  destruct (init_registry three_models) as [self|e] eqn:E;
    [|vm_compute in E; discriminate E].
  exists self. split; [reflexivity|].
  exact (proj1 (registry_ids_round_trip three_models self E)).
Defined.

Example three_models_ids :
  match init_registry three_models with
  | Ok self =>
      (model_name_to_model_id self !! "Ape", model_name_to_model_id self !! "Duck",
       model_name_to_model_id self !! "Holepuncher",
       model_name_to_model_file_path self !! "Ape")
  | Err _ => (None, None, None, None)
  end = (Some 1, Some 2, None, Some "models/Ape/ape.obj").
Proof. vm_compute. reflexivity. Qed.

(** *** The ids follow the alphabetical order of the names *)

Lemma ascii_compare_refl (c : ascii) : Ascii.compare c c = Eq.
Proof. unfold Ascii.compare. apply N.compare_refl. Qed.

Lemma string_leb_trans (s1 s2 s3 : string) :
  String.leb s1 s2 = true -> String.leb s2 s3 = true -> String.leb s1 s3 = true.
Proof.
  unfold String.leb. revert s2 s3.
  induction s1 as [|c1 s1 IH]; intros [|c2 s2] [|c3 s3]; simpl;
    try reflexivity; try discriminate.
  destruct (Ascii.compare c1 c2) eqn:E12; try discriminate.
  - apply Ascii.compare_eq_iff in E12. subst c2.
    destruct (Ascii.compare c1 c3); try reflexivity; try discriminate.
    apply IH.
  - intros _. destruct (Ascii.compare c2 c3) eqn:E23; try discriminate.
    + apply Ascii.compare_eq_iff in E23. subst c3. now rewrite E12.
    + intros _. unfold Ascii.compare in *.
      rewrite N.compare_lt_iff in E12, E23.
      assert (E13 : (N_of_ascii c1 < N_of_ascii c3)%N) by lia.
      apply N.compare_lt_iff in E13. now rewrite E13.
Qed.

Lemma insert_sorted_sorted (s : string) (l : list string) :
  StronglySorted (fun a b => String.leb a b = true) l ->
  StronglySorted (fun a b => String.leb a b = true) (insert_sorted s l).
Proof.
  induction 1 as [|t l Hs IH Ht]; simpl; [repeat constructor|].
  destruct (String.leb s t) eqn:E.
  - constructor; [constructor; assumption|].
    constructor; [exact E|].
    rewrite List.Forall_forall in *. intros x Hx.
    eapply string_leb_trans; [exact E | apply Ht, Hx].
  - constructor; [exact IH|].
    rewrite List.Forall_forall in *. intros x Hx.
    apply (Permutation_in _ (insert_sorted_perm s l)) in Hx.
    destruct Hx as [<- | Hx]; [|apply Ht, Hx].
    destruct (String.leb_total s t) as [H1 | H1]; [congruence | exact H1].
Qed.

Lemma sorted_strings_sorted (l : list string) :
  StronglySorted (fun a b => String.leb a b = true) (sorted_strings l).
Proof.
  induction l as [|s l IH]; simpl; [constructor|].
  now apply insert_sorted_sorted.
Qed.

Lemma sorted_strings_unique (l l' : list string) :
  StronglySorted (fun a b => String.leb a b = true) l ->
  StronglySorted (fun a b => String.leb a b = true) l' ->
  Permutation l l' -> l = l'.
Proof.
  intros Hs. revert l'. induction Hs as [|a l Hs IH Ha]; intros l' Hs' Hp.
  - apply Permutation_nil in Hp. now subst.
  - destruct Hs' as [|a' l' Hs' Ha'].
    + apply Permutation_sym, Permutation_nil in Hp. discriminate.
    + rewrite List.Forall_forall in Ha, Ha'.
      assert (E : a = a').
      { assert (H1 : In a (a' :: l'))
          by (apply (Permutation_in _ Hp); left; reflexivity).
        assert (H2 : In a' (a :: l))
          by (apply (Permutation_in _ (Permutation_sym Hp)); left; reflexivity).
        destruct H1 as [-> | H1]; [reflexivity|].
        destruct H2 as [<- | H2]; [reflexivity|].
        apply String.leb_antisym; [apply Ha, H2 | apply Ha', H1]. }
      subst a'. f_equal. apply IH; [exact Hs'|].
      eapply Permutation_cons_inv; exact Hp.
Qed.

Lemma sorted_position_order (l : list string) (i j : nat) (a b : string) :
  StronglySorted (fun a b => String.leb a b = true) l ->
  nth_error l i = Some a -> nth_error l j = Some b ->
  (i <= j)%nat -> String.leb a b = true.
Proof.
  intros Hs. revert i j. induction Hs as [|x l Hs IH Hx]; intros i j Hi Hj Hij.
  - destruct i; discriminate.
  - destruct i as [|i], j as [|j]; simpl in Hi, Hj; try lia.
    + injection Hi as <-. injection Hj as <-.
      destruct (String.leb_total x x); assumption.
    + injection Hi as <-. rewrite List.Forall_forall in Hx.
      apply Hx. eapply nth_error_In; eassumption.
    + apply (IH i j); [assumption | assumption | lia].
Qed.

(** X14.  The ids follow the alphabetical order of the model names and
    nothing else: of two registered names the one that sorts first has the
    smaller id, and two runs of [__init__] that find the same set of model
    names give every name the same id, in whatever order [glob] lists the
    directories and whatever the files are called. *)
Theorem registry_ids_follow_names (dirs dirs' : listing) (self self' : Registry) :
  init_registry dirs = Ok self ->
  init_registry dirs' = Ok self' ->
  (forall a b ia ib,
     model_name_to_model_id self !! a = Some ia ->
     model_name_to_model_id self !! b = Some ib ->
     (ia <= ib <-> String.leb a b = true)) /\
  (dom (model_name_to_model_file_path self)
     = dom (model_name_to_model_file_path self') ->
   model_name_to_model_id self = model_name_to_model_id self' /\
   model_id_to_model_name self = model_id_to_model_name self').
Proof.
  unfold init_registry.
  destruct (scan_models dirs ∅) as [paths|]; cbn [mbind result_bind]; [|discriminate].
  destruct (scan_models dirs' ∅) as [paths'|]; cbn [mbind result_bind]; [|discriminate].
  intros E E'. injection E as <-. injection E' as <-.
  cbn [registry_of model_name_to_model_id model_id_to_model_name
       model_name_to_model_file_path].
  set (names := sorted_strings (map fst (map_to_list paths))).
  set (names' := sorted_strings (map fst (map_to_list paths'))).
  pose proof (registry_names_NoDup paths) as Hnd. fold names in Hnd.
  pose proof (sorted_strings_sorted (map fst (map_to_list paths))) as Hs.
  fold names in Hs.
  assert (Hn1 : NoDup (map fst (enumerate_from_1 names)))
    by (rewrite enumerate_from_1_names; exact Hnd).
  split.
  - intros a b ia ib Ha Hb.
    apply (dict_of_In _ _ _ Hn1), enumerate_from_1_In in Ha as (i & Hi & ->).
    apply (dict_of_In _ _ _ Hn1), enumerate_from_1_In in Hb as (j & Hj & ->).
    split.
    + intros Hij. apply (sorted_position_order names i j); try assumption. lia.
    + intros Hab. destruct (Nat.le_gt_cases i j) as [Hle | Hgt]; [lia|].
      assert (Hba : String.leb b a = true)
        by (apply (sorted_position_order names j i); try assumption; lia).
      pose proof (String.leb_antisym _ _ Hab Hba) as ->.
      rewrite <- !lookup_nth_error in Hi, Hj.
      pose proof (NoDup_lookup _ _ _ _ Hnd Hi Hj). lia.
  - intros Hdom.
    assert (Hsame : names = names').
    { apply sorted_strings_unique;
        [exact Hs | apply sorted_strings_sorted |].
      apply NoDup_Permutation;
        [exact Hnd | apply registry_names_NoDup |].
      intros x. rewrite !list_elem_of_In.
      subst names names'. rewrite !registry_names_In.
      rewrite <- !elem_of_dom, Hdom. reflexivity. }
    rewrite Hsame. split; reflexivity.
Qed.

Lemma registry_ids_follow_names_witness :
  exists self self',
    init_registry three_models = Ok self /\
    init_registry (rev three_models) = Ok self' /\
    (forall a b ia ib,
       model_name_to_model_id self !! a = Some ia ->
       model_name_to_model_id self !! b = Some ib ->
       (ia <= ib <-> String.leb a b = true)) /\
    (dom (model_name_to_model_file_path self)
       = dom (model_name_to_model_file_path self') ->
     model_name_to_model_id self = model_name_to_model_id self' /\
     model_id_to_model_name self = model_id_to_model_name self').
Proof.
  destruct (init_registry three_models) as [self|e] eqn:E;
    [|vm_compute in E; discriminate E].
  destruct (init_registry (rev three_models)) as [self'|e] eqn:E';
    [|vm_compute in E'; discriminate E'].
  exists self, self'. split; [reflexivity|]. split; [reflexivity|].
  exact (registry_ids_follow_names three_models (rev three_models) self self' E E').
Defined.

(** ** The class mask of the LineMOD handler: [draw_class_mask] *)

Section ClassMask.
Context `{Cv2Draw}.

(** What the loop of [draw_class_mask] draws: the projected vertices and the
    faces in the order of the model, each with the colour [[model id]]. *)
Definition class_plan (self : Linemod.ModelsHandler) (registry : Registry)
    (model_name : string) (rotation_matrix : mat3) (center : point3)
  : result (list (Q * Q) * list (triangle * list Z)) :=
  let translation_vector := center in
  points3d_on_model ← Linemod.get_vertices self model_name;
  points3d_in_reality ←
    Linemod.transform_vertices points3d_on_model rotation_matrix translation_vector;
  let points2d_on_image := projectPoints points3d_in_reality Linemod.camera_matrix in
  faces ← Linemod.get_faces self model_name;
  color ← match model_name_to_model_id registry !! model_name with
          | Some id => Ok [id]
          | None => Err KeyError
          end;
  Ok (points2d_on_image, map (fun vertices => (vertices, color)) faces).

Definition draw_class_mask (self : Linemod.ModelsHandler) (registry : Registry)
    (img : image) (model_name : string) (rotation_matrix : mat3) (center : point3)
  : result image :=
  plan ← class_plan self registry model_name rotation_matrix center;
  fill_faces img (fst plan) (snd plan).

End ClassMask.

(** X15.  The class mask and the colour mask of one model under one pose
    cover the same polygons: [draw_class_mask] fills the faces of the model in
    the order of the file, every one with the id of the model, on the same
    projected vertices on which [draw_color_mask] fills the same faces in
    painter's order. *)
Theorem class_mask_fills_the_faces_of_the_colour_mask
    `{NumpyMath} `{NumpySort} `{Cv2Draw}
    (self : Linemod.ModelsHandler) (registry : Registry) (model_name : string)
    (rotation_matrix : mat3) (center : point3)
    (pts2d pts2d' : list (Q * Q)) (faces faces' : list (triangle * list Z)) :
  class_plan self registry model_name rotation_matrix center = Ok (pts2d, faces) ->
  Linemod.draw_plan self model_name rotation_matrix center = Ok (pts2d', faces') ->
  pts2d = pts2d' /\
  Linemod.get_faces self model_name = Ok (map fst faces) /\
  Permutation (map fst faces') (map fst faces) /\
  exists id, model_name_to_model_id registry !! model_name = Some id /\
             forall f, In f faces -> snd f = [id].
Proof.
  intros Hc Hd.
  destruct (linemod_faces_keep_their_colours self model_name rotation_matrix center
              pts2d' faces' Hd) as (triangles & colors & Hf & _ & Hlen & Hperm).
  unfold class_plan in Hc. unfold Linemod.draw_plan in Hd.
  destruct (Linemod.get_vertices self model_name) as [vertices|];
    cbn [mbind result_bind] in Hc, Hd; [|discriminate].
  destruct (Linemod.transform_vertices vertices rotation_matrix center)
    as [posed|]; cbn [mbind result_bind] in Hc, Hd; [|discriminate].
  rewrite Hf in Hc, Hd. cbn [mbind result_bind] in Hc, Hd.
  destruct (model_name_to_model_id registry !! model_name) as [id|] eqn:Eid;
    cbn [mbind result_bind] in Hc; [|discriminate].
  injection Hc as <- <-.
  repeat lazymatch type of Hd with
  | mbind _ ?m = Ok _ =>
      destruct m; cbn [mbind result_bind] in Hd; [|discriminate Hd]
  end.
  injection Hd as <- _.
  rewrite map_map. cbn [fst]. rewrite map_id.
  split; [reflexivity|]. split; [exact Hf|]. split.
  - apply (Permutation_map fst) in Hperm.
    rewrite map_fst_combine in Hperm by (now rewrite length_map).
    exact Hperm.
  - exists id. split; [reflexivity|].
    intros f Hin. apply in_map_iff in Hin as (t & <- & _). reflexivity.
Qed.

(** The registry of a directory that holds the wedge alone. *)
Definition wedge_registry : Registry :=
  registry_of {[ "wedge" := "models/wedge/wedge.obj" ]}.

Lemma class_mask_fills_the_faces_of_the_colour_mask_witness :
  exists pts2d faces faces',
    @class_plan recording_draw wedge_linemod wedge_registry "wedge"
      identity_rotation (0, 0, 0)%Q = Ok (pts2d, faces) /\
    @Linemod.draw_plan pseudo_math insertion_sort recording_draw wedge_linemod
      "wedge" identity_rotation (0, 0, 0)%Q = Ok (pts2d, faces') /\
    Permutation (map fst faces') (map fst faces) /\
    exists id, model_name_to_model_id wedge_registry !! "wedge" = Some id /\
               forall f, In f faces -> snd f = [id].
Proof.
  destruct (@class_plan recording_draw wedge_linemod wedge_registry "wedge"
              identity_rotation (0, 0, 0)%Q) as [[pts2d faces]|e] eqn:Ec;
    [|vm_compute in Ec; discriminate Ec].
  destruct (@Linemod.draw_plan pseudo_math insertion_sort recording_draw wedge_linemod
              "wedge" identity_rotation (0, 0, 0)%Q) as [[pts2d' faces']|e] eqn:Ed;
    [|vm_compute in Ed; discriminate Ed].
  destruct (@class_mask_fills_the_faces_of_the_colour_mask pseudo_math insertion_sort
              recording_draw wedge_linemod wedge_registry "wedge" identity_rotation
              (0, 0, 0)%Q pts2d pts2d' faces faces' Ec Ed) as (-> & _ & Hp & Hid).
  exists pts2d', faces, faces'. repeat split; assumption.
Defined.

(** ** The files of the LineMOD data set *)

(** [int(x)] on a string: the number read, or [None] for ValueError. *)
Class PyInt := {
  py_int : string -> option Z
}.

Definition int_of `{PyInt} (x : string) : result Z :=
  match py_int x with
  | Some n => Ok n
  | None => Err ValueError
  end.

(** [line[0]] *)
Definition first_char (line : string) : result ascii :=
  match line with
  | EmptyString => Err IndexError
  | String c _ => Ok c
  end.

(** [l[a:b]] for [0 <= a <= b]. *)
Definition py_slice {A} (l : list A) (a b : nat) : list A :=
  firstn (b - a) (skipn a l).

(** [x, y, z = values]: anything but three values is a ValueError. *)
Definition unpack3 {A} (values : list A) : result (A * A * A) :=
  match values with
  | [x; y; z] => Ok (x, y, z)
  | _ => Err ValueError
  end.

Section Files.
Context `{PyFloat} `{PyInt}.

(** [x, y, z = map(float, line.split(' ')[1:4])] *)
Definition read_vertex (line : string) : result point3 :=
  values ← mapM float_of (py_slice (split_on " " line) 1 4);
  unpack3 values.

(** [v1, v2, v3 = map(int, line.split(' ')[1:])], stored as
    [(v1-1, v2-1, v3-1)]. *)
Definition read_face (line : string) : result triangle :=
  values ← mapM int_of (skipn 1 (split_on " " line));
  v ← unpack3 values;
  let '(v1, v2, v3) := v in
  Ok (v1 - 1, v2 - 1, v3 - 1).

(** The loop of [read_obj_file] over the lines of the file. *)
Fixpoint read_obj_lines (lines : list string) (vertices : list point3)
    (faces : list triangle) : result (list point3 * list triangle) :=
  match lines with
  | [] => Ok (vertices, faces)
  | line :: rest =>
      c ← first_char line;
      vertices ← (if Ascii.eqb c "v" then
                    v ← read_vertex line; Ok (vertices ++ [v])
                  else Ok vertices);
      c ← first_char line;
      faces ← (if Ascii.eqb c "f" then
                 f ← read_face line; Ok (faces ++ [f])
               else Ok faces);
      read_obj_lines rest vertices faces
  end.

(** [read_obj_file], on the lines of the file at [path]. *)
Definition read_obj_file (lines : list string)
  : result (list point3 * list triangle) :=
  read_obj_lines lines [] [].

(** One value of the tuple [read_position_file] returns:
    [(image_size, model_id, rotation_matrix, center, extend)]. *)
Definition position : Type :=
  list Z * string * list (list Q) * list Q * list Q.

(** [read_position_file], on the lines [file.readlines()] gives; the [except]
    clause prints and raises the exception again. *)
Definition read_position_file (lines : list string) : result (option position) :=
  if (length lines =? 2)%nat then Ok None
  else
    line1 ← np_index lines 1;
    image_size ← mapM int_of (split_on " " line1);
    model_id ← np_index lines 2;
    rotation_matrix ← mapM (fun line => mapM float_of (split_on " " line))
                           (py_slice lines 4 7);
    line8 ← np_index lines 8;
    center ← mapM float_of (split_on " " line8);
    line10 ← np_index lines 10;
    extend ← mapM float_of (split_on " " line10);
    Ok (Some (image_size, model_id, rotation_matrix, center, extend)).

End Files.

(** Whether a line begins with the character [c]. *)
Definition starts_with (c : ascii) (line : string) : bool :=
  match line with
  | EmptyString => false
  | String c' _ => Ascii.eqb c' c
  end.

Lemma mapM_length {A B} (f : A -> result B) (l : list A) (r : list B) :
  mapM f l = Ok r -> length r = length l.
Proof.
  revert r. induction l as [|x l IH]; intros r Hr; simpl in *.
  - injection Hr as <-. reflexivity.
  - destruct (f x); cbn [mbind result_bind] in *; [|discriminate].
    destruct (mapM f l) as [r'|]; cbn [mbind result_bind] in *; [|discriminate].
    injection Hr as <-. simpl. f_equal. now apply IH.
Qed.

Lemma read_obj_lines_spec `{PyFloat} `{PyInt} (lines : list string)
    (vertices0 : list point3) (faces0 : list triangle)
    (vertices : list point3) (faces : list triangle) :
  read_obj_lines lines vertices0 faces0 = Ok (vertices, faces) <->
  Forall (fun line => line <> EmptyString) lines /\
  (exists vs, mapM read_vertex (List.filter (starts_with "v") lines) = Ok vs /\
              vertices = vertices0 ++ vs) /\
  (exists fs, mapM read_face (List.filter (starts_with "f") lines) = Ok fs /\
              faces = faces0 ++ fs).
Proof.
  revert vertices0 faces0.
  induction lines as [|line lines IH]; intros vertices0 faces0.
  - simpl. split.
    + intros E. injection E as <- <-.
      split; [constructor|]. split; exists []; now rewrite app_nil_r.
    + intros (_ & (vs & E1 & ->) & (fs & E2 & ->)).
      injection E1 as <-. injection E2 as <-. now rewrite !app_nil_r.
  - destruct line as [|c line'].
    + simpl. split; [discriminate|].
      intros (Hne & _). inversion Hne; congruence.
    + cbn [read_obj_lines first_char mbind result_bind List.filter starts_with].
      set (line := String c line').
      assert (Hv : Ascii.eqb c "v" = true -> Ascii.eqb c "f" = false).
      { intros E. apply Ascii.eqb_eq in E. subst c. reflexivity. }
      destruct (Ascii.eqb c "v") eqn:Ev.
      * rewrite (Hv eq_refl). cbn [mapM].
        destruct (read_vertex line) as [v|e]; cbn [mbind result_bind].
        -- rewrite (IH (vertices0 ++ [v]) faces0). split.
           ++ intros (Hne & (vs & E1 & ->) & Hf).
              split; [constructor; [discriminate | exact Hne]|].
              split; [|exact Hf].
              exists (v :: vs). rewrite E1, <- app_assoc. auto.
           ++ intros (Hne & (vs & E1 & ->) & Hf).
              split; [now inversion Hne|]. split; [|exact Hf].
              destruct (mapM read_vertex _) as [vs'|]; cbn [mbind result_bind] in E1;
                [|discriminate].
              injection E1 as <-. exists vs'. rewrite <- app_assoc. auto.
        -- split; [discriminate|]. intros (_ & (vs & E1 & _) & _). discriminate E1.
      * destruct (Ascii.eqb c "f") eqn:Ef.
        -- cbn [mapM].
           destruct (read_face line) as [f|e]; cbn [mbind result_bind].
           ++ rewrite (IH vertices0 (faces0 ++ [f])). split.
              ** intros (Hne & Hvs & (fs & E1 & ->)).
                 split; [constructor; [discriminate | exact Hne]|].
                 split; [exact Hvs|].
                 exists (f :: fs). rewrite E1, <- app_assoc. auto.
              ** intros (Hne & Hvs & (fs & E1 & ->)).
                 split; [now inversion Hne|]. split; [exact Hvs|].
                 destruct (mapM read_face _) as [fs'|]; cbn [mbind result_bind] in E1;
                   [|discriminate].
                 injection E1 as <-. exists fs'. rewrite <- app_assoc. auto.
           ++ split; [discriminate|]. intros (_ & _ & (fs & E1 & _)). discriminate E1.
        -- rewrite (IH vertices0 faces0). split.
           ++ intros (Hne & Hvs & Hfs).
              split; [constructor; [discriminate | exact Hne]|]. auto.
           ++ intros (Hne & Hvs & Hfs). split; [now inversion Hne|]. auto.
Qed.

(** X16.  [read_obj_file] reads the two kinds of lines independently and
    skips all others: it returns exactly when no line is empty, every line
    that begins with [v] gives three numbers and every line that begins with
    [f] gives three integers; the vertices are then the lines beginning with
    [v], in file order, and the faces the lines beginning with [f], in file
    order, each index lowered by one.  A line of normals or of texture
    coordinates ([vn ...], [vt ...]) begins with [v] and is read as a vertex
    too: there are as many vertices as lines beginning with [v]. *)
Theorem obj_file_is_read_by_first_character `{PyFloat} `{PyInt}
    (lines : list string) (vertices : list point3) (faces : list triangle) :
  (read_obj_file lines = Ok (vertices, faces) <->
   Forall (fun line => line <> EmptyString) lines /\
   mapM read_vertex (List.filter (starts_with "v") lines) = Ok vertices /\
   mapM read_face (List.filter (starts_with "f") lines) = Ok faces) /\
  (read_obj_file lines = Ok (vertices, faces) ->
   length vertices = length (List.filter (starts_with "v") lines) /\
   length faces = length (List.filter (starts_with "f") lines)).
Proof.
  assert (Hiff : read_obj_file lines = Ok (vertices, faces) <->
            Forall (fun line => line <> EmptyString) lines /\
            mapM read_vertex (List.filter (starts_with "v") lines) = Ok vertices /\
            mapM read_face (List.filter (starts_with "f") lines) = Ok faces).
  { unfold read_obj_file. rewrite read_obj_lines_spec. split.
    - intros (Hne & (vs & E1 & ->) & (fs & E2 & ->)). auto.
    - intros (Hne & E1 & E2). split; [exact Hne|]. split; eauto. }
  split; [exact Hiff|].
  intros Hr. apply Hiff in Hr as (_ & E1 & E2).
  split; eapply mapM_length; eassumption.
Qed.

(** [float] and [int] for the examples: unsigned decimal integers, with or
    without the newline that ends a line. *)
Definition strip_newline (s : string) : string :=
  match String.index 0 (String (ascii_of_nat 10) EmptyString) s with
  | Some n => String.substring 0 n s
  | None => s
  end.

Definition digits_line_float : PyFloat :=
  {| py_float := fun s => @py_float digits_float (strip_newline s) |}.

Definition digits_line_int : PyInt :=
  {| py_int := fun s =>
       match strip_newline s with
       | EmptyString => None
       | t => digits_value 0 t
       end |}.

(** A file with a comment, a line of normals and a face that names vertex 0. *)
Example obj_file_with_normals :
  @read_obj_file digits_line_float digits_line_int
    ["# wedge"; "v 0 0 5"; "v 1 0 5"; "vn 0 0 1"; "f 1 2 3"; "f 0 1 2"]
  = Ok ([(0, 0, 5); (1, 0, 5); (0, 0, 1)]%Q, [(0, 1, 2); (-1, 0, 1)]).
Proof. reflexivity. Qed.

(** X17.  [read_position_file] tells a file without an object by its length
    alone: a file of exactly two lines gives [None], whatever the lines say,
    and [None] is given for no other file.  A pose is returned only for a
    file of at least eleven lines; a file of fewer than two lines raises
    IndexError. *)
Theorem position_file_is_told_by_its_length `{PyFloat} `{PyInt}
    (lines : list string) :
  (length lines = 2%nat -> read_position_file lines = Ok None) /\
  (forall r, read_position_file lines = Ok r ->
     (r = None /\ length lines = 2%nat) \/
     (exists p, r = Some p /\ (11 <= length lines)%nat)) /\
  ((length lines < 2)%nat -> read_position_file lines = Err IndexError).
Proof.
  unfold read_position_file. split; [|split].
  - intros ->. reflexivity.
  - intros r Hr. destruct (Nat.eqb_spec (length lines) 2) as [E|E].
    + injection Hr as <-. left. auto.
    + right.
      repeat lazymatch type of Hr with
      | mbind _ ?m = Ok _ =>
          let E := fresh "E" in
          destruct m eqn:E; cbn [mbind result_bind] in Hr; [|discriminate Hr]
      end.
      injection Hr as <-. eexists. split; [reflexivity|].
      match goal with
      | E : np_index lines 10 = Ok _ |- _ =>
          apply np_index_ok_valid in E; unfold valid_index in E; lia
      end.
  - intros Hlen. destruct lines as [|a [|b l]]; simpl in Hlen; try lia; reflexivity.
Qed.

Example position_file_example :
  @read_position_file digits_line_float digits_line_int
    ["image size"; "640 480"; "ape"; "rotation:"; "1 0 0"; "0 1 0"; "0 0 1";
     "center:"; "0 0 1"; "extent:"; "1 1 1"]
  = Ok (Some ([640; 480], "ape",
              [[1; 0; 0]; [0; 1; 0]; [0; 0; 1]]%Q, [0; 0; 1]%Q, [1; 1; 1]%Q)).
Proof. reflexivity. Qed.

(** ** The split into training and validation data: [DPOD/datasets/__init__.py] *)

(** [np.random.shuffle]: some rearrangement of the array. *)
Class NumpyRandom := {
  shuffle : list nat -> list nat;
  shuffle_perm : forall l, Permutation (shuffle l) l
}.

(** The position at which [l[k:]] starts and [l[:k]] stops, for a list of
    length [n]: a negative [k] counts from the end, and the result is clamped
    to the list. *)
Definition slice_bound (n : nat) (k : Z) : nat :=
  if k <? 0 then Z.to_nat (Z.max 0 (Z.of_nat n + k))
  else Z.to_nat (Z.min k (Z.of_nat n)).

Definition slice_from {A} (l : list A) (k : Z) : list A :=
  skipn (slice_bound (length l) k) l.

Definition slice_to {A} (l : list A) (k : Z) : list A :=
  firstn (slice_bound (length l) k) l.

(** The product of two floats: the exact product rounded to a float64. *)
Class Float64 := {
  float_mul : Q -> Q -> Q
}.

(** [make_dataset(args, name)].  The class [KaggleImageMaskDataset] is not
    among the files at hand; only the length of the data set enters the
    split, and a [Subset] is given by its list of indices.  The result is
    [(train_data, val_data)].  [args.val_size] is a float, so
    [len(indices) * args.val_size] is the rounded product, of which [int]
    takes the integer part. *)
Definition make_dataset `{NumpyRandom} `{Float64} (dataset_length : nat)
    (val_size : Q) (name : string) : result (list nat * list nat) :=
  if contains "kaggle" name then
    let indices := shuffle (seq 0 dataset_length) in
    let k := Qtrunc (float_mul (inject_Z (Z.of_nat (length indices))) val_size) in
    let train_data := slice_from indices k in
    let val_data := slice_to indices k in
    Ok (train_data, val_data)
  else Err AttributeError.

(** Products that need no rounding, as those of an integer below 2^53 and a
    negative power of two are. *)
Definition exact_products : Float64 := {| float_mul := Qmult |}.

(** A shuffle for the examples: the array reversed. *)
Definition reversing_shuffle : NumpyRandom :=
  {| shuffle := @rev nat;
     shuffle_perm := fun l => Permutation_sym (Permutation_rev l) |}.

Lemma NoDup_app_disjoint {A} (v t : list A) (a : A) :
  List.NoDup (v ++ t) -> In a v -> In a t -> False.
Proof.
  intros Hnd Hv Ht. induction v as [|b v IH]; [destruct Hv|].
  simpl in Hnd. apply List.NoDup_cons_iff in Hnd as [Hb Hnd].
  destruct Hv as [-> | Hv]; [|exact (IH Hnd Hv)].
  apply Hb. apply in_or_app. now right.
Qed.

(** X18.  [make_dataset] splits the data set: for a name that contains
    [kaggle] and any [val_size] whatever, every index of the data set lies
    in exactly one of the two subsets, once; the validation subset is the
    head of the shuffled indices, and it has [int(len * val_size)] elements
    when that number lies between 0 and the length of the data set, the
    product being the float product.  Any other name raises
    AttributeError. *)
Theorem make_dataset_splits_the_indices `{NumpyRandom} `{Float64}
    (dataset_length : nat) (val_size : Q) (name : string) :
  (contains "kaggle" name = true ->
   exists train_data val_data,
     make_dataset dataset_length val_size name = Ok (train_data, val_data) /\
     val_data ++ train_data = shuffle (seq 0 dataset_length) /\
     Permutation (val_data ++ train_data) (seq 0 dataset_length) /\
     (forall i, (i < dataset_length)%nat ->
        (In i train_data /\ ~ In i val_data) \/ (In i val_data /\ ~ In i train_data)) /\
     List.NoDup train_data /\ List.NoDup val_data /\
     (0 <= Qtrunc (float_mul (inject_Z (Z.of_nat dataset_length)) val_size)
        <= Z.of_nat dataset_length ->
      Z.of_nat (length val_data)
      = Qtrunc (float_mul (inject_Z (Z.of_nat dataset_length)) val_size))) /\
  (contains "kaggle" name = false ->
   make_dataset dataset_length val_size name = Err AttributeError).
Proof.
  unfold make_dataset. split; intros ->; [|reflexivity].
  set (indices := shuffle (seq 0 dataset_length)).
  assert (Hperm : Permutation indices (seq 0 dataset_length))
    by apply shuffle_perm.
  assert (Hlen : length indices = dataset_length)
    by (rewrite (Permutation_length Hperm); apply length_seq).
  set (k := Qtrunc (float_mul (inject_Z (Z.of_nat (length indices))) val_size)).
  eexists _, _. split; [reflexivity|].
  assert (Happ : slice_to indices k ++ slice_from indices k = indices)
    by apply firstn_skipn.
  assert (Hnd : List.NoDup (slice_to indices k ++ slice_from indices k)).
  { rewrite Happ. apply (Permutation_NoDup (Permutation_sym Hperm)), seq_NoDup. }
  split; [exact Happ|]. split; [rewrite Happ; exact Hperm|].
  split; [|split; [|split]].
  - intros i Hi.
    assert (Hin : In i (slice_to indices k ++ slice_from indices k)).
    { rewrite Happ. apply (Permutation_in _ (Permutation_sym Hperm)).
      apply in_seq. lia. }
    apply in_app_or in Hin as [Hv | Ht].
    + right. split; [exact Hv|]. intros Ht.
      exact (NoDup_app_disjoint _ _ _ Hnd Hv Ht).
    + left. split; [exact Ht|]. intros Hv.
      exact (NoDup_app_disjoint _ _ _ Hnd Hv Ht).
  - eapply NoDup_app_remove_l. exact Hnd.
  - eapply NoDup_app_remove_r. exact Hnd.
  - intros Hk. unfold slice_to. rewrite length_firstn.
    subst k. rewrite Hlen.
    set (n := Z.of_nat dataset_length) in *.
    unfold slice_bound. fold n.
    destruct (Z.ltb_spec (Qtrunc (float_mul (inject_Z n) val_size)) 0); lia.
Qed.

Lemma make_dataset_splits_the_indices_witness :
  exists train_data val_data,
    @make_dataset reversing_shuffle exact_products 8 (1 # 4) "kaggle_train"
      = Ok (train_data, val_data) /\
    val_data ++ train_data = @shuffle reversing_shuffle (seq 0 8) /\
    Permutation (val_data ++ train_data) (seq 0 8) /\
    (forall i, (i < 8)%nat ->
       (In i train_data /\ ~ In i val_data) \/ (In i val_data /\ ~ In i train_data)) /\
    List.NoDup train_data /\ List.NoDup val_data /\
    length val_data = 2%nat.
Proof.
  destruct (proj1 (@make_dataset_splits_the_indices reversing_shuffle exact_products
                     8 (1 # 4) "kaggle_train") eq_refl)
    as (train_data & val_data & H1 & H2 & H3 & H4 & H5 & H6 & H7).
  exists train_data, val_data.
  refine (conj H1 (conj H2 (conj H3 (conj H4 (conj H5 (conj H6 _)))))).
  apply Nat2Z.inj. rewrite H7; [reflexivity|]. vm_compute. split; discriminate.
Defined.

Example make_dataset_example :
  @make_dataset reversing_shuffle exact_products 8 (1 # 4) "kaggle_train"
    = Ok ([5; 4; 3; 2; 1; 0], [7; 6])%nat /\
  @make_dataset reversing_shuffle exact_products 8 (1 # 4) "linemod"
    = Err AttributeError.
Proof. split; reflexivity. Qed.

(** ** What an iteration of the recovery loop writes *)

Lemma fold_insert_length {A} (v : A) (idxs : list nat) (d : list A) :
  length (fold_left (fun d n => <[n := v]> d) idxs d) = length d.
Proof.
  revert d. induction idxs as [|n idxs IH]; intros d; simpl; [reflexivity|].
  rewrite IH. apply length_insert.
Qed.

Lemma fold_insert_written {A} (v : A) (idxs : list nat) (d : list A) (n : nat) :
  In n idxs -> (n < length d)%nat ->
  fold_left (fun d n => <[n := v]> d) idxs d !! n = Some v.
Proof.
  revert d. induction idxs as [|m idxs IH]; intros d Hin Hn; [destruct Hin|].
  simpl. destruct (in_dec Nat.eq_dec n idxs) as [Hin' | Hnot].
  - apply IH; [exact Hin' | now rewrite length_insert].
  - destruct Hin as [-> | Hin]; [|contradiction].
    clear IH. revert d Hn. induction idxs as [|k idxs IH]; intros d Hn; simpl.
    + now apply list_lookup_insert_eq.
    + assert (Hk : k <> n) by (intros ->; apply Hnot; now left).
      rewrite list_insert_insert_ne by exact Hk.
      apply IH; [intros Hin; apply Hnot; now right | now rewrite length_insert].
Qed.

Lemma fold_insert_untouched {A} (v : A) (idxs : list nat) (d : list A) (n : nat) :
  ~ In n idxs -> fold_left (fun d n => <[n := v]> d) idxs d !! n = d !! n.
Proof.
  revert d. induction idxs as [|m idxs IH]; intros d Hnot; simpl; [reflexivity|].
  rewrite IH by (intros Hin; apply Hnot; now right).
  apply list_lookup_insert_ne. intros ->. apply Hnot. now left.
Qed.

(** The flat positions [p[ch, I, J] = v] writes to. *)
Definition written_positions (h w : nat) (chans : list nat) (pos : list (nat * nat))
  : list nat :=
  flat_map (fun ij => map (fun k => (k * h * w + fst ij * w + snd ij)%nat) chans) pos.

Lemma nested_fold_insert {A} (v : A) (h w : nat) (chans : list nat)
    (pos : list (nat * nat)) (d : list A) :
  fold_left
    (fun d (ij : nat * nat) =>
       fold_left (fun d k => <[(k * h * w + fst ij * w + snd ij)%nat := v]> d) chans d)
    pos d
  = fold_left (fun d n => <[n := v]> d) (written_positions h w chans pos) d.
Proof.
  revert d. induction pos as [|ij pos IH]; intros d; [reflexivity|].
  cbn [fold_left written_positions flat_map]. rewrite fold_left_app.
  fold (written_positions h w chans pos). rewrite <- IH. f_equal.
  clear. revert d. induction chans as [|k chans IH]; intros d; [reflexivity|].
  simpl. apply IH.
Qed.

(** The pixels [(I, J)] names, negative indices resolved. *)
Definition pixel_positions (h w : nat) (I J : list Z) : result (list (nat * nat)) :=
  mapM (fun ij => i ← norm_index h (fst ij);
                  j ← norm_index w (snd ij);
                  Ok (i, j)) (combine I J).

Lemma set_pixels_data (p p' : ndarray Q) (c h w : nat) (ch : option Z)
    (I J : list Z) (v : Q) :
  shape p = [c; h; w] ->
  set_pixels p ch I J v = Ok p' ->
  exists chans pos,
    match ch with
    | None => chans = seq 0 c
    | Some k => exists k', norm_index c k = Ok k' /\ chans = [k']
    end /\
    pixel_positions h w I J = Ok pos /\
    shape p' = [c; h; w] /\
    data p' = fold_left (fun d n => <[n := v]> d)
                (written_positions h w chans pos) (data p).
Proof.
  intros Hs Hp. unfold set_pixels in Hp. rewrite Hs in Hp.
  destruct ch as [k|].
  - destruct (norm_index c k) as [k'|] eqn:Ek; cbn [mbind result_bind] in Hp;
      [|discriminate].
    destruct (length I =? length J)%nat; [|discriminate].
    fold (pixel_positions h w I J) in Hp.
    destruct (pixel_positions h w I J) as [pos|]; cbn [mbind result_bind] in Hp;
      [|discriminate].
    injection Hp as <-. exists [k'], pos. cbn [shape data].
    split; [eauto|]. split; [reflexivity|]. split; [reflexivity|].
    exact (nested_fold_insert v h w [k'] pos (data p)).
  - cbn [mbind result_bind] in Hp.
    destruct (length I =? length J)%nat; [|discriminate].
    fold (pixel_positions h w I J) in Hp.
    destruct (pixel_positions h w I J) as [pos|]; cbn [mbind result_bind] in Hp;
      [|discriminate].
    injection Hp as <-. exists (seq 0 c), pos. cbn [shape data].
    split; [reflexivity|]. split; [reflexivity|]. split; [reflexivity|].
    exact (nested_fold_insert v h w (seq 0 c) pos (data p)).
Qed.

Lemma norm_index_bound (n : nat) (i : Z) (k : nat) :
  norm_index n i = Ok k -> (k < n)%nat.
Proof.
  unfold norm_index.
  destruct (Z.ltb_spec i 0).
  - destruct (Z.leb_spec 0 (Z.of_nat n + i));
      destruct (Z.ltb_spec (Z.of_nat n + i) (Z.of_nat n)); simpl;
      try discriminate. intros E. injection E as <-. lia.
  - destruct (Z.leb_spec 0 i); destruct (Z.ltb_spec i (Z.of_nat n)); simpl;
      try discriminate. intros E. injection E as <-. lia.
Qed.

Lemma pixel_positions_spec (h w : nat) (I J : list Z) (pos : list (nat * nat)) :
  pixel_positions h w I J = Ok pos ->
  (forall iz jz i j, In (iz, jz) (combine I J) ->
     norm_index h iz = Ok i -> norm_index w jz = Ok j -> In (i, j) pos) /\
  (forall i j, In (i, j) pos -> (i < h)%nat /\ (j < w)%nat).
Proof.
  unfold pixel_positions. generalize (combine I J) as l. clear I J.
  intros l. revert pos. induction l as [|[iz0 jz0] l IH]; intros pos Hp; simpl in Hp.
  - injection Hp as <-. split; [intros ? ? ? ? [] | intros ? ? []].
  - cbn [fst snd] in Hp.
    destruct (norm_index h iz0) as [i0|] eqn:Ei; cbn [mbind result_bind] in Hp;
      [|discriminate].
    destruct (norm_index w jz0) as [j0|] eqn:Ej; cbn [mbind result_bind] in Hp;
      [|discriminate].
    destruct (mapM _ l) as [pos'|] eqn:El; cbn [mbind result_bind] in Hp;
      [|discriminate].
    injection Hp as <-. destruct (IH pos' eq_refl) as [IH1 IH2]. split.
    + intros iz jz i j [E | Hin] Hi Hj.
      * injection E as -> ->. left. congruence.
      * right. eapply IH1; eassumption.
    + intros i j [E | Hin].
      * injection E as <- <-. split; eapply norm_index_bound; eassumption.
      * now apply IH2.
Qed.

Lemma flat_index_unique (h w k i j k' i' j' : nat) :
  (i < h)%nat -> (j < w)%nat -> (i' < h)%nat -> (j' < w)%nat ->
  (k * h * w + i * w + j = k' * h * w + i' * w + j')%nat ->
  k = k' /\ i = i' /\ j = j'.
Proof.
  intros Hi Hj Hi' Hj' E.
  assert (Hr : (i * w + j < h * w)%nat) by nia.
  assert (Hr' : (i' * w + j' < h * w)%nat) by nia.
  assert (Hk : k = k').
  { destruct (Nat.lt_trichotomy k k') as [Hlt | [-> | Hgt]]; [nia | reflexivity | nia]. }
  subst k'. assert (E' : (i * w + j = i' * w + j')%nat) by lia.
  assert (Hii : i = i').
  { destruct (Nat.lt_trichotomy i i') as [Hlt | [-> | Hgt]]; [nia | reflexivity | nia]. }
  subst i'. split; [reflexivity|]. split; [reflexivity | lia].
Qed.

Lemma written_positions_In (h w : nat) (chans : list nat) (pos : list (nat * nat))
    (n : nat) :
  In n (written_positions h w chans pos) <->
  exists i j k, In (i, j) pos /\ In k chans /\ n = (k * h * w + i * w + j)%nat.
Proof.
  unfold written_positions. rewrite in_flat_map. split.
  - intros ([i j] & Hin & Hn). apply in_map_iff in Hn as (k & <- & Hk).
    exists i, j, k. auto.
  - intros (i & j & k & Hin & Hk & ->). exists (i, j). split; [exact Hin|].
    apply in_map_iff. exists k. auto.
Qed.

Lemma pixel_positions_from (h w : nat) (I J : list Z) (pos : list (nat * nat)) :
  pixel_positions h w I J = Ok pos ->
  forall i j, In (i, j) pos ->
    exists iz jz, In (iz, jz) (combine I J) /\
                  norm_index h iz = Ok i /\ norm_index w jz = Ok j.
Proof.
  unfold pixel_positions. generalize (combine I J) as l. clear I J.
  intros l. revert pos. induction l as [|[iz0 jz0] l IH]; intros pos Hp; simpl in Hp.
  - injection Hp as <-. intros ? ? [].
  - cbn [fst snd] in Hp.
    destruct (norm_index h iz0) as [i0|] eqn:Ei; cbn [mbind result_bind] in Hp;
      [|discriminate].
    destruct (norm_index w jz0) as [j0|] eqn:Ej; cbn [mbind result_bind] in Hp;
      [|discriminate].
    destruct (mapM _ l) as [pos'|] eqn:El; cbn [mbind result_bind] in Hp;
      [|discriminate].
    injection Hp as <-. intros i j [E | Hin].
    + injection E as <- <-. exists iz0, jz0. split; [now left | auto].
    + destruct (IH pos' eq_refl i j Hin) as (iz & jz & H1 & H2).
      exists iz, jz. split; [now right | exact H2].
Qed.

Lemma argmax_from_zeros_one (b i m : nat) :
  argmax_from b 0 i (repeat 0%Q m ++ [1%Q]) = (i + m)%nat.
Proof.
  revert i. induction m as [|m IH]; intros i; simpl.
  - lia.
  - rewrite IH. lia.
Qed.

Lemma argmax_list_zeros_one (m : nat) :
  argmax_list (repeat 0%Q m ++ [1%Q]) = Ok (Z.of_nat m).
Proof.
  destruct m as [|m]; [reflexivity|].
  simpl. rewrite argmax_from_zeros_one. reflexivity.
Qed.

Lemma mapM_nth_error {A B} (f : A -> result B) (l : list A) (r : list B)
    (n : nat) (a : A) :
  mapM f l = Ok r -> nth_error l n = Some a ->
  exists b, f a = Ok b /\ nth_error r n = Some b.
Proof.
  revert r n. induction l as [|x l IH]; intros r n Hr Hn; [destruct n; discriminate|].
  simpl in Hr.
  destruct (f x) as [y|] eqn:Ex; cbn [mbind result_bind] in Hr; [|discriminate].
  destruct (mapM f l) as [r'|]; cbn [mbind result_bind] in Hr; [|discriminate].
  injection Hr as <-. destruct n as [|n]; simpl in *.
  - injection Hn as <-. eauto.
  - eapply IH; [reflexivity | exact Hn].
Qed.

(** One entry of [np.argmax(a, axis=0)]: the position of the first greatest
    element of the column through that entry. *)
Lemma np_argmax0_entry (a : ndarray Q) (c : nat) (rest : list nat)
    (classes : ndarray Z) (n : nat) :
  shape a = c :: rest -> np_argmax0 a = Ok classes -> (n < nd_size rest)%nat ->
  exists k,
    argmax_list (map (fun k => nth (k * nd_size rest + n) (data a) 0%Q) (seq 0 c))
      = Ok k /\
    nth_error (data classes) n = Some k.
Proof.
  intros Hs Ha Hn. unfold np_argmax0 in Ha. rewrite Hs in Ha.
  destruct (mapM _ (seq 0 (nd_size rest))) as [cols|] eqn:Ec;
    cbn [mbind result_bind] in Ha; [|discriminate].
  injection Ha as <-. cbn [data].
  assert (Hnth : nth_error (seq 0 (nd_size rest)) n = Some n).
  { rewrite nth_error_nth' with (d := O) by (now rewrite length_seq).
    now rewrite seq_nth. }
  destruct (mapM_nth_error _ _ _ _ _ Ec Hnth) as (k & Hk & Hr). eauto.
Qed.

Lemma map_all_equal {A B} (f : A -> B) (v : B) (l : list A) :
  (forall x, In x l -> f x = v) -> map f l = repeat v (length l).
Proof.
  induction l as [|a l IH]; intros Hf; simpl; [reflexivity|].
  rewrite Hf by (now left). f_equal. apply IH. intros x Hx. apply Hf. now right.
Qed.

Lemma column_zeros_one (f : nat -> Q) (c : nat) :
  (1 <= c)%nat -> (forall k, (k < c - 1)%nat -> f k = 0%Q) -> f (c - 1)%nat = 1%Q ->
  map f (seq 0 c) = repeat 0%Q (c - 1) ++ [1%Q].
Proof.
  intros Hc Hz Ho.
  assert (E : c = (c - 1 + 1)%nat) by lia.
  rewrite E at 1. rewrite seq_app, map_app. cbn [seq map Nat.add]. rewrite Ho.
  f_equal. rewrite (map_all_equal f 0%Q), length_seq; [reflexivity|].
  intros k Hk. apply in_seq in Hk. apply Hz. lia.
Qed.

Lemma norm_index_last (c : nat) (k : nat) :
  norm_index c (-1) = Ok k -> (k = c - 1)%nat /\ (1 <= c)%nat.
Proof.
  unfold norm_index. change (-1 <? 0) with true. cbv iota.
  destruct (Z.leb_spec 0 (Z.of_nat c + -1));
    destruct (Z.ltb_spec (Z.of_nat c + -1) (Z.of_nat c)); cbn [andb];
    try discriminate.
  intros E. injection E as E. lia.
Qed.

(** X19.  The two assignments that close an iteration of the recovery loop,
    [probabilities[:, I, J] = 0] and [probabilities[-1, I, J] = 1], turn
    every pixel named by the inlier positions into a background pixel: the
    next [np.argmax(probabilities, axis=0)] gives the background id there.
    Every other pixel keeps the class it had. *)
Theorem marked_pixels_become_background (p p1 p2 : ndarray Q) (c h w : nat)
    (I J : list Z) (classes0 classes : ndarray Z) :
  shape p = [c; h; w] -> length (data p) = (c * h * w)%nat ->
  np_argmax0 p = Ok classes0 ->
  set_pixels p None I J 0 = Ok p1 ->
  set_pixels p1 (Some (-1)) I J 1 = Ok p2 ->
  np_argmax0 p2 = Ok classes ->
  (forall iz jz i j,
     In (iz, jz) (combine I J) ->
     norm_index h iz = Ok i -> norm_index w jz = Ok j ->
     nth_error (data classes) (i * w + j) = Some (Z.of_nat c - 1)) /\
  (forall i j,
     (i < h)%nat -> (j < w)%nat ->
     (forall iz jz, In (iz, jz) (combine I J) ->
        ~ (norm_index h iz = Ok i /\ norm_index w jz = Ok j)) ->
     nth_error (data classes) (i * w + j) = nth_error (data classes0) (i * w + j)).
Proof.
  intros Hs Hlen Ha0 H1 H2 Ha.
  destruct (set_pixels_data p p1 c h w None I J 0 Hs H1)
    as (chans1 & pos & -> & Hpos & Hs1 & Hd1).
  destruct (set_pixels_data p1 p2 c h w (Some (-1)) I J 1 Hs1 H2)
    as (chans2 & pos' & (k' & Hk' & ->) & Hpos' & Hs2 & Hd2).
  rewrite Hpos in Hpos'. injection Hpos' as <-.
  destruct (norm_index_last c k' Hk') as [-> Hc].
  destruct (pixel_positions_spec h w I J pos Hpos) as [Hin Hbound].
  pose proof (pixel_positions_from h w I J pos Hpos) as Hfrom.
  assert (Hl1 : length (data p1) = (c * h * w)%nat)
    by (rewrite Hd1, fold_insert_length; exact Hlen).
  assert (Hsize : nd_size [h; w] = (h * w)%nat) by (simpl; lia).
  assert (Hflat : forall k i j, (k * nd_size [h; w] + (i * w + j)
                                 = k * h * w + i * w + j)%nat)
    by (intros; rewrite Hsize; lia).
  split.
  - intros iz jz i j Hij Hi Hj.
    pose proof (Hin iz jz i j Hij Hi Hj) as Hp.
    destruct (Hbound i j Hp) as [Hih Hjw].
    destruct (np_argmax0_entry p2 c [h; w] classes (i * w + j) Hs2 Ha)
      as (k & Hk & Hn); [rewrite Hsize; nia|].
    rewrite Hn. f_equal.
    assert (Hcol : map (fun k => nth (k * nd_size [h; w] + (i * w + j)) (data p2) 0%Q)
                       (seq 0 c)
                   = repeat 0%Q (c - 1) ++ [1%Q]).
    { apply column_zeros_one; [exact Hc | |].
      - intros k0 Hk0. rewrite Hflat, nth_lookup.
        rewrite Hd2, fold_insert_untouched.
        + rewrite Hd1, fold_insert_written; [reflexivity | | rewrite Hlen; nia].
          apply written_positions_In. exists i, j, k0.
          split; [exact Hp|]. split; [apply in_seq; lia | reflexivity].
        + intros Hw. apply written_positions_In in Hw
            as (i' & j' & k1 & Hp' & [<- | []] & E).
          destruct (Hbound i' j' Hp') as [? ?].
          destruct (flat_index_unique h w k0 i j (c - 1) i' j') as (? & _);
            try assumption. lia.
      - rewrite Hflat, nth_lookup.
        rewrite Hd2, fold_insert_written; [reflexivity | | rewrite Hl1; nia].
        apply written_positions_In. exists i, j, (c - 1)%nat.
        split; [exact Hp|]. split; [now left | reflexivity]. }
    rewrite Hcol, argmax_list_zeros_one in Hk. injection Hk as <-. lia.
  - intros i j Hih Hjw Hnot.
    assert (Hp : ~ In (i, j) pos).
    { intros Hp. destruct (Hfrom i j Hp) as (iz & jz & Hij & Hi & Hj).
      exact (Hnot iz jz Hij (conj Hi Hj)). }
    destruct (np_argmax0_entry p2 c [h; w] classes (i * w + j) Hs2 Ha)
      as (k & Hk & Hn); [rewrite Hsize; nia|].
    destruct (np_argmax0_entry p c [h; w] classes0 (i * w + j) Hs Ha0)
      as (k0 & Hk0 & Hn0); [rewrite Hsize; nia|].
    rewrite Hn, Hn0. f_equal.
    assert (Hcol : map (fun k => nth (k * nd_size [h; w] + (i * w + j)) (data p2) 0%Q)
                       (seq 0 c)
                   = map (fun k => nth (k * nd_size [h; w] + (i * w + j)) (data p) 0%Q)
                       (seq 0 c)).
    { apply map_ext_in. intros k1 Hk1. apply in_seq in Hk1.
      rewrite Hflat, !nth_lookup.
      rewrite Hd2, fold_insert_untouched.
      - rewrite Hd1, fold_insert_untouched; [reflexivity|].
        intros Hw. apply written_positions_In in Hw as (i' & j' & k2 & Hp' & _ & E).
        destruct (Hbound i' j' Hp') as [? ?].
        destruct (flat_index_unique h w k1 i j k2 i' j') as (_ & -> & ->);
          try assumption. contradiction.
      - intros Hw. apply written_positions_In in Hw as (i' & j' & k2 & Hp' & _ & E).
        destruct (Hbound i' j' Hp') as [? ?].
        destruct (flat_index_unique h w k1 i j k2 i' j') as (_ & -> & ->);
          try assumption. contradiction. }
    rewrite Hcol, Hk0 in Hk. now injection Hk.
Qed.

Lemma marked_pixels_become_background_witness :
  nth_error [1; 0] (0 * 2 + 0) = Some (Z.of_nat 2 - 1) /\
  nth_error [1; 0] (0 * 2 + 1) = nth_error [0; 0] (0 * 2 + 1).
Proof.
  destruct (marked_pixels_become_background twin_scores
              (mk_nd [2; 1; 2]%nat [0; 5; 0; 0]%Q) twin_marked 2 1 2 [0] [0]
              (mk_nd [1; 2]%nat [0; 0]) (mk_nd [1; 2]%nat [1; 0]))
    as [Hmarked Hkept]; try reflexivity.
  split.
  - apply (Hmarked 0 0 0%nat 0%nat); [now left | reflexivity | reflexivity].
  - apply (Hkept 0%nat 1%nat); [lia | lia |].
    intros iz jz [E | []] [_ Hj]. injection E as <- <-. discriminate Hj.
Defined.

(** ** The class an iteration picks *)

(** [m] is at least as good a mode as [x]: more frequent, or as frequent and
    not greater. *)
Definition beats (l : list Z) (m x : Z) : Prop :=
  (count_in l x < count_in l m)%nat \/ (count_in l x = count_in l m /\ m <= x).

Lemma beats_refl (l : list Z) (m : Z) : beats l m m.
Proof. right. split; [reflexivity | lia]. Qed.

Lemma beats_trans (l : list Z) (a b c : Z) : beats l a b -> beats l b c -> beats l a c.
Proof. unfold beats. intros [?|[? ?]] [?|[? ?]]; [left; lia ..| right; lia]. Qed.

Lemma mode_from_best (l cands : list Z) (best : Z) :
  (mode_from l cands best = best \/ In (mode_from l cands best) cands) /\
  beats l (mode_from l cands best) best /\
  forall x, In x cands -> beats l (mode_from l cands best) x.
Proof.
  revert best. induction cands as [|x r IH]; intros best; simpl.
  - split; [now left|]. split; [apply beats_refl | intros ? []].
  - set (cb := count_in l best). set (cx := count_in l x).
    destruct ((cb <? cx)%nat || ((cb =? cx)%nat && (x <? best))) eqn:E.
    + destruct (IH x) as (Hin & Hb & Hall).
      assert (Hxb : beats l x best).
      { apply orb_true_iff in E as [E | E].
        - apply Nat.ltb_lt in E. left. exact E.
        - apply andb_true_iff in E as [E1 E2].
          apply Nat.eqb_eq in E1. apply Z.ltb_lt in E2. right. split; [exact E1 | lia]. }
      split; [destruct Hin as [-> | Hin]; auto|].
      split; [eapply beats_trans; eassumption|].
      intros y [<- | Hy]; [exact Hb | apply Hall, Hy].
    + destruct (IH best) as (Hin & Hb & Hall).
      assert (Hbx : beats l best x).
      { apply orb_false_iff in E as [E1 E2]. apply Nat.ltb_ge in E1.
        apply andb_false_iff in E2.
        destruct (Nat.eq_dec cb cx) as [Heq | Hne]; [|left; fold cb cx; lia].
        right. split; [fold cb cx; lia|].
        destruct E2 as [E2 | E2]; [apply Nat.eqb_neq in E2; contradiction|].
        apply Z.ltb_ge in E2. exact E2. }
      split; [destruct Hin as [-> | Hin]; auto|].
      split; [exact Hb|].
      intros y [<- | Hy]; [eapply beats_trans; eassumption | apply Hall, Hy].
Qed.

Lemma stats_mode_best (l : list Z) (m : Z) :
  stats_mode l = Ok m -> In m l /\ forall x, In x l -> beats l m x.
Proof.
  destruct l as [|x r]; simpl; [discriminate|].
  intros E. injection E as <-.
  destruct (mode_from_best (x :: r) r x) as (Hin & Hb & Hall).
  split; [destruct Hin as [-> | Hin]; [now left | now right]|].
  intros y [<- | Hy]; [exact Hb | apply Hall, Hy].
Qed.

Lemma select_by_test {A} (f : A -> bool) (l : list A) :
  select l (map f l) = List.filter f l.
Proof.
  induction l as [|a l IH]; simpl; [reflexivity|].
  destruct (f a); now rewrite IH.
Qed.

Lemma count_in_cons (l : list Z) (a x : Z) :
  count_in (a :: l) x = if x =? a then S (count_in l x) else count_in l x.
Proof.
  unfold count_in. rewrite filter_cons.
  destruct (x =? a); destruct (decide _) as [Ht | Hf]; simpl in *;
    try reflexivity; try contradiction.
Qed.

Lemma count_in_filter (f : Z -> bool) (l : list Z) (x : Z) :
  f x = true -> count_in (List.filter f l) x = count_in l x.
Proof.
  intros Hx. induction l as [|a l IH]; [reflexivity|].
  cbn [List.filter]. rewrite (count_in_cons l).
  destruct (f a) eqn:Ea.
  - rewrite count_in_cons. now rewrite IH.
  - destruct (Z.eqb_spec x a) as [-> | _]; [congruence | exact IH].
Qed.

Lemma count_in_absent (l : list Z) (x : Z) : ~ In x l -> count_in l x = O.
Proof.
  intros Hx. induction l as [|a l IH]; [reflexivity|].
  rewrite count_in_cons.
  destruct (Z.eqb_spec x a) as [-> | _]; [exfalso; apply Hx; now left|].
  apply IH. intros Hin. apply Hx. now right.
Qed.

Lemma count_in_present (l : list Z) (x : Z) : In x l -> (0 < count_in l x)%nat.
Proof.
  intros Hx. induction l as [|a l IH]; [destruct Hx|].
  rewrite count_in_cons.
  destruct (Z.eqb_spec x a) as [-> | Hne]; [lia|].
  destruct Hx as [-> | Hx]; [contradiction | apply IH, Hx].
Qed.

(** X20.  The class an iteration of the recovery loop works on is never the
    background: [most_frequent_class] is the class of at least one pixel
    under [np.argmax], it differs from the background id, and among the
    classes other than the background no class has more pixels; of several
    classes with the greatest number of pixels it is the one of least id. *)
Theorem most_frequent_class_is_a_foreground_mode (probabilities : ndarray Q)
    (background_id k : Z) :
  Kaggle.most_frequent_class probabilities background_id = Ok k ->
  exists classes,
    np_argmax0 probabilities = Ok classes /\
    In k (data classes) /\
    k <> background_id /\
    forall x, x <> background_id ->
      (count_in (data classes) x < count_in (data classes) k)%nat \/
      (count_in (data classes) x = count_in (data classes) k /\ k <= x).
Proof.
  unfold Kaggle.most_frequent_class. intros Hk.
  destruct (np_argmax0 probabilities) as [classes|]; cbn [mbind result_bind] in Hk;
    [|discriminate].
  unfold np_mask_select, np_ne_scalar_int in Hk. cbn [shape data] in Hk.
  destruct (decide (shape classes = shape classes)); [|contradiction].
  cbn [mbind result_bind data] in Hk. rewrite select_by_test in Hk.
  set (fg := fun x => negb (x =? background_id)) in Hk.
  apply stats_mode_best in Hk as [Hin Hbest].
  apply filter_In in Hin as [Hin Hfg].
  assert (Hne : k <> background_id).
  { subst fg. cbn beta in Hfg. apply negb_true_iff, Z.eqb_neq in Hfg. exact Hfg. }
  exists classes. split; [reflexivity|]. split; [exact Hin|]. split; [exact Hne|].
  intros x Hx.
  assert (Hfx : fg x = true) by (subst fg; cbn beta; apply negb_true_iff, Z.eqb_neq, Hx).
  rewrite <- (count_in_filter fg (data classes) x Hfx).
  rewrite <- (count_in_filter fg (data classes) k Hfg).
  destruct (in_dec Z.eq_dec x (List.filter fg (data classes))) as [Hxin | Hxout].
  - exact (Hbest x Hxin).
  - left. rewrite (count_in_absent _ _ Hxout). apply count_in_present.
    apply filter_In. auto.
Qed.

Lemma most_frequent_class_is_a_foreground_mode_witness :
  exists classes,
    np_argmax0 twin_scores = Ok classes /\
    In 0 (data classes) /\
    0 <> 1 /\
    forall x, x <> 1 ->
      (count_in (data classes) x < count_in (data classes) 0)%nat \/
      (count_in (data classes) x = count_in (data classes) 0 /\ 0 <= x).
Proof.
  apply (most_frequent_class_is_a_foreground_mode twin_scores 1 0). reflexivity.
Defined.

(** ** Models at the edge: unknown, without faces, one-based *)

(** X22.  A model the handler does not know makes every method that takes a
    model id raise KeyError, before any library is called: the id is unknown
    exactly when it has no name in [car_id2name] or its name has no entry in
    [raw_models]. *)
Theorem unknown_model_raises_KeyError
    `{NumpyMath} `{NumpySort} `{Scipy} `{Cv2Draw} `{Cv2Solve}
    (self : Kaggle.ModelsHandler) (model_id : Z) :
  (Kaggle.model_id_to_vertices_and_triangles self model_id = Err KeyError <->
   Kaggle.car_id2name self !! model_id = None \/
   exists name, Kaggle.car_id2name self !! model_id = Some name /\
                Kaggle.raw_models self !! name = None) /\
  (Kaggle.model_id_to_vertices_and_triangles self model_id = Err KeyError ->
   Kaggle.get_model_faces_midpoints self model_id = Err KeyError /\
   Kaggle.get_model_face_to_color_array self model_id = Err KeyError /\
   Kaggle.get_color_to_3dpoints_arrays self model_id = Err KeyError /\
   (forall img t R, Kaggle.draw_model self img model_id t R = Err KeyError) /\
   (forall data, Kaggle.pnp_ransac_single_instance self data model_id = Err KeyError)).
Proof.
  split.
  - unfold Kaggle.model_id_to_vertices_and_triangles.
    destruct (Kaggle.car_id2name self !! model_id) as [name|]; [|tauto].
    destruct (Kaggle.raw_models self !! name) as [raw|] eqn:E.
    + split; [destruct (Kaggle.raw_vertices raw); discriminate|].
      intros [? | (n & En & Hn)]; [discriminate|].
      injection En as <-. congruence.
    + split; [|reflexivity]. intros _. right. eauto.
  - intros Hm.
    assert (Hmid : Kaggle.get_model_faces_midpoints self model_id = Err KeyError)
      by (unfold Kaggle.get_model_faces_midpoints; now rewrite Hm).
    split; [exact Hmid|].
    split; [unfold Kaggle.get_model_face_to_color_array; now rewrite Hmid|].
    assert (Htbl : Kaggle.get_color_to_3dpoints_arrays self model_id = Err KeyError)
      by (unfold Kaggle.get_color_to_3dpoints_arrays; now rewrite Hm).
    split; [exact Htbl|]. split.
    + intros img t R. unfold Kaggle.draw_model, Kaggle.draw_plan. now rewrite Hm.
    + intros data. unfold Kaggle.pnp_ransac_single_instance. now rewrite Htbl.
Qed.

(** X23.  A model without faces cannot be drawn in colour: the faces of
    such a model are [np.array([])], an array of shape (0,), and the column
    [triangles[:, 0]] of it raises IndexError.  [draw_model] and the face
    colours of the Kaggle handler raise it, and so do [draw_color_mask] and
    [get_faces_uv_colors] of the LineMOD handler for a model that has
    vertices; [draw_class_mask], which only iterates over the faces, returns
    the image as it was. *)
Theorem model_without_faces `{NumpyMath} `{NumpySort} `{Cv2Draw}
    (kself : Kaggle.ModelsHandler) (model_id : Z)
    (lself : Linemod.ModelsHandler) (registry : Registry) (model_name : string)
    (kvertices lvertices : list point3) (img : image)
    (translation_vector : point3) (rotation_matrix : mat3) :
  (Kaggle.model_id_to_vertices_and_triangles kself model_id = Ok (kvertices, []) ->
   Kaggle.get_model_faces_midpoints kself model_id = Err IndexError /\
   Kaggle.get_model_face_to_color_array kself model_id = Err IndexError /\
   Kaggle.draw_model kself img model_id translation_vector rotation_matrix
   = Err IndexError) /\
  (Linemod.models lself !! model_name = Some (lvertices, []) -> lvertices <> [] ->
   Linemod.get_faces_midpoints lself model_name = Err IndexError /\
   Linemod.get_faces_uv_colors lself model_name = Err IndexError /\
   Linemod.draw_color_mask lself img model_name rotation_matrix translation_vector
   = Err IndexError /\
   (forall id, model_name_to_model_id registry !! model_name = Some id ->
      draw_class_mask lself registry img model_name rotation_matrix translation_vector
      = Ok img)).
Proof.
  split.
  - intros Hm.
    assert (Hmid : Kaggle.get_model_faces_midpoints kself model_id = Err IndexError)
      by (unfold Kaggle.get_model_faces_midpoints; rewrite Hm; reflexivity).
    split; [exact Hmid|]. split.
    + unfold Kaggle.get_model_face_to_color_array. now rewrite Hmid.
    + unfold Kaggle.draw_model, Kaggle.draw_plan. rewrite Hm. reflexivity.
  - intros Hm Hne.
    assert (Hmid : Linemod.get_faces_midpoints lself model_name = Err IndexError).
    { unfold Linemod.get_faces_midpoints, Linemod.get_vertices, Linemod.get_faces.
      rewrite Hm. reflexivity. }
    assert (Etv : Linemod.transform_vertices lvertices rotation_matrix translation_vector
                  = Ok (Linemod.transform_points lvertices rotation_matrix
                          translation_vector))
      by (destruct lvertices; [congruence | reflexivity]).
    split; [exact Hmid|]. split; [|split].
    + unfold Linemod.get_faces_uv_colors.
      unfold Linemod.get_vertices at 1, Linemod.get_faces at 1.
      rewrite Hm. cbn [mbind result_bind fst snd]. now rewrite Hmid.
    + unfold Linemod.draw_color_mask, Linemod.draw_plan, Linemod.get_vertices,
        Linemod.get_faces.
      rewrite Hm. cbn [mbind result_bind fst snd]. rewrite Etv. reflexivity.
    + intros id Hid.
      unfold draw_class_mask, class_plan, Linemod.get_vertices, Linemod.get_faces.
      rewrite Hm. cbn [mbind result_bind fst snd]. rewrite Etv.
      cbn [mbind result_bind]. rewrite Hid. reflexivity.
Qed.

(** The bare triangle: three vertices and no face. *)
Definition bare_kaggle : Kaggle.ModelsHandler :=
  {| Kaggle.raw_models :=
       {[ "bare" := {| Kaggle.raw_vertices := flat_vertices;
                       Kaggle.raw_faces := [] |} ]};
     Kaggle.car_id2name := {[ 4 := "bare" ]} |}.

Definition bare_linemod : Linemod.ModelsHandler :=
  {| Linemod.models := {[ "bare" := (flat_vertices, []) ]};
     Linemod.color_resolution := 255 |}.

Lemma model_without_faces_witness :
  @Kaggle.draw_model pseudo_math insertion_sort recording_draw bare_kaggle []
    4 (0, 0, 0)%Q identity_rotation = Err IndexError /\
  @Linemod.draw_color_mask pseudo_math insertion_sort recording_draw bare_linemod []
    "bare" identity_rotation (0, 0, 0)%Q = Err IndexError.
Proof.
  destruct (@model_without_faces pseudo_math insertion_sort recording_draw
              bare_kaggle 4 bare_linemod wedge_registry "bare"
              [(1, -1, 0); (0, -1, 1); (-1, -1, 0)]%Q flat_vertices []
              (0, 0, 0)%Q identity_rotation) as [Hk Hl].
  split.
  - apply Hk. reflexivity.
  - apply Hl; [reflexivity | discriminate].
Defined.

(** X24.  The faces of a model file count vertices from one, the handler
    from zero: when every index of every face of the file lies between 1 and
    the number of vertices, [model_id_to_vertices_and_triangles] gives as
    many vertices and faces as the file has, with every index between 0 and
    the number of vertices less one, and [draw_model] lays out its drawing
    with every face of the file, for every pose. *)
Theorem one_based_faces_become_valid `{NumpyMath} `{NumpySort} `{Cv2Draw}
    (self : Kaggle.ModelsHandler) (model_id : Z) (name : string)
    (raw : Kaggle.RawModel) (img : image)
    (translation_vector : point3) (rotation_matrix : mat3) :
  Kaggle.car_id2name self !! model_id = Some name ->
  Kaggle.raw_models self !! name = Some raw ->
  Kaggle.raw_faces raw <> [] ->
  Forall (fun f =>
            1 <= tri0 f <= Z.of_nat (length (Kaggle.raw_vertices raw)) /\
            1 <= tri1 f <= Z.of_nat (length (Kaggle.raw_vertices raw)) /\
            1 <= tri2 f <= Z.of_nat (length (Kaggle.raw_vertices raw)))
         (Kaggle.raw_faces raw) ->
  exists vertices triangles pts2d faces,
    Kaggle.model_id_to_vertices_and_triangles self model_id = Ok (vertices, triangles) /\
    length vertices = length (Kaggle.raw_vertices raw) /\
    length triangles = length (Kaggle.raw_faces raw) /\
    Forall (fun t =>
              0 <= tri0 t < Z.of_nat (length vertices) /\
              0 <= tri1 t < Z.of_nat (length vertices) /\
              0 <= tri2 t < Z.of_nat (length vertices)) triangles /\
    Kaggle.draw_plan self model_id translation_vector rotation_matrix
      = Ok (pts2d, faces) /\
    Kaggle.draw_model self img model_id translation_vector rotation_matrix
      = fill_faces img pts2d faces /\
    Permutation (map fst faces) triangles.
Proof.
  intros Hid Hraw Hne Hone.
  set (vertices := map (fun v => (px v, (- py v)%Q, pz v)) (Kaggle.raw_vertices raw)).
  set (triangles := map (fun f => (tri0 f - 1, tri1 f - 1, tri2 f - 1))
                        (Kaggle.raw_faces raw)).
  assert (Hm : Kaggle.model_id_to_vertices_and_triangles self model_id
               = Ok (vertices, triangles)).
  { unfold Kaggle.model_id_to_vertices_and_triangles. rewrite Hid, Hraw.
    destruct (Kaggle.raw_vertices raw) eqn:Ev; [|reflexivity].
    exfalso. destruct (Kaggle.raw_faces raw) as [|f fs]; [congruence|].
    inversion Hone as [|f' fs' (Hf0 & _) _]; subst. simpl in Hf0. lia. }
  assert (Hlv : length vertices = length (Kaggle.raw_vertices raw))
    by (subst vertices; apply length_map).
  assert (Hrange : Forall (fun t =>
              0 <= tri0 t < Z.of_nat (length vertices) /\
              0 <= tri1 t < Z.of_nat (length vertices) /\
              0 <= tri2 t < Z.of_nat (length vertices)) triangles).
  { subst triangles. apply List.Forall_map. rewrite Hlv.
    eapply List.Forall_impl; [|exact Hone].
    intros f (Ha & Hb & Hc). cbn [tri0 tri1 tri2 fst snd]. lia. }
  assert (Hvalid : Forall (valid_face (length vertices)) triangles).
  { eapply List.Forall_impl; [|exact Hrange].
    intros t (Ha & Hb & Hc). unfold valid_face, valid_index. lia. }
  assert (Htne : triangles <> []).
  { subst triangles. destruct (Kaggle.raw_faces raw); [congruence | discriminate]. }
  destruct (draw_plans_on_valid_model self model_id
              {| Linemod.models := {[ name := (vertices, triangles) ]};
                 Linemod.color_resolution := 255 |}
              name vertices triangles translation_vector rotation_matrix img
              Hm (lookup_singleton_eq _ _) Htne Hvalid)
    as [(pts2d & faces & Hplan & Hdraw & Hperm & _) _].
  exists vertices, triangles, pts2d, faces.
  split; [exact Hm|]. split; [exact Hlv|].
  split; [subst triangles; apply length_map|].
  split; [exact Hrange|]. split; [exact Hplan|]. split; [exact Hdraw | exact Hperm].
Qed.

Lemma one_based_faces_become_valid_witness :
  exists vertices triangles pts2d faces,
    Kaggle.model_id_to_vertices_and_triangles wedge_kaggle 3 = Ok (vertices, triangles) /\
    length vertices = 4%nat /\
    length triangles = 2%nat /\
    Forall (fun t =>
              0 <= tri0 t < Z.of_nat (length vertices) /\
              0 <= tri1 t < Z.of_nat (length vertices) /\
              0 <= tri2 t < Z.of_nat (length vertices)) triangles /\
    @Kaggle.draw_plan pseudo_math insertion_sort recording_draw wedge_kaggle 3
      (0, 0, 0)%Q identity_rotation = Ok (pts2d, faces) /\
    @Kaggle.draw_model pseudo_math insertion_sort recording_draw wedge_kaggle [] 3
      (0, 0, 0)%Q identity_rotation = @fill_faces recording_draw [] pts2d faces /\
    Permutation (map fst faces) triangles.
Proof.
  apply (@one_based_faces_become_valid pseudo_math insertion_sort recording_draw
           wedge_kaggle 3 "wedge"
           {| Kaggle.raw_vertices := [(0, 0, 5); (1, 0, 5); (0, -1, 5); (1, -1, 9)]%Q;
              Kaggle.raw_faces := [(1, 2, 3); (2, 3, 4)] |}
           [] (0, 0, 0)%Q identity_rotation).
  - reflexivity.
  - reflexivity.
  - discriminate.
  - repeat first [apply List.Forall_nil | apply List.Forall_cons];
      vm_compute; repeat split; discriminate.
Defined.

(** ** The pose of the LineMOD handler *)

(** X25.  [transform_points] of the LineMOD handler is a rigid motion
    whenever the rotation matrix has orthonormal columns: the distance
    between any two points is kept, whatever the translation; the change of
    sign of the second and third coordinate does not alter it. *)
Theorem linemod_pose_keeps_distances (rotation_matrix : mat3)
    (translation_vector : point3) (points : list point3) (a a' b b' : point3) :
  mat_eq (np_dot (mtranspose rotation_matrix) rotation_matrix) identity_rotation ->
  In (a, a') (combine points
                (Linemod.transform_points points rotation_matrix translation_vector)) ->
  In (b, b') (combine points
                (Linemod.transform_points points rotation_matrix translation_vector)) ->
  (sqdist a' b' == sqdist a b)%Q.
Proof.
  intros Horth Ha Hb. unfold Linemod.transform_points in Ha, Hb.
  apply In_combine_map in Ha, Hb. subst a' b'.
  destruct rotation_matrix as [[[[r00 r01] r02] [[r10 r11] r12]] [[r20 r21] r22]].
  destruct a as [[ax ay] az], b as [[bx by'] bz], translation_vector as [[tx ty] tz].
  cbv [mat_eq point_eq np_dot mtranspose identity_rotation vecmat padd pscale
       row0 row1 row2 px py pz fst snd] in Horth.
  destruct Horth as ((E00 & E01 & E02) & (E10 & E11 & E12) & (E20 & E21 & E22)).
  cbv [sqdist mtranspose vecmat padd pscale row0 row1 row2 px py pz fst snd].
  set (dx := (ax - bx)%Q). set (dy := (ay - by')%Q). set (dz := (az - bz)%Q).
  transitivity
    (dx * dx * (r00 * r00 + r10 * r10 + r20 * r20)
     + dx * dy * (r00 * r01 + r10 * r11 + r20 * r21)
     + dx * dz * (r00 * r02 + r10 * r12 + r20 * r22)
     + dy * dx * (r01 * r00 + r11 * r10 + r21 * r20)
     + dy * dy * (r01 * r01 + r11 * r11 + r21 * r21)
     + dy * dz * (r01 * r02 + r11 * r12 + r21 * r22)
     + dz * dx * (r02 * r00 + r12 * r10 + r22 * r20)
     + dz * dy * (r02 * r01 + r12 * r11 + r22 * r21)
     + dz * dz * (r02 * r02 + r12 * r12 + r22 * r22))%Q.
  - subst dx dy dz. ring.
  - rewrite E00, E01, E02, E10, E11, E12, E20, E21, E22. ring.
Qed.

(** A quarter turn about the third axis. *)
Definition quarter_turn : mat3 := ((0, -1, 0), (1, 0, 0), (0, 0, 1))%Q.

Lemma linemod_pose_keeps_distances_witness :
  (sqdist
     (nth 0 (Linemod.transform_points [(1, 2, 3); (0, 5, 1 # 2)]
               quarter_turn (7, 0, 1)) (0, 0, 0))
     (nth 1 (Linemod.transform_points [(1, 2, 3); (0, 5, 1 # 2)]
               quarter_turn (7, 0, 1)) (0, 0, 0))
   == sqdist (1, 2, 3) (0, 5, 1 # 2))%Q.
Proof.
  apply (linemod_pose_keeps_distances quarter_turn (7, 0, 1)%Q
           [(1, 2, 3); (0, 5, 1 # 2)]%Q).
  - repeat split; reflexivity.
  - left. reflexivity.
  - right. left. reflexivity.
Defined.
